(** * mongo-sync: the change-feed anonymisation pipeline

    A shallow embedding of [hash], [anonymizeCustomer], [createUpdate],
    [convertCustomerUpdateToDotNotation] and of the event handlers of
    [syncMode], followed by the properties of the specification that concern
    them.

    Conventions of the embedding.
    - A JavaScript string is represented by the sequence of its UTF-8 bytes
      (a Rocq [string]).  The only characters the program inspects are the
      ASCII characters '@' and '.', and the prefix "address."; on well-formed
      strings, splitting and prefix tests on UTF-8 bytes agree with the ones
      on UTF-16 code units.
    - JavaScript objects live in a heap and are designated by references, so
      that two variables holding the same object see each other's writes.
    - Property names are ordinary data properties, enumerated in the order
      in which they were created; the special name __proto__ and names that
      are array indices (which JavaScript enumerates first) are outside the
      model.
    - The program is an ES module, hence strict code: an assignment to a
      property of a primitive throws. *)

From stdpp Require Import base list strings.
From Stdlib Require Import ZArith Lia Ascii.
From Equations Require Import Equations.

Local Open Scope Z_scope.

(** ** MD5 (RFC 1321), the digest behind [crypto.createHash('md5')] *)

Module MD5.

Definition mask32 : Z := 4294967295.

Definition add32 (x y : Z) : Z := Z.land (x + y) mask32.

Definition not32 (x : Z) : Z := Z.lxor x mask32.

Definition rotl32 (x c : Z) : Z :=
  Z.land (Z.lor (Z.shiftl x c) (Z.shiftr x (32 - c))) mask32.

(** Per-round shift amounts. *)
Definition shifts : list Z :=
  [7; 12; 17; 22; 7; 12; 17; 22; 7; 12; 17; 22; 7; 12; 17; 22;
   5;  9; 14; 20; 5;  9; 14; 20; 5;  9; 14; 20; 5;  9; 14; 20;
   4; 11; 16; 23; 4; 11; 16; 23; 4; 11; 16; 23; 4; 11; 16; 23;
   6; 10; 15; 21; 6; 10; 15; 21; 6; 10; 15; 21; 6; 10; 15; 21].

(** The table T[i] = floor(2^32 * |sin(i + 1)|). *)
Definition sines : list Z :=
  [0xd76aa478; 0xe8c7b756; 0x242070db; 0xc1bdceee;
   0xf57c0faf; 0x4787c62a; 0xa8304613; 0xfd469501;
   0x698098d8; 0x8b44f7af; 0xffff5bb1; 0x895cd7be;
   0x6b901122; 0xfd987193; 0xa679438e; 0x49b40821;
   0xf61e2562; 0xc040b340; 0x265e5a51; 0xe9b6c7aa;
   0xd62f105d; 0x02441453; 0xd8a1e681; 0xe7d3fbc8;
   0x21e1cde6; 0xc33707d6; 0xf4d50d87; 0x455a14ed;
   0xa9e3e905; 0xfcefa3f8; 0x676f02d9; 0x8d2a4c8a;
   0xfffa3942; 0x8771f681; 0x6d9d6122; 0xfde5380c;
   0xa4beea44; 0x4bdecfa9; 0xf6bb4b60; 0xbebfbc70;
   0x289b7ec6; 0xeaa127fa; 0xd4ef3085; 0x04881d05;
   0xd9d4d039; 0xe6db99e5; 0x1fa27cf8; 0xc4ac5665;
   0xf4292244; 0x432aff97; 0xab9423a7; 0xfc93a039;
   0x655b59c3; 0x8f0ccc92; 0xffeff47d; 0x85845dd1;
   0x6fa87e4f; 0xfe2ce6e0; 0xa3014314; 0x4e0811a1;
   0xf7537e82; 0xbd3af235; 0x2ad7d2bb; 0xeb86d391].

Definition nthZ (l : list Z) (i : Z) : Z := nth (Z.to_nat i) l 0.

(** A little-endian 32-bit word from four bytes, and back. *)
Definition word_of_bytes (bs : list Z) : Z :=
  nthZ bs 0 + 256 * nthZ bs 1 + 65536 * nthZ bs 2 + 16777216 * nthZ bs 3.

Definition bytes_of_word (w : Z) : list Z :=
  [Z.land w 255; Z.land (Z.shiftr w 8) 255;
   Z.land (Z.shiftr w 16) 255; Z.land (Z.shiftr w 24) 255].

(** Message padding: a 1 bit, zeros up to 56 mod 64, then the bit length
    of the message as a 64-bit little-endian integer. *)
Definition pad (msg : list Z) : list Z :=
  let len := Z.of_nat (length msg) in
  let zeros := Z.to_nat ((55 - len) mod 64) in
  let bits := 8 * len in
  msg ++ [128] ++ repeat 0 zeros
      ++ bytes_of_word (Z.land bits mask32)
      ++ bytes_of_word (Z.land (Z.shiftr bits 32) mask32).

Fixpoint chunks (fuel : nat) (n : nat) (l : list Z) : list (list Z) :=
  match fuel, l with
  | O, _ | _, [] => []
  | S fuel', _ => take n l :: chunks fuel' n (drop n l)
  end.

Definition words_of_block (block : list Z) : list Z :=
  map word_of_bytes (chunks 16 4 block).

Definition round (m : list Z) (st : Z * Z * Z * Z) (i : Z) : Z * Z * Z * Z :=
  let '(a, b, c, d) := st in
  let '(f, g) :=
    if i <? 16 then (Z.lor (Z.land b c) (Z.land (not32 b) d), i)
    else if i <? 32 then (Z.lor (Z.land d b) (Z.land (not32 d) c), (5 * i + 1) mod 16)
    else if i <? 48 then (Z.lxor (Z.lxor b c) d, (3 * i + 5) mod 16)
    else (Z.lxor c (Z.lor b (not32 d)), (7 * i) mod 16) in
  let f' := add32 (add32 (add32 f a) (nthZ sines i)) (nthZ m g) in
  (d, add32 b (rotl32 f' (nthZ shifts i)), b, c).

Definition process_block (h : Z * Z * Z * Z) (block : list Z) : Z * Z * Z * Z :=
  let m := words_of_block block in
  let '(a0, b0, c0, d0) := h in
  let '(a, b, c, d) := fold_left (round m) (map Z.of_nat (seq 0 64)) h in
  (add32 a0 a, add32 b0 b, add32 c0 c, add32 d0 d).

Definition initial : Z * Z * Z * Z :=
  (0x67452301, 0xefcdab89, 0x98badcfe, 0x10325476).

(** The 16 bytes of the digest. *)
Definition digest (msg : list Z) : list Z :=
  let padded := pad msg in
  let blocks := chunks (length padded) 64 padded in
  let '(a, b, c, d) := fold_left process_block blocks initial in
  bytes_of_word a ++ bytes_of_word b ++ bytes_of_word c ++ bytes_of_word d.

End MD5.

(** ** Strings *)

Definition bytes_of_string (s : string) : list Z :=
  map (fun c => Z.of_N (N_of_ascii c)) (String.list_ascii_of_string s).

Definition hex_digit (d : Z) : ascii :=
  match String.get (Z.to_nat d) "0123456789abcdef" with
  | Some c => c
  | None => "0"%char
  end.

(** [digest('hex')]: two lowercase hexadecimal digits per byte. *)
Definition hex_of_bytes (bs : list Z) : string :=
  String.string_of_list_ascii
    (flat_map (fun b => [hex_digit (b / 16); hex_digit (b mod 16)]) bs).

Definition md5_hex (input : string) : string :=
  hex_of_bytes (MD5.digest (bytes_of_string input)).

Definition hex_value (c : ascii) : Z :=
  let n := Z.of_N (N_of_ascii c) in
  if (48 <=? n) && (n <=? 57) then n - 48
  else if (97 <=? n) && (n <=? 102) then n - 87
  else if (65 <=? n) && (n <=? 70) then n - 55
  else 0.

(** [BigInt('0x' + md5)] on a string of hexadecimal digits. *)
Definition BigInt_of_hex (s : string) : Z :=
  fold_left (fun acc c => 16 * acc + hex_value c) (String.list_ascii_of_string s) 0.


(** ** [hash]: the anonymisation token *)

Definition alphabet : string :=
  "abcdefghijklmnopqrstuvwxyzABCDEFGHIJKLMNOPQRSTUVWXYZ0123456789".

(** [s[i]] as it is rendered by [join('')]: the one-character string at index
    [i], and the empty string when [s[i]] is [undefined]. *)
Definition char_at (s : string) (i : Z) : string :=
  match String.get (Z.to_nat i) s with
  | Some c => String c EmptyString
  | None => EmptyString
  end.

(** The [while (bigint > 0n)] loop.  BigInt [/] truncates and [%] takes the
    sign of the dividend: [Z.quot] and [Z.rem]. *)
Fixpoint hash_loop (fuel : nat) (length bigint : Z) (result : list string)
  : list string :=
  match fuel with
  | O => result
  | S fuel' =>
      if 0 <? bigint then
        let index := Z.rem bigint length in
        let bigint := Z.quot bigint length in
        hash_loop fuel' length bigint (result ++ [char_at alphabet index])
      else result
  end.

(** A number of iterations after which the loop has always stopped: the
    number of binary digits of its argument. *)
Definition hash_fuel (bigint : Z) : nat := S (Z.to_nat (Z.log2 bigint)).

Definition hash (input : string) : string :=
  let md5 := md5_hex input in
  let bigint := BigInt_of_hex md5 in
  let length := Z.of_nat (String.length alphabet) in
  let result := hash_loop (hash_fuel bigint) length bigint [] in
  String.substring 0 8 (String.concat "" result).

(** ** JavaScript values, objects and the heap *)

Abbreviation loc := nat (only parsing).

Inductive value :=
| VUndefined
| VNull
| VBoolean (b : bool)
| VNumber (n : Z)
| VString (s : string)
| VObject (l : loc).

(** An object: its own enumerable properties, in enumeration order. *)
Abbreviation object := (list (string * value)) (only parsing).

Abbreviation heap := (list object) (only parsing).

(** The outcome of a computation: a value, a thrown [TypeError], or a
    behaviour of JavaScript that this development does not describe. *)
Inductive outcome (A : Type) :=
| Ok (a : A)
| Throw
| Unmodelled.
Arguments Ok {A} a.
Arguments Throw {A}.
Arguments Unmodelled {A}.

(** Computations on the heap. *)
Definition M (A : Type) : Type := heap -> outcome (A * heap).

Definition ret {A} (a : A) : M A := fun h => Ok (a, h).

Definition bind {A B} (m : M A) (k : A -> M B) : M B :=
  fun h => match m h with
           | Ok (a, h') => k a h'
           | Throw => Throw
           | Unmodelled => Unmodelled
           end.

Definition throw {A} : M A := fun _ => Throw.

Declare Scope js_scope.
Delimit Scope js_scope with js.
Notation "'let*' x ':=' m 'in' k" := (bind m (fun x => k))
  (at level 10, x pattern, m at level 100, k at level 200) : js_scope.
Notation "m ';;' k" := (bind m (fun _ => k))
  (at level 100, k at level 200, right associativity) : js_scope.

Definition when (b : bool) (m : M unit) : M unit :=
  if b then m else ret tt.

(** [for (const x of xs) body]. *)
Fixpoint for_each {A} (xs : list A) (body : A -> M unit) : M unit :=
  match xs with
  | [] => ret tt
  | x :: xs' => bind (body x) (fun _ => for_each xs' body)
  end.

(** Truthiness, as tested by [if (v)] and [!v]. *)
Definition truthy (v : value) : bool :=
  match v with
  | VUndefined | VNull => false
  | VBoolean b => b
  | VNumber n => negb (n =? 0)
  | VString s => negb (String.eqb s "")
  | VObject _ => true
  end.

Fixpoint lookup_prop (o : object) (k : string) : value :=
  match o with
  | [] => VUndefined
  | (k', v) :: o' => if String.eqb k' k then v else lookup_prop o' k
  end.

(** Assignment to a property: an existing property keeps its place, a new
    one is added last. *)
Fixpoint store_prop (o : object) (k : string) (v : value) : object :=
  match o with
  | [] => [(k, v)]
  | (k', v') :: o' =>
      if String.eqb k' k then (k, v) :: o' else (k', v') :: store_prop o' k v
  end.

Definition object_at (h : heap) (l : loc) : object := nth l h [].

(** [{}] *)
Definition new_object : M value :=
  fun h => Ok (VObject (length h), h ++ [[]]).

(** [v[k]] for the property names this program reads: on [undefined] and
    [null] the read throws; a primitive has none of the properties read
    here (_id, the fields of a customer and of its address). *)
Definition get_prop (v : value) (k : string) : M value :=
  fun h => match v with
           | VUndefined | VNull => Throw
           | VObject l => Ok (lookup_prop (object_at h l) k, h)
           | VBoolean _ | VNumber _ | VString _ => Ok (VUndefined, h)
           end.

(** [v[k] = x] in strict mode: only an object can take the property. *)
Definition set_prop (v : value) (k : string) (x : value) : M unit :=
  fun h => match v with
           | VObject l => Ok (tt, <[l := store_prop (object_at h l) k x]> h)
           | _ => Throw
           end.

(** [o[k] = x] for a computed key [k].  The key __proto__, unless it is an
    own property of [o], reaches the accessor of [Object.prototype]: a value
    that is neither an object nor [null] is ignored, while an object or
    [null] would replace the prototype of [o], which this development does
    not describe. *)
Definition assign (o : value) (k : string) (x : value) : M unit :=
  fun h =>
    match o with
    | VObject l =>
        if String.eqb k "__proto__"
           && negb (existsb (String.eqb k) (map fst (object_at h l)))
        then match x with
             | VObject _ | VNull => Unmodelled
             | _ => Ok (tt, h)
             end
        else set_prop o k x h
    | _ => set_prop o k x h
    end.

(** The keys enumerated by [for (const key in v)].  Enumeration of the
    characters of a non-empty string is not described. *)
Definition own_keys (v : value) : M (list string) :=
  fun h => match v with
           | VObject l => Ok (map fst (object_at h l), h)
           | VString s => if String.eqb s "" then Ok ([], h) else Unmodelled
           | _ => Ok ([], h)
           end.

(** ** String operations of the program *)

(** [s.startsWith(p)] *)
Fixpoint startsWith (s p : string) {struct p} : bool :=
  match p, s with
  | EmptyString, _ => true
  | String _ _, EmptyString => false
  | String b p', String a s' => Ascii.eqb a b && startsWith s' p'
  end.

(** [s.split(sep)] for a separator of one character. *)
Fixpoint split (sep : ascii) (s : string) : list string :=
  match s with
  | EmptyString => [EmptyString]
  | String c s' =>
      if Ascii.eqb c sep then EmptyString :: split sep s'
      else match split sep s' with
           | [] => [String c EmptyString]
           | p :: ps => String c p :: ps
           end
  end.

(** An element of a destructured array inside a template literal or used as
    a property name: [undefined] reads "undefined". *)
Definition string_of_part (p : option string) : string :=
  match p with
  | Some s => s
  | None => "undefined"
  end.

Definition value_of_part (p : option string) : value :=
  match p with
  | Some s => VString s
  | None => VUndefined
  end.

(** [hash(v)]: [crypto]'s [update] throws on anything but a string (buffers
    do not occur among the values of a document). *)
Definition hash_value (v : value) : M string :=
  match v with
  | VString s => ret (hash s)
  | _ => throw
  end.

(** [v.split('@')]: only a string has a [split] method. *)
Definition split_value (v : value) (sep : ascii) : M (list string) :=
  match v with
  | VString s => ret (split sep s)
  | _ => throw
  end.

Local Open Scope js_scope.

(** ** [anonymizeCustomer] *)

Definition anonymizeCustomer (customer : value) : M value :=
  let* anonymous := new_object in
  let* firstName := get_prop customer "firstName" in
  when (truthy firstName)
    (let* t := hash_value firstName in
     set_prop anonymous "firstName" (VString t));;
  let* lastName := get_prop customer "lastName" in
  when (truthy lastName)
    (let* t := hash_value lastName in
     set_prop anonymous "lastName" (VString t));;
  let* email := get_prop customer "email" in
  when (truthy email)
    (let* parts := split_value email "@" in
     let emailPart1 := value_of_part (parts !! 0%nat) in
     let emailPart2 := parts !! 1%nat in
     let* t := hash_value emailPart1 in
     set_prop anonymous "email"
       (VString (t +:+ "@" +:+ string_of_part emailPart2)));;
  let* address := get_prop customer "address" in
  when (truthy address)
    (set_prop anonymous "address" address;;
     for_each ["line1"; "line2"; "postcode"]%string (fun key =>
       let* a := get_prop customer "address" in
       let* x := get_prop a key in
       when (truthy x)
         (let* target := get_prop anonymous "address" in
          let* a' := get_prop customer "address" in
          let* x' := get_prop a' key in
          let* t := hash_value x' in
          set_prop target key (VString t))));;
  ret anonymous.

(** ** [convertCustomerUpdateToDotNotation] *)

Definition convertCustomerUpdateToDotNotation (customer : value) : M value :=
  let* update := new_object in
  let* keys := own_keys customer in
  for_each keys (fun key =>
    if String.eqb key "address" then
      let* group := get_prop customer key in
      let* nestedKeys := own_keys group in
      for_each nestedKeys (fun nestedKey =>
        let* group' := get_prop customer key in
        let* v := get_prop group' nestedKey in
        set_prop update (key +:+ "." +:+ nestedKey) v)
    else
      let* v := get_prop customer key in
      set_prop update key v);;
  ret update.

(** ** [createUpdate] *)

(** One turn of the loop of stage 1; the result is the new value of the
    local variable [rewriteFullAddress]. *)
Definition createUpdate_key (updatedFields customer : value)
    (rewriteFullAddress : bool) (key : string) : M bool :=
  if startsWith key "address." then
    let parts := split "." key in
    let key1 := string_of_part (parts !! 0%nat) in
    let key2 := string_of_part (parts !! 1%nat) in
    let* group := get_prop customer key1 in
    when (negb (truthy group))
      (let* o := new_object in set_prop customer key1 o);;
    let* target := get_prop customer key1 in
    let* v := get_prop updatedFields key in
    assign target key2 v;;
    ret rewriteFullAddress
  else if String.eqb key "address" then
    let* v := get_prop updatedFields key in
    set_prop customer key v;;
    ret true
  else
    let* v := get_prop updatedFields key in
    assign customer key v;;
    ret rewriteFullAddress.

Fixpoint createUpdate_keys (updatedFields customer : value)
    (rewriteFullAddress : bool) (keys : list string) : M bool :=
  match keys with
  | [] => ret rewriteFullAddress
  | key :: keys' =>
      let* flag := createUpdate_key updatedFields customer rewriteFullAddress key in
      createUpdate_keys updatedFields customer flag keys'
  end.

(** Stage 1: the customer rebuilt from the delta, with the final value of
    [rewriteFullAddress].  The keys of [updatedFields] are those it has when
    the loop starts (the loop does not write to [updatedFields] itself). *)
Definition createUpdate_stage1 (updatedFields : value) : M (bool * value) :=
  let* customer := new_object in
  let* keys := own_keys updatedFields in
  let* rewriteFullAddress := createUpdate_keys updatedFields customer false keys in
  ret (rewriteFullAddress, customer).

Definition createUpdate (updatedFields : value) : M value :=
  let* (rewriteFullAddress, customer) := createUpdate_stage1 updatedFields in
  let* anonym := anonymizeCustomer customer in
  if rewriteFullAddress then ret anonym
  else convertCustomerUpdateToDotNotation anonym.

(** ** Documents: values without sharing *)

#[local] Set Warnings "-register-all".

Inductive doc :=
| DUndefined
| DNull
| DBoolean (b : bool)
| DNumber (n : Z)
| DString (s : string)
| DObject (fields : list (string * doc)).

(** A document deserialised into fresh objects. *)
Fixpoint alloc_doc (d : doc) (h : heap) : value * heap :=
  match d with
  | DUndefined => (VUndefined, h)
  | DNull => (VNull, h)
  | DBoolean b => (VBoolean b, h)
  | DNumber n => (VNumber n, h)
  | DString s => (VString s, h)
  | DObject fields =>
      let fix go (fs : list (string * doc)) (h : heap) : object * heap :=
        match fs with
        | [] => ([], h)
        | (k, d') :: fs' =>
            let '(v, h1) := alloc_doc d' h in
            let '(o, h2) := go fs' h1 in
            ((k, v) :: o, h2)
        end in
      let '(o, h') := go fields h in
      (VObject (length h'), h' ++ [o])
  end.

(** The document a value stands for in a heap (what a serialiser writes);
    [None] when the nesting is deeper than [fuel]. *)
Fixpoint read_doc (fuel : nat) (h : heap) (v : value) : option doc :=
  match v with
  | VUndefined => Some DUndefined
  | VNull => Some DNull
  | VBoolean b => Some (DBoolean b)
  | VNumber n => Some (DNumber n)
  | VString s => Some (DString s)
  | VObject l =>
      match fuel with
      | O => None
      | S fuel' =>
          fs ← mapM (fun kv : string * value =>
                       d ← read_doc fuel' h kv.2; Some (kv.1, d))
                    (object_at h l);
          Some (DObject fs)
      end
  end.

Definition truthy_doc (d : doc) : bool :=
  match d with
  | DUndefined | DNull => false
  | DBoolean b => b
  | DNumber n => negb (n =? 0)
  | DString s => negb (String.eqb s "")
  | DObject _ => true
  end.

Definition doc_of (h : heap) (v : value) : option doc :=
  read_doc (S (length h)) h v.

(** A function of the program run on a document in an empty heap, its
    result read back as a document. *)
Definition on_doc (f : value -> M value) (d : doc) : outcome (option doc) :=
  let '(v, h) := alloc_doc d [] in
  match f v h with
  | Ok (r, h') => Ok (doc_of h' r)
  | Throw => Throw
  | Unmodelled => Unmodelled
  end.


(** ** [syncMode] *)

(** The constants of the program. *)
Record config := {
  MAX_BATCH_SIZE : nat;
  UPDATES_INTERVAL : Z;
}.

Definition source_config : config :=
  {| MAX_BATCH_SIZE := 1000; UPDATES_INTERVAL := 1000 |}.

(** A resume token is opaque to the program; it is stored as the document
    that [JSON.stringify] writes. *)
Definition ResumeToken := doc.

Record Update := {
  _id : value;
  update : value;
  resumeToken : ResumeToken;
}.

Record UpdateDescription := {
  updatedFields : doc;
  removedFields : list string;
  truncatedArrays : list doc;
}.

(** A change event as the driver delivers it; a field that an event of this
    operation type does not carry is [DUndefined] (or [None]). *)
Record ChangeStreamDocument := {
  operationType : string;
  fullDocument : doc;
  documentKey : doc;
  updateDescription : option UpdateDescription;
}.

(** One operation of a bulk write, as serialised when [bulkWrite] is called:
    [{ updateOne: { filter: { _id }, update: { $set: update }, upsert } }]. *)
Record operation := {
  filter_id : option doc;
  set_fields : option doc;
  upsert : bool;
}.

Inductive log_entry :=
| LogContinue                  (* log('Continue with resume token') *)
| LogWrote (length : nat)      (* log(`Successfully wrote ${length} docs`) *)
| ErrorBulkWrite               (* console.error('Error while bulk write', err) *)
| ErrorUpdatedFields           (* console.error("Updated fields doesn't provided", ...) *)
| ErrorListening               (* console.error('Error while listening changes', err) *)
| ErrorWritingToken.           (* console.error('Error while writing resume token file', err) *)

(** What started a call of [bulkWriteUpdates]: the timer callback (which
    read the clock first) or the change handler. *)
Inductive origin :=
| FromTimer (start : Z)
| FromChange.

Inductive stage :=
| AwaitingBulkWrite
| AwaitingWriteFile.

(** A call of [bulkWriteUpdates] suspended at one of its two [await]s, with
    the local variables it still needs. *)
Record flush := {
  fl_origin : origin;
  fl_stage : stage;
  lastResumeToken : ResumeToken;
  fl_length : nat;
}.

Record state := {
  st_heap : heap;
  updates : list Update;
  timerId : nat;
  timers : list (nat * Z);           (* pending timeouts: handle, delay *)
  next_timer : nat;
  flushes : list (nat * flush);      (* suspended calls of bulkWriteUpdates *)
  next_flush : nat;
  cs_resumeToken : ResumeToken;      (* changeStream.resumeToken *)
  cs_closed : bool;
  token_file : option ResumeToken;   (* resume_token.json *)
  sink : list (list operation);      (* the bulk writes issued, latest last *)
  console : list log_entry;          (* latest last *)
}.

Definition with_heap (h : heap) (st : state) : state :=
  {| st_heap := h; updates := updates st; timerId := timerId st;
     timers := timers st; next_timer := next_timer st; flushes := flushes st;
     next_flush := next_flush st; cs_resumeToken := cs_resumeToken st;
     cs_closed := cs_closed st; token_file := token_file st; sink := sink st;
     console := console st |}.

Definition with_updates (us : list Update) (st : state) : state :=
  {| st_heap := st_heap st; updates := us; timerId := timerId st;
     timers := timers st; next_timer := next_timer st; flushes := flushes st;
     next_flush := next_flush st; cs_resumeToken := cs_resumeToken st;
     cs_closed := cs_closed st; token_file := token_file st; sink := sink st;
     console := console st |}.

Definition with_timers (id : nat) (ts : list (nat * Z)) (next : nat) (st : state) : state :=
  {| st_heap := st_heap st; updates := updates st; timerId := id;
     timers := ts; next_timer := next; flushes := flushes st;
     next_flush := next_flush st; cs_resumeToken := cs_resumeToken st;
     cs_closed := cs_closed st; token_file := token_file st; sink := sink st;
     console := console st |}.

Definition with_flushes (fs : list (nat * flush)) (next : nat) (st : state) : state :=
  {| st_heap := st_heap st; updates := updates st; timerId := timerId st;
     timers := timers st; next_timer := next_timer st; flushes := fs;
     next_flush := next; cs_resumeToken := cs_resumeToken st;
     cs_closed := cs_closed st; token_file := token_file st; sink := sink st;
     console := console st |}.

Definition with_stream (t : ResumeToken) (closed : bool) (st : state) : state :=
  {| st_heap := st_heap st; updates := updates st; timerId := timerId st;
     timers := timers st; next_timer := next_timer st; flushes := flushes st;
     next_flush := next_flush st; cs_resumeToken := t;
     cs_closed := closed; token_file := token_file st; sink := sink st;
     console := console st |}.

Definition with_token_file (f : option ResumeToken) (st : state) : state :=
  {| st_heap := st_heap st; updates := updates st; timerId := timerId st;
     timers := timers st; next_timer := next_timer st; flushes := flushes st;
     next_flush := next_flush st; cs_resumeToken := cs_resumeToken st;
     cs_closed := cs_closed st; token_file := f; sink := sink st;
     console := console st |}.

Definition with_sink (ops : list (list operation)) (st : state) : state :=
  {| st_heap := st_heap st; updates := updates st; timerId := timerId st;
     timers := timers st; next_timer := next_timer st; flushes := flushes st;
     next_flush := next_flush st; cs_resumeToken := cs_resumeToken st;
     cs_closed := cs_closed st; token_file := token_file st; sink := ops;
     console := console st |}.

Definition log (e : log_entry) (st : state) : state :=
  {| st_heap := st_heap st; updates := updates st; timerId := timerId st;
     timers := timers st; next_timer := next_timer st; flushes := flushes st;
     next_flush := next_flush st; cs_resumeToken := cs_resumeToken st;
     cs_closed := cs_closed st; token_file := token_file st; sink := sink st;
     console := console st ++ [e] |}.

(** [timerId = setTimeout(..., interval)] *)
Definition set_timer (interval : Z) (st : state) : state :=
  with_timers (next_timer st) (timers st ++ [(next_timer st, interval)])
              (S (next_timer st)) st.

(** [clearTimeout(timerId)] *)
Definition clearTimeout (st : state) : state :=
  with_timers (timerId st)
              (filter (fun t => t.1 ≠ timerId st) (timers st))
              (next_timer st) st.

Definition operation_of (h : heap) (u : Update) : operation :=
  {| filter_id := doc_of h (_id u);
     set_fields := doc_of h (update u);
     upsert := true |}.

(** [bulkWriteUpdates()] up to its first [await]: nothing when the queue is
    empty; otherwise the queue is taken and emptied, the bulk write is
    issued, and the call is suspended (its handle is returned). *)
Definition bulkWriteUpdates (o : origin) (st : state) : state * option nat :=
  match last (updates st) with
  | None => (st, None)
  | Some lastUpdate =>
      let updatesToWrite := updates st in
      let lastResumeToken := resumeToken lastUpdate in
      let st := with_updates [] st in
      let operations := map (operation_of (st_heap st)) updatesToWrite in
      let length := length operations in
      let st := with_sink (sink st ++ [operations]) st in
      let f := {| fl_origin := o; fl_stage := AwaitingBulkWrite;
                  lastResumeToken := lastResumeToken; fl_length := length |} in
      (with_flushes (flushes st ++ [(next_flush st, f)]) (S (next_flush st)) st,
       Some (next_flush st))
  end.

(** The [finally] callback attached to a call of [bulkWriteUpdates]; [now]
    is the clock it reads when the call came from the timer. *)
Definition rearm (cfg : config) (o : origin) (now : Z) (st : state) : state :=
  match o with
  | FromTimer start =>
      let interval := UPDATES_INTERVAL cfg - (now - start) in
      set_timer (if interval <? 0 then 0 else interval) st
  | FromChange => set_timer (UPDATES_INTERVAL cfg) st
  end.

(** A call of [bulkWriteUpdates] with its [finally] callback: when the call
    returns at once, the callback runs before any other event. *)
Definition flush_then_rearm (cfg : config) (o : origin) (now : Z) (st : state) : state :=
  match bulkWriteUpdates o st with
  | (st', None) => rearm cfg o now st'
  | (st', Some _) => st'
  end.

(** Running a heap computation on the heap of the state. *)
Definition run {A} (m : M A) (st : state) : outcome (A * state) :=
  match m (st_heap st) with
  | Ok (a, h) => Ok (a, with_heap h st)
  | Throw => Throw
  | Unmodelled => Unmodelled
  end.

Definition deserialise (d : doc) : M value :=
  fun h => Ok (alloc_doc d h).

Definition push (u : Update) (st : state) : state :=
  with_updates (updates st ++ [u]) st.

(** The change listener, [if (change.operationType === 'insert')]. *)
Definition on_change_insert (change : ChangeStreamDocument) (st : state)
  : outcome state :=
  if String.eqb (operationType change) "insert" then
    match run (let* fullDocument := deserialise (fullDocument change) in
               let* _id := get_prop fullDocument "_id" in
               let* anonym := anonymizeCustomer fullDocument in
               ret (_id, anonym)) st with
    | Ok ((_id, anonym), st) =>
        Ok (push {| _id := _id; update := anonym;
                    resumeToken := cs_resumeToken st |} st)
    | Throw => Throw
    | Unmodelled => Unmodelled
    end
  else Ok st.

(** The change listener, [if (change.operationType === 'update')]; the
    boolean tells that the listener has returned. *)
Definition on_change_update (change : ChangeStreamDocument) (st : state)
  : outcome (state * bool) :=
  if String.eqb (operationType change) "update" then
    match updateDescription change with
    | None => Throw
    | Some description =>
        match run (let* documentKey := deserialise (documentKey change) in
                   let* _id := get_prop documentKey "_id" in
                   let* updatedFields := deserialise (updatedFields description) in
                   ret (_id, updatedFields)) st with
        | Ok ((_id, updatedFields), st) =>
            if negb (truthy updatedFields) then
              Ok (log ErrorUpdatedFields st, true)
            else
              match run (createUpdate updatedFields) st with
              | Ok (update, st) =>
                  Ok (push {| _id := _id; update := update;
                              resumeToken := cs_resumeToken st |} st, false)
              | Throw => Throw
              | Unmodelled => Unmodelled
              end
        | Throw => Throw
        | Unmodelled => Unmodelled
        end
    end
  else Ok (st, false).

(** The end of the listener: [if (updates.length >= MAX_BATCH_SIZE) ...]. *)
Definition on_change_check (cfg : config) (st : state) : state :=
  if (MAX_BATCH_SIZE cfg <=? length (updates st))%nat then
    flush_then_rearm cfg FromChange 0 (clearTimeout st)
  else st.

Definition on_change_dispatch (change : ChangeStreamDocument) (st : state)
  : outcome (state * bool) :=
  match on_change_insert change st with
  | Ok st => on_change_update change st
  | Throw => Throw
  | Unmodelled => Unmodelled
  end.

(** [changeStream.on('change', ...)]: the driver has set
    [changeStream.resumeToken] to the token of the event. *)
Definition on_change (cfg : config) (change : ChangeStreamDocument)
    (token : ResumeToken) (st : state) : outcome state :=
  match on_change_dispatch change (with_stream token (cs_closed st) st) with
  | Ok (st, true) => Ok st
  | Ok (st, false) => Ok (on_change_check cfg st)
  | Throw => Throw
  | Unmodelled => Unmodelled
  end.

(** The timer callback of [repeat]. *)
Definition on_timeout (cfg : config) (start finish : Z) (st : state) : state :=
  flush_then_rearm cfg (FromTimer start) finish st.

Fixpoint find_flush (id : nat) (fs : list (nat * flush)) : option flush :=
  match fs with
  | [] => None
  | (id', f) :: fs' => if Nat.eqb id' id then Some f else find_flush id fs'
  end.

Definition drop_flush (id : nat) (fs : list (nat * flush)) : list (nat * flush) :=
  filter (fun f => f.1 ≠ id) fs.

Definition put_flush (id : nat) (f : flush) (fs : list (nat * flush))
  : list (nat * flush) :=
  map (fun e => if Nat.eqb e.1 id then (id, f) else e) fs.

(** The bulk write of a suspended call settles: its outcome is logged, then
    [saveResumeToken(lastResumeToken)] starts writing the file. *)
Definition on_bulkWrite_settled (id : nat) (ok : bool) (st : state) : state :=
  match find_flush id (flushes st) with
  | Some f =>
      match fl_stage f with
      | AwaitingBulkWrite =>
          let st := log (if ok then LogWrote (fl_length f) else ErrorBulkWrite) st in
          let f' := {| fl_origin := fl_origin f; fl_stage := AwaitingWriteFile;
                       lastResumeToken := lastResumeToken f;
                       fl_length := fl_length f |} in
          with_flushes (put_flush id f' (flushes st)) (next_flush st) st
      | AwaitingWriteFile => st
      end
  | None => st
  end.

(** [fs.writeFile] of [saveResumeToken] settles: the file holds the token,
    or the failure is logged; the call of [bulkWriteUpdates] is over and its
    [finally] callback runs. *)
Definition on_writeFile_settled (cfg : config) (id : nat) (ok : bool) (now : Z)
    (st : state) : state :=
  match find_flush id (flushes st) with
  | Some f =>
      match fl_stage f with
      | AwaitingWriteFile =>
          let st := if ok then with_token_file (Some (lastResumeToken f)) st
                    else log ErrorWritingToken st in
          let st := with_flushes (drop_flush id (flushes st)) (next_flush st) st in
          rearm cfg (fl_origin f) now st
      | AwaitingBulkWrite => st
      end
  | None => st
  end.

(** What the environment does to the process. *)
Inductive input :=
| Change (change : ChangeStreamDocument) (token : ResumeToken)
| Timeout (id : nat) (start finish : Z)
| BulkWriteSettled (id : nat) (ok : bool)
| WriteFileSettled (id : nat) (ok : bool) (now : Z)
| StreamError
| Cancel.

(** One event of the event loop.  An input that cannot occur in the state
    (a timer that is not pending, a change after the stream was closed)
    leaves it as it is. *)
Definition step (cfg : config) (st : state) (i : input) : outcome state :=
  match i with
  | Change change token =>
      if cs_closed st then Ok st else on_change cfg change token st
  | Timeout id start finish =>
      if bool_decide (id ∈ (timers st).*1) then
        Ok (on_timeout cfg start finish
              (with_timers (timerId st)
                           (filter (fun t => t.1 ≠ id) (timers st))
                           (next_timer st) st))
      else Ok st
  | BulkWriteSettled id ok => Ok (on_bulkWrite_settled id ok st)
  | WriteFileSettled id ok now => Ok (on_writeFile_settled cfg id ok now st)
  | StreamError => Ok (log ErrorListening st)
  | Cancel => Ok (with_stream (cs_resumeToken st) true (clearTimeout st))
  end.

Fixpoint steps (cfg : config) (st : state) (inputs : list input) : outcome state :=
  match inputs with
  | [] => Ok st
  | i :: inputs' =>
      match step cfg st i with
      | Ok st' => steps cfg st' inputs'
      | Throw => Throw
      | Unmodelled => Unmodelled
      end
  end.

(** The state when [syncMode] returns: the token file has been read, the
    stream is open and the first timer is armed. *)
Definition syncMode (cfg : config) (file : option ResumeToken) : state :=
  let st := {| st_heap := []; updates := []; timerId := 0%nat; timers := [];
               next_timer := 0%nat; flushes := []; next_flush := 0%nat;
               cs_resumeToken := DUndefined; cs_closed := false;
               token_file := file; sink := []; console := [] |} in
  let st := match file with
            | Some resumeToken =>
                if truthy_doc resumeToken then log LogContinue st else st
            | None => st
            end in
  set_timer (UPDATES_INTERVAL cfg) st.

(** ** The token algorithm as the specification words it *)

(** [a-z], [A-Z], [0-9], concatenated in that order. *)
Definition spec_alphabet : list ascii :=
  map ascii_of_nat (seq 97 26 ++ seq 65 26 ++ seq 48 10).

(** The digest read as an unsigned big integer (most significant byte
    first, as its hexadecimal rendering reads). *)
Definition spec_value (s : string) : Z :=
  fold_left (fun acc b => 256 * acc + b) (MD5.digest (bytes_of_string s)) 0.

(** The indices [value mod 62], least significant first, until [value]
    reaches zero. *)
Equations? spec_digits (v : Z) : list Z
  by wf (Z.to_nat (Z.log2_up (v + 1))) lt :=
  spec_digits v with Z_lt_dec 0 v => {
    | left _ => v mod 62 :: spec_digits (v / 62);
    | right _ => [] }.
Proof.
  apply Z2Nat.inj_lt; try apply Z.log2_up_nonneg.
  apply (Z.lt_le_trans _ (Z.log2_up (2 * (v / 62 + 1)))).
  - assert (0 <= v / 62) by (apply Z.div_pos; lia).
    rewrite Z.log2_up_double by lia. lia.
  - apply Z.log2_up_le_mono.
    assert (62 * (v / 62) <= v) by (apply Z.mul_div_le; lia).
    assert (0 <= v / 62) by (apply Z.div_pos; lia). lia.
Qed.

Definition spec_token (s : string) : string :=
  String.string_of_list_ascii
    (take 8 (map (fun i => nth (Z.to_nat i) spec_alphabet "a"%char)
                 (spec_digits (spec_value s)))).

Definition alphanumeric (c : ascii) : bool :=
  let n := nat_of_ascii c in
  ((97 <=? n) && (n <=? 122) || (65 <=? n) && (n <=? 90)
   || (48 <=? n) && (n <=? 57))%nat.

(** ** The anonymisation policy on a typed record

    What [anonymizeCustomer] does to a [Partial<Customer>], stated on the
    properties of the record: a string field is absent or a string, the
    address is absent or an object whose line1, line2 and postcode are absent
    or strings. *)

Definition textual (v : value) : bool :=
  match v with
  | VUndefined | VString _ => true
  | _ => false
  end.

Definition token_value (v : value) : value :=
  match v with
  | VString s => VString (hash s)
  | _ => v
  end.

(** The part before the first '@' replaced by its token, the part up to the
    next '@' kept. *)
Definition anonymized_email (s : string) : string :=
  let parts := split "@" s in
  hash (string_of_part (parts !! 0%nat)) +:+ "@" +:+ string_of_part (parts !! 1%nat).

Definition email_value (v : value) : value :=
  match v with
  | VString s => VString (anonymized_email s)
  | _ => v
  end.

(** A field is written only when the record holds a truthy value for it. *)
Definition put_if_truthy (k : string) (v x : value) (o : object) : object :=
  if truthy v then store_prop o k x else o.

Definition anonymous_of (customer : object) : object :=
  let firstName := lookup_prop customer "firstName" in
  let lastName := lookup_prop customer "lastName" in
  let email := lookup_prop customer "email" in
  let address := lookup_prop customer "address" in
  put_if_truthy "address" address address
    (put_if_truthy "email" email (email_value email)
      (put_if_truthy "lastName" lastName (token_value lastName)
        (put_if_truthy "firstName" firstName (token_value firstName) []))).

Definition anonymized_line (key : string) (group : object) : object :=
  put_if_truthy key (lookup_prop group key)
                (token_value (lookup_prop group key)) group.

Definition anonymized_address (group : object) : object :=
  anonymized_line "postcode" (anonymized_line "line2" (anonymized_line "line1" group)).

Definition typed_address (h : heap) (v : value) : bool :=
  match v with
  | VUndefined => true
  | VObject a =>
      bool_decide (a < length h)%nat
      && textual (lookup_prop (object_at h a) "line1")
      && textual (lookup_prop (object_at h a) "line2")
      && textual (lookup_prop (object_at h a) "postcode")
  | _ => false
  end.

Definition typed_customer (h : heap) (c : loc) : bool :=
  bool_decide (c < length h)%nat
  && textual (lookup_prop (object_at h c) "firstName")
  && textual (lookup_prop (object_at h c) "lastName")
  && textual (lookup_prop (object_at h c) "email")
  && typed_address h (lookup_prop (object_at h c) "address").

(** The heap after [anonymizeCustomer]: the tokens of the address lines are
    written into the address object of the record itself, and the new object
    comes last. *)
Definition anonymized_heap (h : heap) (c : loc) : heap :=
  match lookup_prop (object_at h c) "address" with
  | VObject a => <[a := anonymized_address (object_at h a)]> h
  | _ => h
  end ++ [anonymous_of (object_at h c)].

(** [s.includes(c)] for a character [c]. *)
Fixpoint contains (c : ascii) (s : string) : bool :=
  match s with
  | EmptyString => false
  | String a s' => Ascii.eqb a c || contains c s'
  end.

(** The fields that [anonymizeCustomer] may write. *)
Definition anonymizable : list string :=
  ["firstName"; "lastName"; "email"; "address"]%string.

(** The own properties of an object. *)
Definition keys (o : object) : list string := map fst o.

(** ** Update deltas *)

(** The three kinds of key that [createUpdate] tells apart. *)
Definition dotted_key (key : string) : bool := startsWith key "address.".

Definition bare_key (key : string) : bool := String.eqb key "address".

Definition other_key (key : string) : bool :=
  negb (dotted_key key) && negb (bare_key key).

(** [key.split('.')[1]], as [createUpdate] names the field of a dotted key. *)
Definition path_field (key : string) : string :=
  string_of_part (split "." key !! 1%nat).

(** The property that [createUpdate] assigns for a key is not __proto__. *)
Definition proto_free (key : string) : bool :=
  negb (String.eqb (if dotted_key key then path_field key else key) "__proto__").

(** What one turn of the first loop of [createUpdate] does to the address
    object of the customer. *)
Definition stage1_group_step (delta group : object) (key : string) : object :=
  if dotted_key key
  then store_prop group (path_field key) (lookup_prop delta key)
  else group.

(** The fields of an address that [anonymizeCustomer] replaces. *)
Definition address_line (f : string) : bool :=
  String.eqb f "line1" || String.eqb f "line2" || String.eqb f "postcode".

(** The name fields of a delta hold strings. *)
Definition typed_names (delta : object) : bool :=
  forallb (fun k => textual (lookup_prop delta k))
          ["firstName"; "lastName"; "email"]%string.

(** The address object of the bare key once the dotted keys enumerated
    after the bare key have been written into it. *)
Definition merged_address (h : heap) (updatedFields a : loc) (after : list string)
  : object :=
  fold_left (stage1_group_step (object_at h updatedFields)) after (object_at h a).

(** A delta with the bare key address, holding an address object [a]; the
    keys enumerated before it and after it are given.  No key assigns
    __proto__, the names are strings, and so are line1, line2 and postcode
    of the address once the later dotted keys are written into it. *)
Definition bare_address_delta (h : heap) (updatedFields a : loc)
    (before after : list string) : bool :=
  bool_decide (updatedFields < length h)%nat
  && bool_decide (keys (object_at h updatedFields) = before ++ "address"%string :: after)
  && forallb (fun k => negb (bare_key k)) before
  && forallb (fun k => negb (bare_key k)) after
  && forallb proto_free (before ++ after)
  && typed_names (object_at h updatedFields)
  && match lookup_prop (object_at h updatedFields) "address" with
     | VObject a' => bool_decide (a' = a)
     | _ => false
     end
  && bool_decide (a < length h)%nat
  && bool_decide (a <> updatedFields)
  && forallb (fun l => textual (lookup_prop (merged_address h updatedFields a after) l))
             ["line1"; "line2"; "postcode"]%string.

(** The token of an address line, as [anonymizeCustomer] writes it. *)
Definition line_token (f v : string) : string :=
  if (String.eqb f "line1" || String.eqb f "line2" || String.eqb f "postcode")
     && negb (String.eqb v "")
  then hash v else v.

(** [createUpdate] on a document, with the final value of its local variable
    [rewriteFullAddress] and the update read back as a document. *)
Definition createUpdate_on_doc (d : doc) : outcome (bool * option doc) :=
  let '(updatedFields, h) := alloc_doc d [] in
  match createUpdate_stage1 updatedFields h with
  | Ok ((rewriteFullAddress, _), _) =>
      match createUpdate updatedFields h with
      | Ok (update, h') => Ok (rewriteFullAddress, doc_of h' update)
      | Throw => Throw
      | Unmodelled => Unmodelled
      end
  | Throw => Throw
  | Unmodelled => Unmodelled
  end.

(** The name fields of an object hold strings. *)
Definition names_textual (o : object) : Prop :=
  textual (lookup_prop o "firstName") = true
  /\ textual (lookup_prop o "lastName") = true
  /\ textual (lookup_prop o "email") = true.

(** What stage 1 keeps true while it runs: the customer is the object
    allocated at [length h], the objects of [h] are as they were, and the
    names of the customer are strings. *)
Definition stage1_inv (h h1 : heap) : Prop :=
  (length h < length h1)%nat
  /\ (forall l, (l < length h)%nat -> object_at h1 l = object_at h l)
  /\ names_textual (object_at h1 (length h)).

(** Before the bare key, the address of the customer is absent or a group
    made by the loop. *)
Definition address_fresh (h h1 : heap) : Prop :=
  lookup_prop (object_at h1 (length h)) "address" = VUndefined
  \/ exists g, lookup_prop (object_at h1 (length h)) "address" = VObject g
               /\ (length h < g < length h1)%nat.

(** ** Statements about [syncMode] *)

(** What the dispatch of a change leaves alone: timers, suspended calls,
    the token file and the bulk writes issued. *)
Definition unchanged_outside_queue (st st' : state) : Prop :=
  timerId st' = timerId st
  /\ timers st' = timers st
  /\ next_timer st' = next_timer st
  /\ flushes st' = flushes st
  /\ next_flush st' = next_flush st
  /\ token_file st' = token_file st
  /\ sink st' = sink st.

(** The handles of the suspended calls are below the next handle. *)
Definition flush_ids_fresh (st : state) : Prop :=
  Forall (fun e : nat * flush => (e.1 < next_flush st)%nat) (flushes st).

(** An input that does not settle an await of the call [id]. *)
Definition other_flush (id : nat) (i : input) : Prop :=
  match i with
  | BulkWriteSettled id' _ | WriteFileSettled id' _ _ => id' <> id
  | _ => True
  end.

(** The constants of the scenario of the specification: a maximum batch
    size of 3. *)
Definition test_config : config :=
  {| MAX_BATCH_SIZE := 3; UPDATES_INTERVAL := 1000 |}.

(** A call of [bulkWriteUpdates] leaves the suspended calls as they are, or
    adds one under the next handle. *)
Definition flushes_extended (st st' : state) : Prop :=
  (flushes st' = flushes st /\ next_flush st' = next_flush st)
  \/ exists f, flushes st' = flushes st ++ [(next_flush st, f)]
               /\ next_flush st' = S (next_flush st).

(** The updates the process has taken charge of and not dropped: those of
    the bulk writes issued and those still in the queue. *)
Definition accounted (st : state) : nat :=
  (length (concat (sink st)) + length (updates st))%nat.

(** After [cancel]: the stream is closed, no timer is pending and no call of
    [bulkWriteUpdates] is suspended. *)
Definition stopped (st : state) : Prop :=
  cs_closed st = true /\ timers st = [] /\ flushes st = [].

(** ** The object built by [convertCustomerUpdateToDotNotation] *)

(** The fields of the address group, each under the key "address.<field>". *)
Definition dot_group (h : heap) (group : value) (update : object) : object :=
  match group with
  | VObject g =>
      fold_left (fun update nestedKey =>
                   store_prop update ("address" +:+ "." +:+ nestedKey)
                              (lookup_prop (object_at h g) nestedKey))
                (keys (object_at h g)) update
  | _ => update
  end.

Definition dot_step (h : heap) (customer update : object) (key : string) : object :=
  if String.eqb key "address"
  then dot_group h (lookup_prop customer "address") update
  else store_prop update key (lookup_prop customer key).

Definition dot_notation (h : heap) (customer : object) : object :=
  fold_left (dot_step h customer) (keys customer) [].

(** The address of the object can be enumerated: it is an allocated object,
    or a value without enumerable keys. *)
Definition dot_convertible (h : heap) (customer : object) : bool :=
  match lookup_prop customer "address" with
  | VObject g => bool_decide (g < length h)%nat
  | VString s => String.eqb s ""
  | _ => true
  end.

(** A delta without the bare key address, without dotted address keys and
    without the key __proto__, its names holding strings. *)
Definition names_only_delta (h : heap) (updatedFields : loc) : bool :=
  bool_decide (updatedFields < length h)%nat
  && forallb (fun k => other_key k && proto_free k)
             (keys (object_at h updatedFields))
  && typed_names (object_at h updatedFields).

(** ** Records as documents *)

(** The fields of an object document, deserialised one after the other (the
    local function of [alloc_doc]). *)
Fixpoint alloc_fields (fs : list (string * doc)) (h : heap) : object * heap :=
  match fs with
  | [] => ([], h)
  | (k, d) :: fs' =>
      let '(v, h1) := alloc_doc d h in
      let '(o, h2) := alloc_fields fs' h1 in
      ((k, v) :: o, h2)
  end.

Fixpoint lookup_field (fs : list (string * doc)) (k : string) : doc :=
  match fs with
  | [] => DUndefined
  | (k', d) :: fs' => if String.eqb k' k then d else lookup_field fs' k
  end.

Definition textual_doc (d : doc) : bool :=
  match d with
  | DUndefined | DString _ => true
  | _ => false
  end.

(** A [Customer] record as the collection stores it: the names are absent or
    strings, the address is absent or an object whose line1, line2 and
    postcode are absent or strings.  Other fields are free. *)
Definition typed_record (d : doc) : bool :=
  match d with
  | DObject fs =>
      textual_doc (lookup_field fs "firstName")
      && textual_doc (lookup_field fs "lastName")
      && textual_doc (lookup_field fs "email")
      && match lookup_field fs "address" with
         | DUndefined => true
         | DObject g =>
             textual_doc (lookup_field g "line1")
             && textual_doc (lookup_field g "line2")
             && textual_doc (lookup_field g "postcode")
         | _ => false
         end
  | _ => false
  end.

(** ** [fullReindexMode] *)

Definition REINDEX_BULK_WRITE_SIZE : nat := 100.

Module Reindex.

(** The local variables of [fullReindexMode], with what it has sent to the
    collection and to the log. *)
Record job := {
  job_heap : heap;
  updates : list (value * value);   (* of each operation: _id and update *)
  total : nat;
  sink : list (list operation);     (* the bulk writes issued, latest last *)
  console : list nat;               (* log(`Updated ${total} documents`) *)
}.

Definition with_heap (h : heap) (j : job) : job :=
  {| job_heap := h; updates := updates j; total := total j;
     sink := sink j; console := console j |}.

Definition with_updates (us : list (value * value)) (j : job) : job :=
  {| job_heap := job_heap j; updates := us; total := total j;
     sink := sink j; console := console j |}.

Definition with_total (n : nat) (j : job) : job :=
  {| job_heap := job_heap j; updates := updates j; total := n;
     sink := sink j; console := console j |}.

Definition with_sink (ops : list (list operation)) (j : job) : job :=
  {| job_heap := job_heap j; updates := updates j; total := total j;
     sink := ops; console := console j |}.

Definition log (j : job) : job :=
  {| job_heap := job_heap j; updates := updates j; total := total j;
     sink := sink j; console := console j ++ [total j] |}.

(** Why the promise of [fullReindexMode] rejects. *)
Inductive cause :=
| BulkWriteRejected   (* an awaited [bulkWrite] rejected *)
| Exception.          (* [anonymizeCustomer] threw *)

Inductive result :=
| Resolved (j : job)
| Rejected (c : cause) (j : job)
| NotModelled.

(** [{ updateOne: { filter: { _id }, update: { $set: update }, upsert: true } }],
    as serialised when [bulkWrite] is called. *)
Definition updateOne (h : heap) (u : value * value) : operation :=
  {| filter_id := doc_of h u.1; set_fields := doc_of h u.2; upsert := true |}.

(** [await anonymizedCollection.bulkWrite(operations)]: the write is issued;
    [accepts] tells, by the number of writes issued before it, whether the
    promise resolves. *)
Definition bulkWrite (accepts : nat -> bool) (operations : list (value * value))
    (j : job) : job * bool :=
  (with_sink (sink j ++ [map (updateOne (job_heap j)) operations]) j,
   accepts (length (sink j))).

(** The body of the loop up to [updates.push]. *)
Definition document (customer : doc) : M (value * value) :=
  let* customer := deserialise customer in
  let* _id := get_prop customer "_id" in
  let* anonym := anonymizeCustomer customer in
  let* update := convertCustomerUpdateToDotNotation anonym in
  ret (_id, update).

Definition push (u : value * value) (j : job) : job :=
  with_updates (updates j ++ [u]) j.

(** The block of [if (updates.length >= REINDEX_BULK_WRITE_SIZE)]. *)
Definition batch (accepts : nat -> bool) (j : job) : result :=
  let operations := updates j in
  let j := with_updates [] j in
  let '(j, ok) := bulkWrite accepts operations j in
  if ok then Resolved (log (with_total (total j + length operations) j))
  else Rejected BulkWriteRejected j.

(** The block of [if (updates.length > 0)] after the loop. *)
Definition rest (accepts : nat -> bool) (j : job) : result :=
  let '(j, ok) := bulkWrite accepts (updates j) j in
  if ok then Resolved (log (with_total (total j + length (updates j)) j))
  else Rejected BulkWriteRejected j.

(** [for await (const customer of cursor)]. *)
Fixpoint loop (size : nat) (accepts : nat -> bool) (cursor : list doc) (j : job)
  : result :=
  match cursor with
  | [] => Resolved j
  | customer :: cursor' =>
      match document customer (job_heap j) with
      | Ok (u, h) =>
          let j := push u (with_heap h j) in
          if (size <=? length (updates j))%nat then
            match batch accepts j with
            | Resolved j => loop size accepts cursor' j
            | r => r
            end
          else loop size accepts cursor' j
      | Throw => Rejected Exception j
      | Unmodelled => NotModelled
      end
  end.

(** [fullReindexMode] with [REINDEX_BULK_WRITE_SIZE = size], on the
    documents that the cursor yields.  A failure of the cursor itself and
    the final [cursor.close()] are outside the model. *)
Definition fullReindexMode (size : nat) (accepts : nat -> bool) (cursor : list doc)
  : result :=
  match loop size accepts cursor
             {| job_heap := []; updates := []; total := 0; sink := []; console := [] |}
  with
  | Resolved j =>
      if (0 <? length (updates j))%nat then rest accepts j else Resolved j
  | r => r
  end.

End Reindex.

(** The sizes of the bulk writes for [n] documents: full batches, then the
    remainder when there is one. *)
Definition batch_sizes (size n : nat) : list nat :=
  (replicate (n / size) size
   ++ (if n mod size =? 0 then [] else [n mod size]))%nat.

(** The totals logged after writes of the given sizes. *)
Fixpoint running_totals (start : nat) (sizes : list nat) : list nat :=
  match sizes with
  | [] => []
  | s :: sizes' => (start + s)%nat :: running_totals (start + s) sizes'
  end.

(** A document for which the body of the loop of [fullReindexMode] neither
    throws nor leaves the model, whatever the heap. *)
Definition converts (d : doc) : Prop :=
  forall h, exists u h', Reindex.document d h = Ok (u, h').

(** The value of a document that is not an object. *)
Definition scalar_doc (d : doc) : bool :=
  match d with
  | DObject _ => false
  | _ => true
  end.

Definition value_of_scalar (d : doc) : value :=
  match d with
  | DUndefined | DObject _ => VUndefined
  | DNull => VNull
  | DBoolean b => VBoolean b
  | DNumber n => VNumber n
  | DString s => VString s
  end.

(** A record whose firstName is a truthy value other than a string and other
    than an object (a number, [true]). *)
Definition firstName_not_string (d : doc) : bool :=
  match d with
  | DObject fs =>
      scalar_doc (lookup_field fs "firstName")
      && truthy_doc (lookup_field fs "firstName")
      && negb (textual_doc (lookup_field fs "firstName"))
  | _ => false
  end.

(** ** Deltas in dot notation *)

(** [s] without the prefix [p], when it starts with it. *)
Fixpoint strip_prefix (p s : string) {struct p} : option string :=
  match p, s with
  | EmptyString, _ => Some s
  | String _ _, EmptyString => None
  | String b p', String a s' => if Ascii.eqb a b then strip_prefix p' s' else None
  end.

(** A key "address.f" for a field name f without '.'. *)
Definition address_path (key : string) : bool :=
  match strip_prefix "address." key with
  | Some f => negb (contains "." f)
  | None => false
  end.

(** A delta without the bare key address: each key is a field of the
    customer or a key "address.f", and none assigns __proto__; the names and
    the three address lines hold strings. *)
Definition dotted_delta (h : heap) (updatedFields : loc) : bool :=
  bool_decide (updatedFields < length h)%nat
  && forallb (fun k => (other_key k || address_path k) && proto_free k)
             (keys (object_at h updatedFields))
  && typed_names (object_at h updatedFields)
  && forallb (fun k => textual (lookup_prop (object_at h updatedFields) k))
             ["address.line1"; "address.line2"; "address.postcode"]%string.

(** What one turn of the first loop of [createUpdate] does to the customer,
    for a key other than the bare key address; [g] is where the address
    object is allocated. *)
Definition stage1_customer_step (g : loc) (delta customer : object) (key : string)
  : object :=
  if dotted_key key then
    if truthy (lookup_prop customer "address") then customer
    else store_prop customer "address" (VObject g)
  else store_prop customer key (lookup_prop delta key).

(** The same on the document of an update event: [updatedFields] in dot
    notation, whose names and address lines are absent or strings. *)
Definition dotted_delta_doc (fs : list (string * doc)) : bool :=
  forallb (fun k => (other_key k || address_path k) && proto_free k) (map fst fs)
  && forallb (fun k => textual_doc (lookup_field fs k))
             ["firstName"; "lastName"; "email";
              "address.line1"; "address.line2"; "address.postcode"]%string.

(** ** Reading values back *)

(** A value is a scalar or a reference into the part [a, b) of the heap. *)
Definition in_range (a b : nat) (v : value) : Prop :=
  match v with
  | VObject r => (a <= r < b)%nat
  | _ => True
  end.

(** The objects of the part [a, b) refer only to objects of that part that
    were allocated before them, as those of a deserialised document do. *)
Definition wf_range (a b : nat) (h : heap) : Prop :=
  forall l, (a <= l < b)%nat ->
            Forall (fun kv : string * value => in_range a l kv.2) (object_at h l).

(** The fuel [f] is enough to read [v]. *)
Definition enough (f : nat) (v : value) : Prop :=
  match v with
  | VObject r => (r < f)%nat
  | _ => True
  end.

(** [v] stands for the document [d] in [h] and in every heap that keeps the
    objects of [h]: whenever [v] is serialised later, alone or inside another
    object, it is written as [d]. *)
Definition reads_as (h : heap) (v : value) (d : doc) : Prop :=
  forall f H, (length h <= f)%nat ->
              (forall l, (l < length h)%nat -> object_at H l = object_at h l) ->
              read_doc f H v = Some d.

(** What deserialising a document gives: a value in the new part of the
    heap, which is well formed, and which reads back as the document. *)
Definition alloc_reads (d : doc) : Prop :=
  forall h,
    in_range (length h) (length (alloc_doc d h).2) (alloc_doc d h).1
    /\ wf_range (length h) (length (alloc_doc d h).2) (alloc_doc d h).2
    /\ read_doc (S (length (alloc_doc d h).2)) (alloc_doc d h).2 (alloc_doc d h).1
       = Some d.

(** The _id of a record. *)
Definition record_id (d : doc) : doc :=
  match d with
  | DObject fs => lookup_field fs "_id"
  | _ => DUndefined
  end.

(** The document of a value that is not an object. *)
Definition doc_of_scalar (v : value) : doc :=
  match v with
  | VUndefined | VObject _ => DUndefined
  | VNull => DNull
  | VBoolean b => DBoolean b
  | VNumber n => DNumber n
  | VString s => DString s
  end.

(** The operation of a record: what the body of the loop of
    [fullReindexMode] builds from the record alone, as [bulkWrite] would
    serialise it. *)
Definition operation_of_record (d : doc) : option operation :=
  match Reindex.document d [] with
  | Ok (u, h) => Some (Reindex.updateOne h u)
  | _ => None
  end.

(** What the loop of [fullReindexMode] has done with the records read so
    far: the operations issued are, in order, those of the records
    [written], and the operations queued will be serialised as those of the
    records [queued]. *)
Definition tracks (j : Reindex.job) (written queued : list doc) : Prop :=
  map Some (concat (Reindex.sink j)) = map operation_of_record written
  /\ Forall2 (fun (u : value * value) d =>
                forall H,
                  (length (Reindex.job_heap j) <= length H)%nat ->
                  (forall l, (l < length (Reindex.job_heap j))%nat ->
                             object_at H l = object_at (Reindex.job_heap j) l) ->
                  Some (Reindex.updateOne H u) = operation_of_record d)
             (Reindex.updates j) queued.


(** * Properties *)

(** ** MD5 and the token *)

Example md5_empty : md5_hex "" = "d41d8cd98f00b204e9800998ecf8427e".
Proof. vm_compute. reflexivity. Qed.

Example md5_abc : md5_hex "abc" = "900150983cd24fb0d6963f7d28e17f72".
Proof. vm_compute. reflexivity. Qed.

Example md5_long :
  md5_hex "12345678901234567890123456789012345678901234567890123456789012345678901234567890"
  = "57edf4a22be3c955ac49da2e2107b67a".
Proof. vm_compute. reflexivity. Qed.

Example hash_Jane : hash "Jane" = "VFUiDi7U".
Proof. vm_compute. reflexivity. Qed.

Example spec_token_Jane : spec_token "Jane" = "VFUiDi7U".
Proof. vm_compute. reflexivity. Qed.

Lemma hex_value_digit (d : Z) : 0 <= d < 16 -> hex_value (hex_digit d) = d.
Proof.
  intros Hd. rewrite <- (Z2Nat.id d) by lia.
  assert (Hn : (Z.to_nat d < 16)%nat) by lia.
  generalize dependent (Z.to_nat d). intros n Hn.
  do 16 (destruct n as [|n]; [reflexivity|]). lia.
Qed.

Lemma BigInt_of_hex_fold (bs : list Z) (acc : Z) :
  Forall (fun b => 0 <= b < 256) bs ->
  fold_left (fun acc c => 16 * acc + hex_value c)
    (flat_map (fun b => [hex_digit (b / 16); hex_digit (b mod 16)]) bs) acc
  = fold_left (fun acc b => 256 * acc + b) bs acc.
Proof.
  intros Hbs. revert acc. induction Hbs as [|b bs Hb _ IH]; intros acc; [reflexivity|].
  cbn [flat_map fold_left app]. rewrite IH. f_equal.
  rewrite !hex_value_digit.
  - pose proof (Z.div_mod b 16). lia.
  - apply Z.mod_pos_bound. lia.
  - split; [apply Z.div_pos; lia | apply Z.div_lt_upper_bound; lia].
Qed.

Lemma BigInt_of_hex_bytes (bs : list Z) :
  Forall (fun b => 0 <= b < 256) bs ->
  BigInt_of_hex (hex_of_bytes bs) = fold_left (fun acc b => 256 * acc + b) bs 0.
Proof.
  intros Hbs. unfold BigInt_of_hex, hex_of_bytes.
  rewrite String.list_ascii_of_string_of_list_ascii.
  by apply BigInt_of_hex_fold.
Qed.

Lemma land_255_range (x : Z) : 0 <= Z.land x 255 < 256.
Proof.
  change 255 with (Z.ones 8). rewrite Z.land_ones by lia.
  apply Z.mod_pos_bound. reflexivity.
Qed.

Lemma bytes_of_word_range (w : Z) :
  Forall (fun b => 0 <= b < 256) (MD5.bytes_of_word w).
Proof. unfold MD5.bytes_of_word. repeat constructor; apply land_255_range. Qed.

Lemma digest_range (msg : list Z) :
  Forall (fun b => 0 <= b < 256) (MD5.digest msg).
Proof.
  unfold MD5.digest.
  destruct (fold_left MD5.process_block _ MD5.initial) as [[[a b] c] d].
  rewrite !Forall_app. repeat split; apply bytes_of_word_range.
Qed.

Lemma BigInt_of_md5 (s : string) : BigInt_of_hex (md5_hex s) = spec_value s.
Proof. apply BigInt_of_hex_bytes, digest_range. Qed.

Lemma spec_digits_nonpos (v : Z) : v <= 0 -> spec_digits v = [].
Proof.
  intros Hv. rewrite spec_digits_equation_1.
  destruct (Z_lt_dec 0 v); [lia | reflexivity].
Qed.

Lemma spec_digits_pos (v : Z) :
  0 < v -> spec_digits v = v mod 62 :: spec_digits (v / 62).
Proof.
  intros Hv. rewrite spec_digits_equation_1.
  destruct (Z_lt_dec 0 v); [reflexivity | lia].
Qed.

Lemma spec_digits_range (v : Z) : Forall (fun d => 0 <= d < 62) (spec_digits v).
Proof.
  funelim (spec_digits v); [|constructor].
  constructor; [apply Z.mod_pos_bound; lia | assumption].
Qed.

(** The loop stops by itself within [fuel] turns as soon as its argument has
    at most [fuel] binary digits. *)
Lemma hash_loop_digits (fuel : nat) (v : Z) (acc : list string) :
  v < 2 ^ Z.of_nat fuel ->
  hash_loop fuel 62 v acc = acc ++ map (char_at alphabet) (spec_digits v).
Proof.
  revert v acc. induction fuel as [|fuel IH]; intros v acc Hv.
  - rewrite spec_digits_nonpos by (cbn in Hv; lia). cbn. by rewrite app_nil_r.
  - cbn [hash_loop]. destruct (Z.ltb_spec 0 v) as [Hpos|Hneg].
    + rewrite spec_digits_pos by done.
      rewrite Z.rem_mod_nonneg, Z.quot_div_nonneg by lia.
      rewrite IH; [by rewrite <- app_assoc|].
      rewrite Nat2Z.inj_succ, Z.pow_succ_r in Hv by lia.
      apply Z.div_lt_upper_bound; lia.
    + rewrite spec_digits_nonpos by lia. cbn. by rewrite app_nil_r.
Qed.

Lemma hash_fuel_enough (v : Z) : v < 2 ^ Z.of_nat (hash_fuel v).
Proof.
  unfold hash_fuel. destruct (Z.ltb_spec 0 v) as [Hpos|Hneg].
  - rewrite Nat2Z.inj_succ, Z2Nat.id by apply Z.log2_nonneg.
    by apply Z.log2_spec.
  - apply (Z.le_lt_trans _ 0); [done|]. apply Z.pow_pos_nonneg; lia.
Qed.

Lemma alphabet_get (n : nat) :
  (n < 62)%nat -> String.get n alphabet = Some (nth n spec_alphabet "a"%char).
Proof. intros Hn. do 62 (destruct n as [|n]; [reflexivity|]). lia. Qed.

Lemma char_at_alphabet (d : Z) :
  0 <= d < 62 ->
  char_at alphabet d = String (nth (Z.to_nat d) spec_alphabet "a"%char) EmptyString.
Proof. intros Hd. unfold char_at. rewrite alphabet_get by lia. reflexivity. Qed.

Lemma concat_singletons (cs : list ascii) :
  String.concat "" (map (fun c => String c EmptyString) cs)
  = String.string_of_list_ascii cs.
Proof.
  induction cs as [|c cs IH]; [reflexivity|].
  cbn [map String.concat]. destruct cs as [|c' cs]; [reflexivity|].
  cbn [map] in *. rewrite IH. reflexivity.
Qed.

Lemma substring_take (n : nat) (cs : list ascii) :
  String.substring 0 n (String.string_of_list_ascii cs)
  = String.string_of_list_ascii (take n cs).
Proof.
  revert cs. induction n as [|n IH]; intros [|c cs]; cbn; try reflexivity.
  by rewrite IH.
Qed.

Lemma length_string_of_list_ascii (cs : list ascii) :
  String.length (String.string_of_list_ascii cs) = length cs.
Proof. induction cs as [|c cs IH]; cbn; [reflexivity | by rewrite IH]. Qed.

Lemma hash_unfold (s : string) :
  hash s
  = String.string_of_list_ascii
      (take 8 (map (fun i => nth (Z.to_nat i) spec_alphabet "a"%char)
                   (spec_digits (spec_value s)))).
Proof.
  unfold hash. rewrite BigInt_of_md5.
  change (Z.of_nat (String.length alphabet)) with 62.
  rewrite hash_loop_digits by apply hash_fuel_enough.
  rewrite app_nil_l, <- substring_take, <- concat_singletons, map_map.
  do 2 f_equal. symmetry. apply map_ext_Forall.
  eapply Forall_impl; [apply spec_digits_range|].
  intros d Hd. symmetry. by apply char_at_alphabet.
Qed.

Lemma spec_alphabet_alphanumeric (c : ascii) :
  In c spec_alphabet -> alphanumeric c = true.
Proof.
  assert (H : forallb alphanumeric spec_alphabet = true) by reflexivity.
  rewrite forallb_forall in H. apply H.
Qed.

(** C1.  The token of [s] is the one the specification describes: the MD5
    digest of the bytes of [s], read as an unsigned integer, written in base
    62 over [a-z][A-Z][0-9] with the least significant digit first, cut to
    its first 8 characters.  Hence the token is a function of [s], each of
    its characters is alphanumeric, and its length is 8 unless the digits run
    out before. *)
Theorem hash_is_spec_token (s : string) :
  hash s = spec_token s
  /\ (forall s', s' = s -> hash s' = hash s)
  /\ (forall c, In c (String.list_ascii_of_string (hash s)) -> alphanumeric c = true)
  /\ String.length (hash s)
     = Nat.min 8 (length (spec_digits (spec_value s))).
Proof.
  split; [apply hash_unfold|]. split; [by intros s' ->|].
  rewrite hash_unfold. split.
  - intros c. rewrite String.list_ascii_of_string_of_list_ascii.
    intros Hc. apply list_elem_of_In, elem_of_take in Hc as (i & Hi & _).
    apply list_lookup_fmap_Some in Hi as (d & -> & Hd).
    apply spec_alphabet_alphanumeric, nth_In.
    pose proof (spec_digits_range (spec_value s)) as Hr.
    rewrite Forall_lookup in Hr. specialize (Hr _ _ Hd). cbn. lia.
  - rewrite length_string_of_list_ascii, length_take, length_map. lia.
Qed.

(** ** The heap *)

Lemma bind_ok {A B} (m : M A) (k : A -> M B) (h h' : heap) (a : A) :
  m h = Ok (a, h') -> bind m k h = k a h'.
Proof. intros Hm. unfold bind. by rewrite Hm. Qed.

Lemma object_at_lookup (h : heap) (l : loc) :
  (l < length h)%nat -> h !! l = Some (object_at h l).
Proof.
  intros Hl. unfold object_at. revert l Hl.
  induction h as [|o h IH]; intros [|l] Hl; cbn in *; try lia; [done|].
  apply IH. lia.
Qed.

Lemma object_at_app_l (h : heap) (o : object) (l : loc) :
  (l < length h)%nat -> object_at (h ++ [o]) l = object_at h l.
Proof. intros Hl. unfold object_at. by rewrite app_nth1. Qed.

Lemma object_at_app_r (h : heap) (o : object) :
  object_at (h ++ [o]) (length h) = o.
Proof. unfold object_at. by rewrite app_nth2, Nat.sub_diag by lia. Qed.

Lemma object_at_insert (h : heap) (l l' : loc) (o : object) :
  (l < length h)%nat ->
  object_at (<[l := o]> h) l' = if decide (l = l') then o else object_at h l'.
Proof.
  intros Hl. unfold object_at. revert l l' Hl.
  induction h as [|o' h IH]; intros [|l] [|l'] Hl; cbn in *; try lia; try done.
  rewrite IH by lia. repeat case_decide; done || lia.
Qed.

Lemma insert_fresh (h : heap) (o o' : object) :
  <[length h := o']> (h ++ [o]) = h ++ [o'].
Proof.
  rewrite insert_app_r_alt by lia. by rewrite Nat.sub_diag.
Qed.

Lemma insert_object_at (h : heap) (l : loc) :
  (l < length h)%nat -> <[l := object_at h l]> h = h.
Proof. intros Hl. by apply list_insert_id, object_at_lookup. Qed.

Lemma lookup_store_eq (o : object) (k : string) (v : value) :
  lookup_prop (store_prop o k v) k = v.
Proof.
  induction o as [|[k' v'] o IH]; cbn.
  - by rewrite String.eqb_refl.
  - destruct (String.eqb_spec k' k) as [->|Hne]; cbn.
    + by rewrite String.eqb_refl.
    + by destruct (String.eqb_spec k' k).
Qed.

Lemma lookup_store_ne (o : object) (k k' : string) (v : value) :
  k <> k' -> lookup_prop (store_prop o k v) k' = lookup_prop o k'.
Proof.
  intros Hne. induction o as [|[k0 v0] o IH]; cbn.
  - by destruct (String.eqb_spec k k').
  - destruct (String.eqb_spec k0 k) as [->|Hk0]; cbn.
    + by destruct (String.eqb_spec k k').
    + by rewrite IH.
Qed.

Lemma keys_store (o : object) (k : string) (v : value) (k' : string) :
  k' ∈ map fst (store_prop o k v) <-> k' = k \/ k' ∈ map fst o.
Proof.
  induction o as [|[k0 v0] o IH]; cbn.
  - rewrite list_elem_of_singleton, elem_of_nil. tauto.
  - destruct (String.eqb_spec k0 k) as [->|Hk0]; cbn.
    + rewrite !elem_of_cons. tauto.
    + rewrite !elem_of_cons, IH. tauto.
Qed.

Lemma get_prop_object (h : heap) (l : loc) (k : string) :
  get_prop (VObject l) k h = Ok (lookup_prop (object_at h l) k, h).
Proof. reflexivity. Qed.

Lemma set_prop_fresh (h : heap) (o : object) (k : string) (v : value) :
  set_prop (VObject (length h)) k v (h ++ [o]) = Ok (tt, h ++ [store_prop o k v]).
Proof. unfold set_prop. by rewrite object_at_app_r, insert_fresh. Qed.

Lemma set_prop_old (h : heap) (o : object) (l : loc) (k : string) (v : value) :
  (l < length h)%nat ->
  set_prop (VObject l) k v (h ++ [o])
  = Ok (tt, <[l := store_prop (object_at h l) k v]> h ++ [o]).
Proof.
  intros Hl. unfold set_prop. by rewrite object_at_app_l, insert_app_l by done.
Qed.

Lemma textual_cases (v : value) :
  textual v = true -> v = VUndefined \/ exists s, v = VString s.
Proof. destruct v; cbn; try done; eauto. Qed.

Lemma split_cons (sep : ascii) (s : string) :
  exists p ps, split sep s = p :: ps.
Proof.
  induction s as [|c s (p & ps & IH)]; cbn; [eauto|].
  destruct (Ascii.eqb c sep); [eauto|]. rewrite IH. eauto.
Qed.

(** ** [anonymizeCustomer] on a typed record *)

(** A string field: [if (customer.k) anonymous.k = hash(customer.k)]. *)
Lemma anonymize_name (h : heap) (anon : object) (k : string) (v : value) :
  textual v = true ->
  when (truthy v)
    (let* t := hash_value v in set_prop (VObject (length h)) k (VString t))
    (h ++ [anon])
  = Ok (tt, h ++ [put_if_truthy k v (token_value v) anon]).
Proof.
  intros [->|[s ->]]%textual_cases; [reflexivity|].
  unfold put_if_truthy. destruct (truthy (VString s)); [|reflexivity].
  cbn [when hash_value token_value]. unfold bind, ret. apply set_prop_fresh.
Qed.

Lemma anonymize_email (h : heap) (anon : object) (v : value) :
  textual v = true ->
  when (truthy v)
    (let* parts := split_value v "@" in
     let emailPart1 := value_of_part (parts !! 0%nat) in
     let emailPart2 := parts !! 1%nat in
     let* t := hash_value emailPart1 in
     set_prop (VObject (length h)) "email"
       (VString (t +:+ "@" +:+ string_of_part emailPart2)))
    (h ++ [anon])
  = Ok (tt, h ++ [put_if_truthy "email" v (email_value v) anon]).
Proof.
  intros [->|[s ->]]%textual_cases; [reflexivity|].
  unfold put_if_truthy. destruct (truthy (VString s)); [|reflexivity].
  cbn [when split_value email_value]. unfold bind, ret, anonymized_email.
  destruct (split_cons "@" s) as (p & ps & ->). cbn. apply set_prop_fresh.
Qed.

(** One turn of the loop over line1, line2, postcode: the token is written
    into the address object that the record and [anonymous] share. *)
Lemma anonymize_line (h : heap) (anon : object) (c a : loc) (key : string) :
  (c < length h)%nat -> (a < length h)%nat ->
  lookup_prop (object_at h c) "address" = VObject a ->
  lookup_prop anon "address" = VObject a ->
  textual (lookup_prop (object_at h a) key) = true ->
  (let* group := get_prop (VObject c) "address" in
   let* x := get_prop group key in
   when (truthy x)
     (let* target := get_prop (VObject (length h)) "address" in
      let* group' := get_prop (VObject c) "address" in
      let* x' := get_prop group' key in
      let* t := hash_value x' in
      set_prop target key (VString t)))
    (h ++ [anon])
  = Ok (tt, <[a := anonymized_line key (object_at h a)]> h ++ [anon]).
Proof.
  intros Hc Ha Hgroup Hanon Htext.
  unfold bind at 1. rewrite get_prop_object, object_at_app_l, Hgroup by done.
  unfold bind at 1. rewrite get_prop_object, object_at_app_l by done.
  unfold anonymized_line, put_if_truthy.
  destruct (textual_cases _ Htext) as [Hx|[s Hx]]; rewrite Hx.
  { cbn. by rewrite insert_object_at. }
  destruct (truthy (VString s)); cbn [when].
  - unfold bind at 1. rewrite get_prop_object, object_at_app_r, Hanon.
    unfold bind at 1. rewrite get_prop_object, object_at_app_l, Hgroup by done.
    unfold bind at 1. rewrite get_prop_object, object_at_app_l, Hx by done.
    unfold bind at 1. cbn [hash_value ret token_value].
    by apply set_prop_old.
  - unfold ret. by rewrite insert_object_at.
Qed.

Lemma textual_anonymized_line (o : object) (key key' : string) :
  textual (lookup_prop o key') = true ->
  textual (lookup_prop (anonymized_line key o) key') = true.
Proof.
  intros Htext. unfold anonymized_line, put_if_truthy.
  destruct (truthy (lookup_prop o key)); [|done].
  destruct (decide (key = key')) as [->|Hne].
  - rewrite lookup_store_eq. by destruct (lookup_prop o key').
  - by rewrite lookup_store_ne.
Qed.

Lemma lookup_anonymized_line (o : object) (key key' : string) :
  key <> key' ->
  lookup_prop (anonymized_line key o) key' = lookup_prop o key'.
Proof.
  intros Hne. unfold anonymized_line, put_if_truthy.
  destruct (truthy (lookup_prop o key)); [|done]. by rewrite lookup_store_ne.
Qed.

(** The record keeps its address after a line of the address was written,
    also when the record is its own address. *)
Lemma address_after_line (h : heap) (c a : loc) (key : string) (o : object) :
  (a < length h)%nat -> key <> "address"%string ->
  lookup_prop (object_at h c) "address" = VObject a ->
  o = object_at h a ->
  lookup_prop (object_at (<[a := anonymized_line key o]> h) c) "address"
  = VObject a.
Proof.
  intros Ha Hkey Hgroup ->. rewrite object_at_insert by done.
  case_decide as Hac; [|done]. subst c. by rewrite lookup_anonymized_line.
Qed.

Lemma anonymize_address (h : heap) (anon : object) (c : loc) (v : value) :
  (c < length h)%nat ->
  lookup_prop (object_at h c) "address" = v ->
  typed_address h v = true ->
  when (truthy v)
    (set_prop (VObject (length h)) "address" v;;
     for_each ["line1"; "line2"; "postcode"]%string (fun key =>
       let* group := get_prop (VObject c) "address" in
       let* x := get_prop group key in
       when (truthy x)
         (let* target := get_prop (VObject (length h)) "address" in
          let* group' := get_prop (VObject c) "address" in
          let* x' := get_prop group' key in
          let* t := hash_value x' in
          set_prop target key (VString t))))
    (h ++ [anon])
  = Ok (tt, match v with
            | VObject a => <[a := anonymized_address (object_at h a)]> h
            | _ => h
            end ++ [put_if_truthy "address" v v anon]).
Proof.
  intros Hc Hgroup Htyped. destruct v as [| | | | |a]; try done.
  cbn in Htyped. rewrite !andb_true_iff, bool_decide_eq_true in Htyped.
  destruct Htyped as (((Ha & H1) & H2) & H3).
  cbn [truthy when put_if_truthy].
  unfold bind at 1. rewrite set_prop_fresh.
  set (anon' := store_prop anon "address" (VObject a)).
  assert (Hanon : lookup_prop anon' "address" = VObject a)
    by apply lookup_store_eq.
  set (o1 := anonymized_line "line1" (object_at h a)).
  set (o2 := anonymized_line "line2" o1).
  cbn [for_each].
  unfold bind at 1. rewrite (anonymize_line h anon' c a) by done. fold o1.
  assert (Hlen1 : length (<[a := o1]> h) = length h) by apply length_insert.
  assert (Hat1 : object_at (<[a := o1]> h) a = o1)
    by (rewrite object_at_insert by done; by case_decide).
  unfold bind at 1. rewrite <- Hlen1.
  rewrite (anonymize_line (<[a := o1]> h) anon' c a); try (rewrite ?Hlen1; done).
  2: { by apply address_after_line. }
  2: { rewrite Hat1. by apply textual_anonymized_line. }
  rewrite Hat1, list_insert_insert_eq. fold o2.
  assert (Hlen2 : length (<[a := o2]> h) = length h) by apply length_insert.
  assert (Hat2 : object_at (<[a := o2]> h) a = o2)
    by (rewrite object_at_insert by done; by case_decide).
  unfold bind at 1. rewrite Hlen1, <- Hlen2.
  rewrite (anonymize_line (<[a := o2]> h) anon' c a); try (rewrite ?Hlen2; done).
  2: { rewrite object_at_insert by done. case_decide as Hac; [|done]. subst c.
       unfold o2, o1. by rewrite !lookup_anonymized_line. }
  2: { rewrite Hat2. by do 2 apply textual_anonymized_line. }
  by rewrite Hat2, list_insert_insert_eq.
Qed.

(** The effect of [anonymizeCustomer] on a typed record: the result is a new
    object, and the heap is [anonymized_heap]. *)
Lemma anonymizeCustomer_typed (h : heap) (c : loc) :
  typed_customer h c = true ->
  anonymizeCustomer (VObject c) h = Ok (VObject (length h), anonymized_heap h c).
Proof.
  unfold typed_customer. rewrite !andb_true_iff, bool_decide_eq_true.
  intros ((((Hc & Hfirst) & Hlast) & Hemail) & Haddress).
  unfold anonymizeCustomer, anonymized_heap, anonymous_of.
  unfold bind at 1. cbn [new_object].
  unfold bind at 1. rewrite get_prop_object, object_at_app_l by done.
  unfold bind at 1. rewrite anonymize_name by done.
  unfold bind at 1. rewrite get_prop_object, object_at_app_l by done.
  unfold bind at 1. rewrite anonymize_name by done.
  unfold bind at 1. rewrite get_prop_object, object_at_app_l by done.
  unfold bind at 1. rewrite anonymize_email by done.
  unfold bind at 1. rewrite get_prop_object, object_at_app_l by done.
  unfold bind at 1. rewrite (anonymize_address h _ c) by done.
  reflexivity.
Qed.

Lemma keys_put_if_truthy (k : string) (v x : value) (o : object) (k' : string) :
  k' ∈ keys (put_if_truthy k v x o) <-> (k' = k /\ truthy v = true) \/ k' ∈ keys o.
Proof.
  unfold put_if_truthy, keys. destruct (truthy v).
  - rewrite keys_store. tauto.
  - split; [tauto | intros [[_ ?]|?]; done].
Qed.

Lemma lookup_put_if_truthy (k : string) (v x : value) (o : object) (k' : string) :
  lookup_prop (put_if_truthy k v x o) k'
  = if truthy v && String.eqb k k' then x else lookup_prop o k'.
Proof.
  unfold put_if_truthy. destruct (truthy v); [|done]. cbn.
  destruct (String.eqb_spec k k') as [->|Hne].
  - apply lookup_store_eq.
  - by apply lookup_store_ne.
Qed.

Lemma anonymized_heap_length (h : heap) (c : loc) :
  exists h0, anonymized_heap h c = h0 ++ [anonymous_of (object_at h c)]
             /\ length h0 = length h.
Proof.
  unfold anonymized_heap.
  destruct (lookup_prop (object_at h c) "address"); eauto.
  eexists. split; [done|]. apply length_insert.
Qed.

Lemma anonymized_heap_result (h : heap) (c : loc) :
  object_at (anonymized_heap h c) (length h) = anonymous_of (object_at h c).
Proof.
  destruct (anonymized_heap_length h c) as (h0 & -> & <-).
  apply object_at_app_r.
Qed.

Lemma split_without (sep : ascii) (s : string) :
  contains sep s = false -> split sep s = [s].
Proof.
  induction s as [|a s IH]; cbn [split contains]; [done|].
  intros [Ha Hs]%orb_false_iff. rewrite Ha, IH by done. reflexivity.
Qed.

Lemma split_at_first (sep : ascii) (s r : string) :
  contains sep s = false ->
  split sep (s +:+ String sep r) = s :: split sep r.
Proof.
  induction s as [|a s IH].
  - intros _. change ("" +:+ String sep r) with (String sep r).
    cbn [split]. by rewrite Ascii.eqb_refl.
  - cbn [contains]. intros [Ha Hs]%orb_false_iff.
    change (String a s +:+ String sep r) with (String a (s +:+ String sep r)).
    cbn [split]. rewrite Ha, IH by done. reflexivity.
Qed.

Lemma contains_string_of_list (sep : ascii) (cs : list ascii) :
  contains sep (String.string_of_list_ascii cs) = false <-> sep ∉ cs.
Proof.
  induction cs as [|a cs IH]; cbn.
  - rewrite elem_of_nil. tauto.
  - rewrite orb_false_iff, IH, not_elem_of_cons.
    destruct (Ascii.eqb_spec a sep); split; intros []; split; congruence.
Qed.

Lemma hash_alphanumeric (s : string) (c : ascii) :
  c ∈ String.list_ascii_of_string (hash s) -> alphanumeric c = true.
Proof.
  rewrite hash_unfold, String.list_ascii_of_string_of_list_ascii.
  intros (i & Hi & _)%elem_of_take.
  apply list_lookup_fmap_Some in Hi as (d & -> & Hd).
  apply spec_alphabet_alphanumeric, nth_In.
  pose proof (spec_digits_range (spec_value s)) as Hr.
  rewrite Forall_lookup in Hr. specialize (Hr _ _ Hd). cbn. lia.
Qed.

Lemma hash_without_at (s : string) : contains "@" (hash s) = false.
Proof.
  rewrite <- (String.string_of_list_ascii_of_string (hash s)).
  apply contains_string_of_list. intros Hin.
  by apply hash_alphanumeric in Hin.
Qed.

(** C6, as the program has it.  On a typed partial record the anonymiser
    returns a new object in which each of firstName, lastName, email and
    address appears exactly when the record holds a truthy value for it (a
    non-empty string, an address object), and nothing else appears; names
    are replaced by their tokens, the email by its anonymised form, and the
    address is the address object of the record, its line1, line2 and
    postcode replaced by their tokens when non-empty. *)
Theorem anonymizeCustomer_partial (h : heap) (c : loc) :
  typed_customer h c = true ->
  exists h',
    anonymizeCustomer (VObject c) h = Ok (VObject (length h), h')
    /\ (forall k, k ∈ keys (object_at h' (length h))
                  <-> k ∈ anonymizable
                      /\ truthy (lookup_prop (object_at h c) k) = true)
    /\ (forall k, k ∈ ["firstName"; "lastName"]%string ->
                  truthy (lookup_prop (object_at h c) k) = true ->
                  lookup_prop (object_at h' (length h)) k
                  = token_value (lookup_prop (object_at h c) k))
    /\ (truthy (lookup_prop (object_at h c) "email") = true ->
        lookup_prop (object_at h' (length h)) "email"
        = email_value (lookup_prop (object_at h c) "email"))
    /\ (forall a, lookup_prop (object_at h c) "address" = VObject a ->
                  lookup_prop (object_at h' (length h)) "address" = VObject a
                  /\ object_at h' a = anonymized_address (object_at h a)).
Proof.
  intros Htyped. exists (anonymized_heap h c).
  split; [by apply anonymizeCustomer_typed|].
  rewrite anonymized_heap_result. unfold anonymous_of.
  split; [|split; [|split]].
  - intros k. rewrite !keys_put_if_truthy. unfold anonymizable, keys.
    cbn [map]. rewrite !elem_of_cons, elem_of_nil.
    split.
    + intros [[-> ?]|[[-> ?]|[[-> ?]|[[-> ?]|[]]]]]; tauto.
    + intros [[->|[->|[->|[->|[]]]]] ?]; tauto.
  - intros k [->|[->|[]%elem_of_nil]%elem_of_cons]%elem_of_cons Hk;
      rewrite !lookup_put_if_truthy, Hk; cbn;
      rewrite ?andb_false_r, ?Hk; reflexivity.
  - intros Hk. rewrite !lookup_put_if_truthy, Hk. cbn.
    by rewrite ?andb_false_r.
  - intros a Ha. rewrite !lookup_put_if_truthy, Ha. split; [reflexivity|].
    unfold anonymized_heap. rewrite Ha.
    unfold typed_customer in Htyped. rewrite Ha in Htyped. cbn in Htyped.
    rewrite !andb_true_iff, !bool_decide_eq_true in Htyped.
    assert (Hlt : (a < length h)%nat) by tauto.
    rewrite object_at_app_l by (by rewrite length_insert).
    rewrite object_at_insert by done. by case_decide.
Qed.

Lemma anonymizeCustomer_partial_witness :
  typed_customer [[("firstName", VString "Jane"); ("email", VString "")]]%string 0 = true
  /\ exists h',
    anonymizeCustomer (VObject 0) [[("firstName", VString "Jane"); ("email", VString "")]]%string
    = Ok (VObject 1, h')
    /\ object_at h' 1%nat = [("firstName", VString "VFUiDi7U")]%string.
Proof.
  split; [reflexivity|].
  destruct (anonymizeCustomer_partial
              [[("firstName", VString "Jane"); ("email", VString "")]]%string
              0%nat eq_refl) as (h' & Hrun & _).
  exists h'. split; [exact Hrun|].
  vm_compute in Hrun. injection Hrun as <-. reflexivity.
Defined.

(** C6 as the specification words it fails on a field that is present and
    empty: the record has a firstName, the result has none. *)
Lemma anonymizeCustomer_drops_empty_string :
  on_doc anonymizeCustomer (DObject [("firstName", DString "")]%string)
  = Ok (Some (DObject [])).
Proof. vm_compute. reflexivity. Qed.

(** C7.  For an email [local@domain] with a single '@', the anonymised
    email is the token of [local], then '@', then [domain]; what follows the
    '@' in it is [domain], character for character. *)
Theorem anonymizeCustomer_email_domain
    (h : heap) (c : loc) (local domain : string) :
  typed_customer h c = true ->
  lookup_prop (object_at h c) "email" = VString (local +:+ "@" +:+ domain) ->
  contains "@" local = false ->
  contains "@" domain = false ->
  exists h',
    anonymizeCustomer (VObject c) h = Ok (VObject (length h), h')
    /\ lookup_prop (object_at h' (length h)) "email"
       = VString (hash local +:+ "@" +:+ domain)
    /\ split "@" (hash local +:+ "@" +:+ domain) = [hash local; domain].
Proof.
  intros Htyped Hemail Hlocal Hdomain. exists (anonymized_heap h c).
  split; [by apply anonymizeCustomer_typed|].
  rewrite anonymized_heap_result. unfold anonymous_of.
  rewrite !lookup_put_if_truthy, Hemail. cbn [String.eqb Ascii.eqb Bool.eqb andb].
  assert (Htruthy : truthy (VString (local +:+ "@" +:+ domain)) = true)
    by (by destruct local).
  rewrite Htruthy. cbn [andb email_value]. unfold anonymized_email.
  change ("@" +:+ domain) with (String "@" domain).
  rewrite !split_at_first, !split_without by (done || apply hash_without_at).
  by rewrite andb_false_r.
Qed.

Lemma anonymizeCustomer_email_domain_witness :
  exists h',
    anonymizeCustomer (VObject 0) [[("email", VString "jane.doe@example.com")]]%string
    = Ok (VObject 1, h')
    /\ lookup_prop (object_at h' 1%nat) "email"
       = VString (hash "jane.doe" +:+ "@" +:+ "example.com")
    /\ split "@" (hash "jane.doe" +:+ "@" +:+ "example.com")
       = [hash "jane.doe"; "example.com"]%string.
Proof.
  exact (anonymizeCustomer_email_domain
           [[("email", VString "jane.doe@example.com")]]%string 0%nat
           "jane.doe" "example.com" eq_refl eq_refl eq_refl eq_refl).
Defined.

(** C10.  For a non-empty email without '@', the anonymised email is the
    token of the whole string followed by "@undefined". *)
Theorem anonymizeCustomer_email_without_at (h : heap) (c : loc) (email : string) :
  typed_customer h c = true ->
  lookup_prop (object_at h c) "email" = VString email ->
  email <> ""%string ->
  contains "@" email = false ->
  exists h',
    anonymizeCustomer (VObject c) h = Ok (VObject (length h), h')
    /\ lookup_prop (object_at h' (length h)) "email"
       = VString (hash email +:+ "@undefined").
Proof.
  intros Htyped Hemail Hne Hat. exists (anonymized_heap h c).
  split; [by apply anonymizeCustomer_typed|].
  rewrite anonymized_heap_result. unfold anonymous_of.
  rewrite !lookup_put_if_truthy, Hemail. cbn [String.eqb Ascii.eqb Bool.eqb andb].
  assert (Htruthy : truthy (VString email) = true) by (by destruct email).
  rewrite Htruthy. cbn [andb email_value]. unfold anonymized_email.
  by rewrite split_without, andb_false_r.
Qed.

Lemma anonymizeCustomer_email_without_at_witness :
  exists h',
    anonymizeCustomer (VObject 0) [[("email", VString "nobody")]]%string
    = Ok (VObject 1, h')
    /\ lookup_prop (object_at h' 1%nat) "email"
       = VString (hash "nobody" +:+ "@undefined").
Proof.
  refine (anonymizeCustomer_email_without_at
            [[("email", VString "nobody")]]%string 0%nat "nobody"
            eq_refl eq_refl _ eq_refl).
  discriminate.
Defined.

(** C5 fails on the program: the address of the result is the address
    object of the record, and the tokens are written through it.  After the
    call the record reads differently. *)
Theorem anonymizeCustomer_writes_into_record :
  let record :=
    DObject [("address", DObject [("line1", DString "x");
                                  ("city", DString "Paris")])]%string in
  let customer := (alloc_doc record []).1 in
  let h := (alloc_doc record []).2 in
  exists anonym h',
    anonymizeCustomer customer h = Ok (anonym, h')
    /\ doc_of h customer = Some record
    /\ doc_of h' customer
       = Some (DObject [("address", DObject [("line1", DString "ane8xRPK");
                                             ("city", DString "Paris")])]%string).
Proof. vm_compute. eauto. Qed.

(** ** [createUpdate]: one key of the delta *)

Lemma assign_plain (o : value) (k : string) (x : value) (h : heap) :
  k <> "__proto__"%string -> assign o k x h = set_prop o k x h.
Proof.
  intros Hk%String.eqb_neq. unfold assign. rewrite Hk. by destruct o.
Qed.

Lemma proto_free_other (key : string) :
  dotted_key key = false -> proto_free key = true -> key <> "__proto__"%string.
Proof.
  unfold proto_free. intros -> Hk%negb_true_iff. by apply String.eqb_neq.
Qed.

Lemma proto_free_dotted (key : string) :
  dotted_key key = true -> proto_free key = true ->
  path_field key <> "__proto__"%string.
Proof.
  unfold proto_free. intros -> Hk%negb_true_iff. by apply String.eqb_neq.
Qed.

Lemma createUpdate_key_other (h : heap) (uf c : loc) (flag : bool) (key : string) :
  other_key key = true -> proto_free key = true ->
  createUpdate_key (VObject uf) (VObject c) flag key h
  = Ok (flag, <[c := store_prop (object_at h c) key
                        (lookup_prop (object_at h uf) key)]> h).
Proof.
  unfold other_key, bare_key.
  intros [Hd Hb]%andb_true_iff Hp. apply negb_true_iff in Hd, Hb.
  pose proof (proto_free_other key Hd Hp) as Hne.
  unfold dotted_key in Hd.
  unfold createUpdate_key. rewrite Hd, Hb.
  unfold bind at 1. rewrite get_prop_object.
  unfold bind at 1. by rewrite assign_plain.
Qed.

Lemma createUpdate_key_bare (h : heap) (uf c : loc) (flag : bool) :
  createUpdate_key (VObject uf) (VObject c) flag "address" h
  = Ok (true, <[c := store_prop (object_at h c) "address"
                        (lookup_prop (object_at h uf) "address")]> h).
Proof. reflexivity. Qed.

Lemma bare_key_eq (key : string) : bare_key key = true -> key = "address"%string.
Proof. unfold bare_key. by intros ?%String.eqb_eq. Qed.

(** A dotted key when the customer has no address yet: a new group is made
    and takes the value under the second segment of the key. *)
Lemma createUpdate_key_dotted_new (h : heap) (uf c : loc) (flag : bool) (key : string) :
  dotted_key key = true -> proto_free key = true ->
  (c < length h)%nat -> (uf < length h)%nat -> uf <> c ->
  truthy (lookup_prop (object_at h c) "address") = false ->
  split "." key !! 0%nat = Some "address"%string ->
  createUpdate_key (VObject uf) (VObject c) flag key h
  = Ok (flag,
        <[c := store_prop (object_at h c) "address" (VObject (length h))]> h
        ++ [[(string_of_part (split "." key !! 1%nat),
              lookup_prop (object_at h uf) key)]]).
Proof.
  intros Hd Hp Hc Huf Hne Hfalsy Hkey1.
  pose proof (proto_free_dotted key Hd Hp) as Hfield. unfold path_field in Hfield.
  unfold dotted_key in Hd.
  unfold createUpdate_key. rewrite Hd, Hkey1. cbn [string_of_part].
  unfold bind at 1. rewrite get_prop_object, Hfalsy. cbn [negb when].
  unfold bind at 1. unfold bind at 1. cbn [new_object].
  rewrite (set_prop_old h [] c) by done.
  set (h1 := <[c := _]> h).
  assert (Hlen : length h1 = length h) by apply length_insert.
  unfold bind at 1. rewrite get_prop_object.
  rewrite object_at_app_l by lia. unfold h1 at 1.
  rewrite object_at_insert by done. case_decide; [|done].
  rewrite lookup_store_eq.
  unfold bind at 1. rewrite get_prop_object.
  rewrite object_at_app_l by lia. unfold h1 at 1.
  rewrite object_at_insert by done. case_decide; [done|].
  unfold bind at 1. rewrite assign_plain by done.
  rewrite <- Hlen. by rewrite set_prop_fresh.
Qed.

(** A dotted key when the address of the customer is an object: the value
    is written into that object. *)
Lemma createUpdate_key_dotted_old (h : heap) (uf c g : loc) (flag : bool) (key : string) :
  dotted_key key = true -> proto_free key = true ->
  lookup_prop (object_at h c) "address" = VObject g ->
  split "." key !! 0%nat = Some "address"%string ->
  createUpdate_key (VObject uf) (VObject c) flag key h
  = Ok (flag, <[g := store_prop (object_at h g)
                        (string_of_part (split "." key !! 1%nat))
                        (lookup_prop (object_at h uf) key)]> h).
Proof.
  intros Hd Hp Hgroup Hkey1.
  pose proof (proto_free_dotted key Hd Hp) as Hfield. unfold path_field in Hfield.
  unfold dotted_key in Hd.
  unfold createUpdate_key. rewrite Hd, Hkey1. cbn [string_of_part].
  unfold bind at 1. rewrite get_prop_object, Hgroup. cbn [truthy negb when].
  unfold bind at 1. cbn [ret].
  unfold bind at 1. rewrite get_prop_object, Hgroup.
  unfold bind at 1. rewrite get_prop_object.
  unfold bind at 1. by rewrite assign_plain.
Qed.

Lemma startsWith_split (key : string) :
  startsWith key "address." = true ->
  split "." key !! 0%nat = Some "address"%string.
Proof.
  intros H.
  do 8 (destruct key as [|? key]; [done|];
        cbn [startsWith] in H; apply andb_true_iff in H as [->%Ascii.eqb_eq H]).
  cbn [split Ascii.eqb Bool.eqb andb].
  destruct (split_cons "." key) as (p & ps & ->). reflexivity.
Qed.

Lemma createUpdate_keys_app (uf c : value) (flag : bool) (ks1 ks2 : list string) (h : heap) :
  createUpdate_keys uf c flag (ks1 ++ ks2) h
  = match createUpdate_keys uf c flag ks1 h with
    | Ok (flag', h') => createUpdate_keys uf c flag' ks2 h'
    | Throw => Throw
    | Unmodelled => Unmodelled
    end.
Proof.
  revert flag h. induction ks1 as [|k ks1 IH]; intros flag h; [done|].
  cbn [app createUpdate_keys]. unfold bind.
  destruct (createUpdate_key uf c flag k h) as [[flag' h']| |]; [|done..].
  apply IH.
Qed.

(** ** [createUpdate]: stage 1 on a delta with the bare key address *)

Lemma typed_names_textual (o : object) :
  typed_names o = true <-> names_textual o.
Proof.
  unfold typed_names, names_textual. cbn [forallb].
  rewrite !andb_true_iff. tauto.
Qed.

Lemma names_textual_store (o delta : object) (k : string) :
  names_textual o -> names_textual delta ->
  names_textual (store_prop o k (lookup_prop delta k)).
Proof.
  intros (H1 & H2 & H3) (D1 & D2 & D3).
  repeat split.
  - destruct (decide (k = "firstName"%string)) as [->|Hne];
      [by rewrite lookup_store_eq | by rewrite lookup_store_ne].
  - destruct (decide (k = "lastName"%string)) as [->|Hne];
      [by rewrite lookup_store_eq | by rewrite lookup_store_ne].
  - destruct (decide (k = "email"%string)) as [->|Hne];
      [by rewrite lookup_store_eq | by rewrite lookup_store_ne].
Qed.

Lemma names_textual_store_address (o : object) (v : value) :
  names_textual o -> names_textual (store_prop o "address" v).
Proof.
  intros (H1 & H2 & H3). repeat split; by rewrite lookup_store_ne.
Qed.

Lemma stage1_inv_store (h h1 : heap) (uf : loc) (k : string) :
  (uf < length h)%nat -> names_textual (object_at h uf) ->
  stage1_inv h h1 ->
  stage1_inv h (<[length h := store_prop (object_at h1 (length h)) k
                                (lookup_prop (object_at h1 uf) k)]> h1).
Proof.
  intros Huf Hdelta (Hlen & Hold & Hnames). split; [|split].
  - by rewrite length_insert.
  - intros l Hl. rewrite object_at_insert by done.
    case_decide; [lia | by apply Hold].
  - rewrite object_at_insert by done. case_decide; [|done].
    rewrite (Hold uf) by done. by apply names_textual_store.
Qed.

Lemma stage1_before_bare (h : heap) (uf : loc) (before : list string) :
  (uf < length h)%nat -> names_textual (object_at h uf) ->
  forallb (fun k => negb (bare_key k)) before = true ->
  forallb proto_free before = true ->
  forall (flag : bool) (h1 : heap),
    stage1_inv h h1 -> address_fresh h h1 ->
    exists flag' h2,
      createUpdate_keys (VObject uf) (VObject (length h)) flag before h1
      = Ok (flag', h2)
      /\ stage1_inv h h2 /\ address_fresh h h2.
Proof.
  intros Huf Hdelta.
  induction before as [|k before IH]; intros Hkeys Hproto flag h1 Hinv Hfresh.
  { exists flag, h1. done. }
  cbn [forallb] in Hkeys, Hproto.
  apply andb_true_iff in Hkeys as [Hk Hkeys].
  apply andb_true_iff in Hproto as [Hp Hproto].
  apply negb_true_iff in Hk.
  cbn [createUpdate_keys]. unfold bind.
  destruct Hinv as (Hlen & Hold & Hnames).
  destruct (dotted_key k) eqn:Hdotted.
  - pose proof (startsWith_split k Hdotted) as Hkey1.
    destruct Hfresh as [Hundef|(g & Hg & Hrange)].
    + rewrite createUpdate_key_dotted_new; try done; try lia.
      2: { by rewrite Hundef. }
      apply IH; [done|done| |].
      * split; [|split].
        -- rewrite length_app, length_insert. cbn. lia.
        -- intros l Hl. rewrite object_at_app_l by (rewrite length_insert; lia).
           rewrite object_at_insert by done. case_decide; [lia | by apply Hold].
        -- rewrite object_at_app_l by (rewrite length_insert; lia).
           rewrite object_at_insert by done. case_decide; [|done].
           by apply names_textual_store_address.
      * right. exists (length h1).
        rewrite object_at_app_l by (rewrite length_insert; lia).
        rewrite object_at_insert by done. case_decide; [|done].
        rewrite lookup_store_eq. split; [done|].
        rewrite length_app, length_insert. cbn. lia.
    + rewrite (createUpdate_key_dotted_old _ _ _ g) by done.
      apply IH; [done|done| |].
      * split; [|split].
        -- by rewrite length_insert.
        -- intros l Hl. rewrite object_at_insert by lia.
           case_decide; [lia | by apply Hold].
        -- rewrite object_at_insert by lia. case_decide; [lia | done].
      * right. exists g. rewrite object_at_insert by lia.
        case_decide; [lia|]. split; [done|]. by rewrite length_insert.
  - rewrite createUpdate_key_other
      by (done || unfold other_key; by rewrite Hdotted, Hk).
    assert (Hne : k <> "address"%string)
      by (intros ->; unfold bare_key in Hk; by rewrite String.eqb_refl in Hk).
    apply IH; [done|done| |].
    + by apply stage1_inv_store.
    + unfold address_fresh. rewrite object_at_insert by done.
      case_decide; [|done]. rewrite lookup_store_ne by done.
      rewrite length_insert. exact Hfresh.
Qed.

(** After the bare key: a dotted key is written into the address object of
    the delta, another key into the customer. *)
Lemma stage1_after_bare (h : heap) (uf a : loc) (after : list string) :
  (uf < length h)%nat -> (a < length h)%nat -> a <> uf ->
  names_textual (object_at h uf) ->
  forallb (fun k => negb (bare_key k)) after = true ->
  forallb proto_free after = true ->
  forall (h1 : heap) (group : object),
    (length h < length h1)%nat ->
    (forall l, (l < length h)%nat -> l <> a -> object_at h1 l = object_at h l) ->
    object_at h1 a = group ->
    names_textual (object_at h1 (length h)) ->
    lookup_prop (object_at h1 (length h)) "address" = VObject a ->
    exists h2,
      createUpdate_keys (VObject uf) (VObject (length h)) true after h1
      = Ok (true, h2)
      /\ (length h < length h2)%nat
      /\ (forall l, (l < length h)%nat -> l <> a -> object_at h2 l = object_at h l)
      /\ object_at h2 a
         = fold_left (stage1_group_step (object_at h uf)) after group
      /\ names_textual (object_at h2 (length h))
      /\ lookup_prop (object_at h2 (length h)) "address" = VObject a.
Proof.
  intros Huf Ha Hne Hdelta.
  induction after as [|k after IH];
    intros Hkeys Hproto h1 group Hlen Hold Hgroup Hnames Haddress.
  { exists h1. done. }
  cbn [forallb] in Hkeys, Hproto.
  apply andb_true_iff in Hkeys as [Hk Hkeys].
  apply andb_true_iff in Hproto as [Hp Hproto].
  apply negb_true_iff in Hk.
  assert (Hbare : k <> "address"%string)
    by (intros ->; unfold bare_key in Hk; by rewrite String.eqb_refl in Hk).
  assert (Huf1 : object_at h1 uf = object_at h uf) by (apply Hold; done || lia).
  cbn [createUpdate_keys fold_left]. unfold bind at 1.
  unfold stage1_group_step at 2.
  destruct (dotted_key k) eqn:Hdotted.
  - rewrite (createUpdate_key_dotted_old _ _ _ a);
      [|done|done|done|by apply startsWith_split].
    fold (path_field k). rewrite Hgroup, Huf1.
    apply IH; try done.
    + by rewrite length_insert.
    + intros l Hl Hla. rewrite object_at_insert by lia.
      case_decide; [congruence | by apply Hold].
    + rewrite object_at_insert by lia. by case_decide.
    + rewrite object_at_insert by lia. case_decide; [lia | done].
    + rewrite object_at_insert by lia. case_decide; [lia | done].
  - rewrite createUpdate_key_other
      by (done || unfold other_key; by rewrite Hdotted, Hk).
    rewrite Huf1. apply IH; try done.
    + by rewrite length_insert.
    + intros l Hl Hla. rewrite object_at_insert by lia.
      case_decide; [lia | by apply Hold].
    + rewrite object_at_insert by lia. case_decide; [lia | done].
    + rewrite object_at_insert by lia. case_decide; [|done].
      by apply names_textual_store.
    + rewrite object_at_insert by lia. case_decide; [|done].
      by rewrite lookup_store_ne.
Qed.

(** [createUpdate] on a delta with the bare key address. *)
Lemma createUpdate_bare_address (h : heap) (uf a : loc) (before after : list string) :
  bare_address_delta h uf a before after = true ->
  exists h1,
    createUpdate_stage1 (VObject uf) h = Ok ((true, VObject (length h)), h1)
    /\ createUpdate (VObject uf) h
       = Ok (VObject (length h1), anonymized_heap h1 (length h))
    /\ (length h < length h1)%nat
    /\ (a < length h)%nat
    /\ lookup_prop (object_at h1 (length h)) "address" = VObject a
    /\ object_at h1 a = merged_address h uf a after
    /\ (forall l, (l < length h)%nat -> l <> a -> object_at h1 l = object_at h l)
    /\ typed_customer h1 (length h) = true.
Proof.
  unfold bare_address_delta. rewrite !andb_true_iff, !bool_decide_eq_true.
  intros (((((((((Huf & Hkeys) & Hbefore) & Hafter) & Hproto) & Hnames) & Hbare)
              & Ha) & Hne) & Hlines).
  destruct (lookup_prop (object_at h uf) "address") as [| | | | |a'] eqn:Hvalue;
    try done.
  apply bool_decide_eq_true in Hbare as ->.
  apply typed_names_textual in Hnames.
  rewrite forallb_app in Hproto. apply andb_true_iff in Hproto as [Hproto1 Hproto2].
  assert (Hinv0 : stage1_inv h (h ++ [[]])).
  { split; [|split].
    - rewrite length_app. cbn. lia.
    - intros l Hl. by apply object_at_app_l.
    - by rewrite object_at_app_r. }
  assert (Hfresh0 : address_fresh h (h ++ [[]])).
  { left. by rewrite object_at_app_r. }
  destruct (stage1_before_bare h uf before Huf Hnames Hbefore Hproto1 false _
              Hinv0 Hfresh0)
    as (flag1 & h2 & Hrun1 & Hinv2 & _).
  pose proof Hinv2 as (Hlen2 & Hold2 & _).
  set (h3 := <[length h := store_prop (object_at h2 (length h)) "address"
                             (lookup_prop (object_at h2 uf) "address")]> h2).
  assert (Hinv3 : stage1_inv h h3) by (by apply stage1_inv_store).
  destruct Hinv3 as (Hlen3 & Hold3 & Hnames3).
  assert (Haddress3 : lookup_prop (object_at h3 (length h)) "address" = VObject a).
  { unfold h3. rewrite object_at_insert by done. case_decide; [|done].
    by rewrite lookup_store_eq, (Hold2 uf), Hvalue. }
  destruct (stage1_after_bare h uf a after Huf Ha Hne Hnames Hafter Hproto2
              h3 (object_at h a) Hlen3)
    as (h4 & Hrun4 & Hlen4 & Hold4 & Hgroup4 & Hnames4 & Haddress4); try done.
  { intros l Hl _. by apply Hold3. }
  { by apply Hold3. }
  assert (Hstage1 : createUpdate_stage1 (VObject uf) h
                    = Ok ((true, VObject (length h)), h4)).
  { unfold createUpdate_stage1. unfold bind at 1. cbn [new_object].
    unfold bind at 1. cbn [own_keys]. rewrite object_at_app_l by done.
    fold (keys (object_at h uf)). rewrite Hkeys.
    unfold bind at 1. rewrite createUpdate_keys_app, Hrun1.
    cbn [createUpdate_keys]. unfold bind at 1.
    rewrite createUpdate_key_bare. fold h3. by rewrite Hrun4. }
  assert (Htyped4 : typed_customer h4 (length h) = true).
  { unfold typed_customer. destruct Hnames4 as (N1 & N2 & N3).
    rewrite N1, N2, N3, Haddress4. cbn [typed_address].
    rewrite Hgroup4. fold (merged_address h uf a after).
    cbn [forallb] in Hlines. rewrite !andb_true_iff in Hlines.
    destruct Hlines as (L1 & L2 & L3 & _). rewrite L1, L2, L3.
    rewrite !bool_decide_eq_true_2 by lia. done. }
  exists h4. repeat split; try done.
  unfold createUpdate. unfold bind at 1. rewrite Hstage1.
  unfold bind at 1. by rewrite anonymizeCustomer_typed.
Qed.

Lemma anonymous_of_keys (o : object) (k : string) :
  k ∈ keys (anonymous_of o)
  <-> k ∈ anonymizable /\ truthy (lookup_prop o k) = true.
Proof.
  unfold anonymous_of. rewrite !keys_put_if_truthy. unfold anonymizable, keys.
  cbn [map]. rewrite !elem_of_cons, elem_of_nil. split.
  - intros [[-> ?]|[[-> ?]|[[-> ?]|[[-> ?]|[]]]]]; tauto.
  - intros [[->|[->|[->|[->|[]]]]] ?]; tauto.
Qed.

Lemma anonymous_of_address (o : object) (a : loc) :
  lookup_prop o "address" = VObject a ->
  lookup_prop (anonymous_of o) "address" = VObject a.
Proof.
  intros Ha. unfold anonymous_of. by rewrite lookup_put_if_truthy, Ha.
Qed.

Lemma anonymized_heap_address (h : heap) (c a : loc) :
  (a < length h)%nat ->
  lookup_prop (object_at h c) "address" = VObject a ->
  object_at (anonymized_heap h c) a = anonymized_address (object_at h a).
Proof.
  intros Hlt Ha. unfold anonymized_heap. rewrite Ha.
  rewrite object_at_app_l by (by rewrite length_insert).
  rewrite object_at_insert by done. by case_decide.
Qed.

(** C3, as the program has it.  Take a delta that holds the bare key
    address with an address object, none of whose keys assigns __proto__,
    and whose names and address lines are strings; its other keys, dotted or
    not, are free.  Then [rewriteFullAddress] ends true and the update is
    the anonymised object itself: its keys are among firstName, lastName,
    email, address (no dotted path), and its address is the object of the
    bare key.  Dotted keys enumerated before the bare key are overridden;
    the dotted keys enumerated after it are written into that object, which
    then holds the anonymised fields of the merged address.  No other object
    of the delta is written to. *)
Theorem createUpdate_full_address_rewrite
    (h : heap) (updatedFields a : loc) (before after : list string) :
  bare_address_delta h updatedFields a before after = true ->
  exists customer h1 update h',
    createUpdate_stage1 (VObject updatedFields) h = Ok ((true, customer), h1)
    /\ createUpdate (VObject updatedFields) h = Ok (VObject update, h')
    /\ (forall k, k ∈ keys (object_at h' update) -> k ∈ anonymizable)
    /\ lookup_prop (object_at h' update) "address" = VObject a
    /\ object_at h' a
       = anonymized_address (merged_address h updatedFields a after)
    /\ (forall l, (l < length h)%nat -> l <> a -> object_at h' l = object_at h l).
Proof.
  intros Hdelta.
  destruct (createUpdate_bare_address _ _ _ _ _ Hdelta)
    as (h1 & Hstage1 & Hrun & Hlen & Ha & Haddress & Hsame & Hold & Htyped).
  exists (VObject (length h)), h1, (length h1), (anonymized_heap h1 (length h)).
  rewrite anonymized_heap_result.
  split; [done|]. split; [done|]. split; [|split; [|split]].
  - intros k Hk. by apply anonymous_of_keys in Hk as [? _].
  - by apply anonymous_of_address.
  - rewrite <- Hsame. apply anonymized_heap_address; [lia | done].
  - intros l Hl Hla. unfold anonymized_heap. rewrite Haddress.
    rewrite object_at_app_l by (rewrite length_insert; lia).
    rewrite object_at_insert by lia. case_decide; [congruence | by apply Hold].
Qed.

Lemma createUpdate_full_address_rewrite_witness :
  let h := [[("line1", VString "a")];
            [("address.line2", VString "b"); ("address", VObject 0);
             ("address.city", VString "Paris")]]%string in
  bare_address_delta h 1 0 ["address.line2"]%string ["address.city"]%string = true
  /\ exists customer h1 update h',
    createUpdate_stage1 (VObject 1) h = Ok ((true, customer), h1)
    /\ createUpdate (VObject 1) h = Ok (VObject update, h')
    /\ (forall k, k ∈ keys (object_at h' update) -> k ∈ anonymizable)
    /\ lookup_prop (object_at h' update) "address" = VObject 0
    /\ object_at h' 0%nat
       = anonymized_address [("line1", VString "a"); ("city", VString "Paris")]%string
    /\ (forall l, (l < length h)%nat -> l <> 0%nat -> object_at h' l = object_at h l).
Proof.
  split; [reflexivity|].
  exact (createUpdate_full_address_rewrite
           [[("line1", VString "a")];
            [("address.line2", VString "b"); ("address", VObject 0);
             ("address.city", VString "Paris")]]%string
           1%nat 0%nat ["address.line2"]%string ["address.city"]%string eq_refl).
Defined.

(** C3 as the specification words it fails when a dotted key is enumerated
    after the bare key: its value is merged into the object of the bare key.
    The same delta enumerated in the other order gives another write. *)
Lemma createUpdate_merges_later_dotted_key :
  createUpdate_on_doc
    (DObject [("address", DObject [("line1", DString "a")]);
              ("address.line2", DString "b")]%string)
  = Ok (true, Some (DObject [("address",
                              DObject [("line1", DString "VXPUE4TO");
                                       ("line2", DString "RAsiPuAN")])]%string))
  /\ createUpdate_on_doc
       (DObject [("address.line2", DString "b");
                 ("address", DObject [("line1", DString "a")])]%string)
     = Ok (true, Some (DObject [("address",
                                 DObject [("line1", DString "VXPUE4TO")])]%string)).
Proof. split; vm_compute; reflexivity. Qed.

(** ** Nested and dotted forms of one address line *)

Lemma lookup_single (f k : string) (x : value) :
  lookup_prop [(f, x)] k = if String.eqb f k then x else VUndefined.
Proof. reflexivity. Qed.

Lemma anonymized_address_single (f v : string) :
  anonymized_address [(f, VString v)] = [(f, VString (line_token f v))].
Proof.
  unfold anonymized_address, line_token.
  destruct (String.eqb_spec f "line1") as [->|H1]; [by destruct v|].
  destruct (String.eqb_spec f "line2") as [->|H2]; [by destruct v|].
  destruct (String.eqb_spec f "postcode") as [->|H3]; [by destruct v|].
  apply String.eqb_neq in H1, H2, H3.
  unfold anonymized_line, put_if_truthy.
  rewrite lookup_single, H1. cbn [truthy].
  rewrite lookup_single, H2. cbn [truthy].
  rewrite lookup_single, H3. reflexivity.
Qed.

Lemma typed_address_single (h : heap) (a : loc) (f v : string) :
  (a < length h)%nat -> object_at h a = [(f, VString v)] ->
  typed_address h (VObject a) = true.
Proof.
  intros Ha Hobj. cbn [typed_address]. rewrite Hobj, !lookup_single.
  rewrite bool_decide_eq_true_2 by done.
  by destruct (String.eqb f "line1"), (String.eqb f "line2"),
              (String.eqb f "postcode").
Qed.

(** [convertCustomerUpdateToDotNotation] on an object that holds an address
    of one field and nothing else. *)
Lemma convert_single_line (h : heap) (anonym group : loc) (f : string) (x : value) :
  object_at h anonym = [("address"%string, VObject group)] ->
  object_at h group = [(f, x)] ->
  convertCustomerUpdateToDotNotation (VObject anonym) h
  = Ok (VObject (length h), h ++ [[("address." +:+ f, x)]]).
Proof.
  intros Hanonym Hgroup.
  assert (Hlt1 : (anonym < length h)%nat).
  { destruct (decide (anonym < length h)%nat); [done|].
    unfold object_at in Hanonym. by rewrite nth_overflow in Hanonym by lia. }
  assert (Hlt2 : (group < length h)%nat).
  { destruct (decide (group < length h)%nat); [done|].
    unfold object_at in Hgroup. by rewrite nth_overflow in Hgroup by lia. }
  unfold convertCustomerUpdateToDotNotation.
  unfold bind at 1. cbn [new_object].
  unfold bind at 1. cbn [own_keys]. rewrite object_at_app_l, Hanonym by done.
  cbn [map fst for_each String.eqb Ascii.eqb Bool.eqb].
  unfold bind at 1. unfold bind at 1. unfold bind at 1.
  rewrite get_prop_object, object_at_app_l, Hanonym by done.
  cbn [lookup_prop String.eqb Ascii.eqb Bool.eqb].
  unfold bind at 1. cbn [own_keys]. rewrite object_at_app_l, Hgroup by done.
  cbn [map fst for_each].
  unfold bind at 1. unfold bind at 1.
  rewrite get_prop_object, object_at_app_l, Hanonym by done.
  cbn [lookup_prop String.eqb Ascii.eqb Bool.eqb].
  unfold bind at 1. rewrite get_prop_object, object_at_app_l, Hgroup by done.
  rewrite lookup_single, String.eqb_refl.
  rewrite set_prop_fresh. reflexivity.
Qed.

(** C4, as the program has it, for a field name f without '.' and other
    than __proto__.  The nested delta {address: {f: v}} is a full rewrite:
    [rewriteFullAddress] is true and the update holds the key address with
    the object {f: t}.  The dotted delta {"address.f": v} is not:
    [rewriteFullAddress] is false and the update holds the key "address.f"
    with the value t.  In both, t is the token of v when f is line1, line2
    or postcode and v is not empty, and v itself otherwise. *)
Theorem createUpdate_nested_and_dotted (f v : string) :
  contains "." f = false ->
  f <> "__proto__"%string ->
  createUpdate_on_doc (DObject [("address"%string, DObject [(f, DString v)])])
  = Ok (true,
        Some (DObject [("address"%string,
                        DObject [(f, DString (line_token f v))])]))
  /\ createUpdate_on_doc (DObject [("address." +:+ f, DString v)])
     = Ok (false, Some (DObject [("address." +:+ f, DString (line_token f v))])).
Proof.
  intros Hf Hproto. split.
  - unfold createUpdate_on_doc. cbn [alloc_doc length app].
    set (h := [[(f, VString v)]; [("address"%string, VObject 0)]]).
    set (h1 := h ++ [[("address"%string, VObject 0)]]).
    assert (Hstage1 : createUpdate_stage1 (VObject 1) h
                      = Ok ((true, VObject 2), h1)) by reflexivity.
    assert (Htyped : typed_customer h1 2 = true).
    { unfold typed_customer.
      change (lookup_prop (object_at h1 2) "address") with (VObject 0).
      rewrite (typed_address_single h1 0 f v) by (done || cbn; lia).
      reflexivity. }
    rewrite Hstage1. unfold createUpdate. unfold bind at 1. rewrite Hstage1.
    unfold bind at 1. rewrite anonymizeCustomer_typed by done.
    unfold ret, anonymized_heap.
    change (lookup_prop (object_at h1 2) "address") with (VObject 0).
    cbv beta iota.
    change (object_at h1 0) with [(f, VString v)].
    rewrite anonymized_address_single. reflexivity.
  - unfold createUpdate_on_doc. cbn [alloc_doc length app].
    set (key := "address." +:+ f).
    set (h := [[(key, VString v)]]).
    set (h1 := [[(key, VString v)]; [("address"%string, VObject 2)];
                [(f, VString v)]]).
    assert (Hsplit : split "." key = ["address"%string; f]).
    { unfold key. change ("address." +:+ f) with ("address" +:+ String "." f).
      by rewrite split_at_first, split_without. }
    assert (Hstage1 : createUpdate_stage1 (VObject 0) h
                      = Ok ((false, VObject 1), h1)).
    { unfold createUpdate_stage1. unfold bind at 1. cbn [new_object].
      unfold bind at 1. cbn [own_keys object_at nth map fst length h app].
      unfold bind at 1. cbn [createUpdate_keys]. unfold bind at 1.
      rewrite createUpdate_key_dotted_new;
        [ | reflexivity | | cbn; lia | cbn; lia | done | reflexivity
          | by rewrite Hsplit ].
      2: { unfold proto_free, path_field.
           change (dotted_key key) with true. cbv iota.
           rewrite Hsplit. by apply negb_true_iff, String.eqb_neq. }
      rewrite Hsplit. unfold ret.
      change (object_at [[(key, VString v)]; []] 0) with [(key, VString v)].
      by rewrite lookup_single, String.eqb_refl. }
    assert (Htyped : typed_customer h1 1 = true).
    { unfold typed_customer.
      change (lookup_prop (object_at h1 1) "address") with (VObject 2).
      rewrite (typed_address_single h1 2 f v) by (done || cbn; lia).
      reflexivity. }
    rewrite Hstage1. unfold createUpdate. unfold bind at 1. rewrite Hstage1.
    unfold bind at 1. rewrite anonymizeCustomer_typed by done.
    unfold anonymized_heap.
    change (lookup_prop (object_at h1 1) "address") with (VObject 2).
    cbv beta iota.
    change (object_at h1 2) with [(f, VString v)].
    rewrite anonymized_address_single.
    rewrite (convert_single_line _ 3 2 f (VString (line_token f v))) by done.
    reflexivity.
Qed.

Lemma createUpdate_nested_and_dotted_witness :
  createUpdate_on_doc (DObject [("address", DObject [("line1", DString "x")])]%string)
  = Ok (true,
        Some (DObject [("address",
                        DObject [("line1", DString (line_token "line1" "x"))])]%string))
  /\ createUpdate_on_doc (DObject [("address." +:+ "line1", DString "x")]%string)
     = Ok (false,
           Some (DObject [("address." +:+ "line1",
                           DString (line_token "line1" "x"))]%string)).
Proof.
  exact (createUpdate_nested_and_dotted "line1" "x" eq_refl ltac:(discriminate)).
Defined.

(** C4 as the specification words it fails: the two forms of the delta
    give different keys, and the nested form sets [rewriteFullAddress]. *)
Lemma createUpdate_nested_differs_from_dotted :
  createUpdate_on_doc (DObject [("address", DObject [("line1", DString "x")])]%string)
  = Ok (true,
        Some (DObject [("address", DObject [("line1", DString "ane8xRPK")])]%string))
  /\ createUpdate_on_doc (DObject [("address.line1", DString "x")]%string)
     = Ok (false, Some (DObject [("address.line1", DString "ane8xRPK")]%string)).
Proof. split; vm_compute; reflexivity. Qed.

(** ** [syncMode]: the change listener *)

Lemma run_ok {A} (m : M A) (st st' : state) (a : A) :
  run m st = Ok (a, st') -> exists h, st' = with_heap h st.
Proof.
  unfold run. destruct (m (st_heap st)) as [[a' h]| |]; [|done..].
  intros [= -> <-]. eauto.
Qed.

Lemma unchanged_refl (st : state) : unchanged_outside_queue st st.
Proof. by repeat split. Qed.

Lemma on_change_insert_queue (change : ChangeStreamDocument) (st st' : state) :
  on_change_insert change st = Ok st' ->
  unchanged_outside_queue st st'
  /\ console st' = console st
  /\ (updates st' = updates st
      \/ operationType change = "insert"%string
         /\ exists u, updates st' = updates st ++ [u]).
Proof.
  unfold on_change_insert.
  destruct (String.eqb_spec (operationType change) "insert") as [Hop|Hop].
  - destruct (run _ st) as [[[id anonym] st1]| |] eqn:Hrun; [|done..].
    apply run_ok in Hrun as [h ->]. intros [= <-].
    split; [by repeat split|]. split; [done|]. right. split; [done|].
    eexists. reflexivity.
  - intros [= <-]. split; [apply unchanged_refl|]. split; [done|]. by left.
Qed.

Lemma on_change_update_queue (change : ChangeStreamDocument) (st st' : state)
    (returned : bool) :
  on_change_update change st = Ok (st', returned) ->
  unchanged_outside_queue st st'
  /\ (if returned
      then (updates st' = updates st
            /\ console st' = console st ++ [ErrorUpdatedFields])
           /\ operationType change = "update"%string
      else console st' = console st
           /\ (updates st' = updates st
               \/ operationType change = "update"%string
                  /\ exists u, updates st' = updates st ++ [u])).
Proof.
  unfold on_change_update.
  destruct (String.eqb_spec (operationType change) "update") as [Hop|Hop].
  - destruct (updateDescription change) as [description|]; [|done].
    destruct (run _ st) as [[[id fields] st1]| |] eqn:Hrun; [|done..].
    apply run_ok in Hrun as [h ->].
    destruct (truthy fields); cbn [negb].
    + destruct (run (createUpdate fields) _) as [[u st2]| |] eqn:Hrun2; [|done..].
      apply run_ok in Hrun2 as [h2 ->]. intros [= <- <-].
      split; [by repeat split|]. split; [done|]. right. split; [done|].
      eexists. reflexivity.
    + intros [= <- <-]. split; [by repeat split|]. done.
  - intros [= <- <-]. split; [apply unchanged_refl|]. split; [done|]. by left.
Qed.

(** The dispatch of one change adds at most one pending update, and nothing
    when the listener returns early. *)
Lemma on_change_dispatch_queue (change : ChangeStreamDocument) (st st' : state)
    (returned : bool) :
  on_change_dispatch change st = Ok (st', returned) ->
  unchanged_outside_queue st st'
  /\ (returned = true -> updates st' = updates st
                         /\ console st' = console st ++ [ErrorUpdatedFields])
  /\ (updates st' = updates st \/ exists u, updates st' = updates st ++ [u]).
Proof.
  unfold on_change_dispatch.
  destruct (on_change_insert change st) as [st1| |] eqn:Hinsert; [|done..].
  intros Hupdate.
  apply on_change_insert_queue in Hinsert as (Hsame1 & Hconsole1 & Hq1).
  apply on_change_update_queue in Hupdate as (Hsame2 & Hq2).
  split.
  { unfold unchanged_outside_queue in *. intuition congruence. }
  destruct returned.
  - destruct Hq2 as [[Hq2 Hc2] Hop2].
    destruct Hq1 as [Hq1|[Hop1 _]].
    + split; [intros _; split; congruence|]. left. congruence.
    + rewrite Hop1 in Hop2. discriminate.
  - destruct Hq2 as [Hc2 Hq2]. split; [done|].
    destruct Hq1 as [Hq1|[Hop1 [u1 Hq1]]], Hq2 as [Hq2|[Hop2 [u2 Hq2]]].
    + left. congruence.
    + right. exists u2. congruence.
    + right. exists u1. congruence.
    + rewrite Hop1 in Hop2. discriminate.
Qed.

(** ** [syncMode]: [bulkWriteUpdates] and the two triggers of a flush *)

Lemma bulkWriteUpdates_empty (o : origin) (st : state) :
  updates st = [] -> bulkWriteUpdates o st = (st, None).
Proof. intros Hq. unfold bulkWriteUpdates. by rewrite Hq. Qed.

(** On a queue that is not empty: the queue is taken, one bulk write is
    issued, and the call is suspended with the token of the last update. *)
Lemma bulkWriteUpdates_started (o : origin) (st : state) (snapshot : list Update)
    (u : Update) :
  updates st = snapshot ++ [u] ->
  exists st1,
    bulkWriteUpdates o st = (st1, Some (next_flush st))
    /\ updates st1 = []
    /\ sink st1 = sink st ++ [map (operation_of (st_heap st)) (snapshot ++ [u])]
    /\ flushes st1
       = flushes st ++ [(next_flush st,
                         {| fl_origin := o; fl_stage := AwaitingBulkWrite;
                            lastResumeToken := resumeToken u;
                            fl_length := length (snapshot ++ [u]) |})]
    /\ next_flush st1 = S (next_flush st)
    /\ timers st1 = timers st /\ timerId st1 = timerId st
    /\ token_file st1 = token_file st /\ console st1 = console st.
Proof.
  intros Hq. unfold bulkWriteUpdates. rewrite Hq, last_snoc.
  eexists. split; [reflexivity|]. cbn. rewrite length_map. by repeat split.
Qed.

Lemma nonempty_snoc {A} (l : list A) :
  (0 < length l)%nat -> exists l' x, l = l' ++ [x].
Proof.
  intros Hl. destruct l as [|a l] using rev_ind; [cbn in Hl; lia | eauto].
Qed.

Lemma flush_then_rearm_queue (cfg : config) (o : origin) (now : Z) (st : state) :
  updates (flush_then_rearm cfg o now st) = [].
Proof.
  unfold flush_then_rearm.
  destruct (updates st) as [|u0 q] eqn:Hq.
  - rewrite bulkWriteUpdates_empty by done. by destruct o.
  - destruct (nonempty_snoc (u0 :: q)) as (q' & u & Hsnoc); [cbn; lia|].
    rewrite <- Hq in Hsnoc.
    destruct (bulkWriteUpdates_started o st q' u Hsnoc) as (st1 & -> & Hq1 & _).
    done.
Qed.


Lemma step_queue_bound (cfg : config) (st st' : state) (i : input) :
  (0 < MAX_BATCH_SIZE cfg)%nat ->
  (length (updates st) < MAX_BATCH_SIZE cfg)%nat ->
  step cfg st i = Ok st' ->
  (length (updates st') < MAX_BATCH_SIZE cfg)%nat.
Proof.
  intros Hmax Hq. destruct i as [change token|id start finish|id ok|id ok now| |];
    cbn [step].
  - destruct (cs_closed st); [by intros [= <-]|].
    unfold on_change.
    destruct (on_change_dispatch change _) as [[st1 returned]| |] eqn:Hd; [|done..].
    apply on_change_dispatch_queue in Hd as (_ & Hret & Hq1).
    destruct returned.
    + intros [= <-]. destruct (Hret eq_refl) as [-> _]. exact Hq.
    + intros [= <-]. unfold on_change_check.
      destruct (Nat.leb_spec (MAX_BATCH_SIZE cfg) (length (updates st1))).
      * by rewrite flush_then_rearm_queue.
      * done.
  - case_bool_decide; intros [= <-]; [|done].
    unfold on_timeout. by rewrite flush_then_rearm_queue.
  - intros [= <-]. unfold on_bulkWrite_settled.
    destruct (find_flush id (flushes st)) as [f|]; [|done].
    by destruct (fl_stage f).
  - intros [= <-]. unfold on_writeFile_settled.
    destruct (find_flush id (flushes st)) as [f|]; [|done].
    destruct (fl_stage f); [done|]. by destruct ok, (fl_origin f).
  - by intros [= <-].
  - by intros [= <-].
Qed.

Lemma steps_invariant (cfg : config) (P : state -> Prop) :
  (forall st i st', P st -> step cfg st i = Ok st' -> P st') ->
  forall inputs st st', P st -> steps cfg st inputs = Ok st' -> P st'.
Proof.
  intros Hstep. induction inputs as [|i inputs IH]; intros st st' HP; cbn [steps].
  - by intros [= <-].
  - destruct (step cfg st i) as [st1| |] eqn:Hi; [|done..].
    apply IH. by eapply Hstep.
Qed.


(** The scenario of the specification: with a maximum of 3, three inserts in
    a row are flushed before any timer fires. *)
Example three_inserts_flush :
  let insert name token :=
    Change {| operationType := "insert";
              fullDocument := DObject [("_id", DString name);
                                       ("firstName", DString name)];
              documentKey := DObject [("_id", DString name)];
              updateDescription := None |} (DString token) in
  exists st,
    steps test_config (syncMode test_config None)
          [insert "a" "t1"; insert "b" "t2"; insert "c" "t3"]%string = Ok st
    /\ updates st = []
    /\ timers st = []
    /\ map (map filter_id) (sink st)
       = [[Some (DString "a"); Some (DString "b"); Some (DString "c")]]%string
    /\ map (fun e => lastResumeToken e.2) (flushes st) = [DString "t3"].
Proof. vm_compute. eexists. repeat split. Qed.

(** ** [syncMode]: an update without updated fields *)

Lemma alloc_doc_object (fields : list (string * doc)) (h : heap) :
  exists l h', alloc_doc (DObject fields) h = (VObject l, h').
Proof.
  cbn [alloc_doc].
  match goal with |- context [let '(o, h') := ?e in _] => destruct e as [o h'] end.
  eauto.
Qed.

Lemma alloc_doc_falsy (d : doc) (h : heap) :
  truthy_doc d = false ->
  exists v, alloc_doc d h = (v, h) /\ truthy v = false.
Proof. destruct d; cbn [truthy_doc alloc_doc]; try done; eauto. Qed.

(** C8, as the program has it.  An update event whose [updatedFields] is
    missing (undefined, null, or another falsy value) is dropped: an error is
    logged, nothing is added to the queue, no write is issued and no call is
    suspended, whatever the removed-field markers of the event. *)
Theorem update_without_updatedFields_dropped
    (cfg : config) (st : state) (change : ChangeStreamDocument)
    (token : ResumeToken) (description : UpdateDescription)
    (key : list (string * doc)) :
  cs_closed st = false ->
  operationType change = "update"%string ->
  documentKey change = DObject key ->
  updateDescription change = Some description ->
  truthy_doc (updatedFields description) = false ->
  exists st',
    step cfg st (Change change token) = Ok st'
    /\ updates st' = updates st
    /\ console st' = console st ++ [ErrorUpdatedFields]
    /\ sink st' = sink st
    /\ flushes st' = flushes st
    /\ timers st' = timers st.
Proof.
  intros Hopen Hop Hkey Hdescription Hfalsy.
  cbn [step]. rewrite Hopen. unfold on_change, on_change_dispatch.
  unfold on_change_insert, on_change_update. rewrite Hop, Hdescription, Hkey.
  cbn [String.eqb Ascii.eqb Bool.eqb].
  unfold run, bind, deserialise. cbn [st_heap with_stream].
  destruct (alloc_doc_object key (st_heap st)) as (l & h' & ->).
  cbn [get_prop].
  destruct (alloc_doc_falsy (updatedFields description) h' Hfalsy)
    as (v & -> & Hv).
  cbn [ret]. rewrite Hv. cbn [negb].
  eexists. split; [reflexivity|]. by repeat split.
Qed.

Lemma update_without_updatedFields_dropped_witness :
  let change := {| operationType := "update"; fullDocument := DUndefined;
                   documentKey := DObject [("_id", DString "c1")];
                   updateDescription :=
                     Some {| updatedFields := DUndefined;
                             removedFields := ["firstName"];
                             truncatedArrays := [] |} |}%string in
  exists st',
    step source_config (syncMode source_config None) (Change change (DString "t1"))
    = Ok st'
    /\ updates st' = []
    /\ console st' = [ErrorUpdatedFields]
    /\ sink st' = []
    /\ flushes st' = []
    /\ timers st' = [(0%nat, 1000)].
Proof.
  exact (update_without_updatedFields_dropped
           source_config (syncMode source_config None)
           {| operationType := "update"; fullDocument := DUndefined;
              documentKey := DObject [("_id", DString "c1")];
              updateDescription :=
                Some {| updatedFields := DUndefined;
                        removedFields := ["firstName"];
                        truncatedArrays := [] |} |}%string
           (DString "t1")
           {| updatedFields := DUndefined; removedFields := ["firstName"]%string;
              truncatedArrays := [] |}
           [("_id", DString "c1")]%string
           eq_refl eq_refl eq_refl eq_refl eq_refl).
Defined.

(** C8 as the specification words it fails on an event that carries
    removed-field markers and an empty [updatedFields]: the empty object is
    truthy, no error is logged, and an update with no field is queued for
    the next bulk write. *)
Lemma removal_only_update_is_queued :
  let change := {| operationType := "update"; fullDocument := DUndefined;
                   documentKey := DObject [("_id", DString "c1")];
                   updateDescription :=
                     Some {| updatedFields := DObject [];
                             removedFields := ["firstName"];
                             truncatedArrays := [] |} |}%string in
  exists st',
    step source_config (syncMode source_config None) (Change change (DString "t1"))
    = Ok st'
    /\ console st' = []
    /\ map (operation_of (st_heap st')) (updates st')
       = [{| filter_id := Some (DString "c1");
             set_fields := Some (DObject []);
             upsert := true |}].
Proof. vm_compute. eexists. repeat split. Qed.

(** ** [syncMode]: the suspended calls of [bulkWriteUpdates] *)

Lemma find_flush_fresh (n : nat) (fs : list (nat * flush)) :
  Forall (fun e : nat * flush => (e.1 < n)%nat) fs -> find_flush n fs = None.
Proof.
  induction 1 as [|[id f] fs Hlt _ IH]; [done|]. cbn in *.
  destruct (Nat.eqb_spec id n); [lia | done].
Qed.

Lemma find_flush_app (id n : nat) (f : flush) (fs : list (nat * flush)) :
  find_flush id (fs ++ [(n, f)])
  = match find_flush id fs with
    | Some x => Some x
    | None => if Nat.eqb n id then Some f else None
    end.
Proof.
  induction fs as [|[id' f'] fs IH]; [done|]. cbn.
  by destruct (Nat.eqb id' id).
Qed.

Lemma find_put_eq (id : nat) (f f' : flush) (fs : list (nat * flush)) :
  find_flush id fs = Some f -> find_flush id (put_flush id f' fs) = Some f'.
Proof.
  induction fs as [|[id' f0] fs IH]; [done|]. cbn.
  destruct (Nat.eqb_spec id' id) as [->|Hne]; cbn.
  - by rewrite Nat.eqb_refl.
  - destruct (Nat.eqb_spec id' id); done.
Qed.

Lemma find_put_ne (id id' : nat) (f' : flush) (fs : list (nat * flush)) :
  id' <> id -> find_flush id (put_flush id' f' fs) = find_flush id fs.
Proof.
  intros Hne. unfold put_flush.
  induction fs as [|[id0 f0] fs IH]; [done|]. cbn.
  destruct (Nat.eqb_spec id0 id') as [->|Hne0]; cbn.
  - destruct (Nat.eqb_spec id' id); [done | apply IH].
  - by rewrite IH.
Qed.

Lemma find_drop_ne (id id' : nat) (fs : list (nat * flush)) :
  id' <> id -> find_flush id (drop_flush id' fs) = find_flush id fs.
Proof.
  intros Hne. unfold drop_flush. induction fs as [|[id0 f0] fs IH]; [done|].
  rewrite filter_cons. cbn. case_decide as Hid0; cbn.
  - by rewrite IH.
  - assert (id0 = id') as -> by (destruct (decide (id0 = id')); [done|by destruct Hid0]).
    destruct (Nat.eqb_spec id' id); [done | apply IH].
Qed.

Lemma put_flush_ids (id : nat) (f : flush) (fs : list (nat * flush)) (n : nat) :
  Forall (fun e : nat * flush => (e.1 < n)%nat) fs ->
  Forall (fun e : nat * flush => (e.1 < n)%nat) (put_flush id f fs).
Proof.
  unfold put_flush. induction 1 as [|[id0 f0] fs Hlt _ IH]; [done|].
  cbn in *. constructor; [|done].
  destruct (Nat.eqb_spec id0 id); cbn; lia.
Qed.

Lemma drop_flush_ids (id : nat) (fs : list (nat * flush)) (n : nat) :
  Forall (fun e : nat * flush => (e.1 < n)%nat) fs ->
  Forall (fun e : nat * flush => (e.1 < n)%nat) (drop_flush id fs).
Proof.
  unfold drop_flush. induction 1 as [|e fs He _ IH]; [done|].
  rewrite filter_cons. case_decide; [by constructor | done].
Qed.

Lemma flush_then_rearm_flushes (cfg : config) (o : origin) (now : Z) (st : state) :
  flushes_extended st (flush_then_rearm cfg o now st).
Proof.
  unfold flush_then_rearm.
  destruct (updates st) as [|u0 q] eqn:Hq.
  - rewrite bulkWriteUpdates_empty by done. left. by destruct o.
  - destruct (nonempty_snoc (u0 :: q)) as (q' & u & Hsnoc); [cbn; lia|].
    rewrite <- Hq in Hsnoc.
    destruct (bulkWriteUpdates_started o st q' u Hsnoc)
      as (st1 & -> & _ & _ & Hflushes & Hnext & _).
    right. eauto.
Qed.

Lemma flushes_extended_find (st st' : state) (id : nat) :
  flush_ids_fresh st -> (id < next_flush st)%nat ->
  flushes_extended st st' ->
  find_flush id (flushes st') = find_flush id (flushes st)
  /\ flush_ids_fresh st' /\ (id < next_flush st')%nat.
Proof.
  unfold flush_ids_fresh. intros Hfresh Hid [[-> ->]|(f & -> & ->)]; [done|].
  split; [|split; [|lia]].
  - rewrite find_flush_app. destruct (find_flush id (flushes st)); [done|].
    destruct (Nat.eqb_spec (next_flush st) id); [lia | done].
  - apply Forall_app. split.
    + eapply Forall_impl; [exact Hfresh|]. cbn. lia.
    + constructor; [cbn; lia | constructor].
Qed.

Lemma step_flushes_extended (cfg : config) (st st' : state) (i : input) :
  match i with
  | BulkWriteSettled _ _ | WriteFileSettled _ _ _ => False
  | _ => True
  end ->
  step cfg st i = Ok st' -> flushes_extended st st'.
Proof.
  destruct i as [change token|id start finish|id ok|id ok now| |];
    try done; intros _; cbn [step].
  - destruct (cs_closed st); [intros [= <-]; by left|].
    unfold on_change.
    destruct (on_change_dispatch change _) as [[st1 returned]| |] eqn:Hd; [|done..].
    apply on_change_dispatch_queue in Hd as ((_ & _ & _ & Hf & Hn & _) & _).
    cbn in Hf, Hn.
    destruct returned; intros [= <-]; [left; done|].
    unfold on_change_check. destruct (Nat.leb _ _); [|left; done].
    destruct (flush_then_rearm_flushes cfg FromChange 0 (clearTimeout st1))
      as [[Hf' Hn']|(f & Hf' & Hn')]; cbn in Hf', Hn'.
    + left. split; congruence.
    + right. exists f. split; congruence.
  - case_bool_decide; intros [= <-]; [|by left].
    apply (flush_then_rearm_flushes cfg (FromTimer start) finish
             (with_timers _ _ _ st)).
  - intros [= <-]. by left.
  - intros [= <-]. by left.
Qed.

(** An input that does not settle the call [id] leaves it as it is. *)
Lemma step_other_flush (cfg : config) (st st' : state) (i : input) (id : nat) :
  flush_ids_fresh st -> (id < next_flush st)%nat ->
  other_flush id i ->
  step cfg st i = Ok st' ->
  find_flush id (flushes st') = find_flush id (flushes st)
  /\ flush_ids_fresh st' /\ (id < next_flush st')%nat.
Proof.
  intros Hfresh Hid Hother Hstep.
  destruct i as [change token|id0 start finish|id' ok|id' ok now| |];
    try (apply (flushes_extended_find st st' id Hfresh Hid);
         eapply step_flushes_extended; [|exact Hstep]; exact I).
  - cbn in Hother, Hstep. injection Hstep as <-.
    unfold on_bulkWrite_settled.
    destruct (find_flush id' (flushes st)) as [f|]; [|done].
    destruct (fl_stage f); [|done]. cbn.
    split; [by apply find_put_ne|]. split; [|done].
    by apply put_flush_ids.
  - cbn in Hother, Hstep. injection Hstep as <-.
    unfold on_writeFile_settled.
    destruct (find_flush id' (flushes st)) as [f|]; [|done].
    destruct (fl_stage f); [done|].
    assert (Hgoal : forall st0, flushes st0 = flushes st ->
              next_flush st0 = next_flush st ->
              let st1 := rearm cfg (fl_origin f) now
                           (with_flushes (drop_flush id' (flushes st0))
                                         (next_flush st0) st0) in
              find_flush id (flushes st1) = find_flush id (flushes st)
              /\ flush_ids_fresh st1 /\ (id < next_flush st1)%nat).
    { intros st0 Hf Hn. unfold flush_ids_fresh.
      destruct (fl_origin f); cbn; rewrite Hf, Hn;
        (split; [by apply find_drop_ne|]; split; [|done]; by apply drop_flush_ids). }
    destruct ok; by apply Hgoal.
Qed.

Lemma steps_other_flush (cfg : config) (id : nat) (inputs : list input) :
  forall st st',
    flush_ids_fresh st -> (id < next_flush st)%nat ->
    Forall (other_flush id) inputs ->
    steps cfg st inputs = Ok st' ->
    find_flush id (flushes st') = find_flush id (flushes st)
    /\ flush_ids_fresh st' /\ (id < next_flush st')%nat.
Proof.
  induction inputs as [|i inputs IH]; intros st st' Hfresh Hid Hother; cbn [steps].
  - by intros [= <-].
  - destruct (step cfg st i) as [st1| |] eqn:Hi; [|done..]. intros Hrest.
    apply Forall_cons in Hother as [Hi_other Hother].
    destruct (step_other_flush cfg st st1 i id) as (Hfind1 & Hfresh1 & Hid1);
      [done..|].
    destruct (IH st1 st') as (Hfind & Hfresh' & Hid'); [done..|].
    split; [congruence | done].
Qed.

Lemma step_flush_ids_fresh (cfg : config) (st st' : state) (i : input) :
  flush_ids_fresh st -> step cfg st i = Ok st' -> flush_ids_fresh st'.
Proof.
  intros Hfresh Hstep.
  destruct i as [change token|id0 start finish|id' ok|id' ok now| |];
    try (assert (Hext : flushes_extended st st')
           by (eapply step_flushes_extended; [|exact Hstep]; exact I);
         unfold flush_ids_fresh in *;
         destruct Hext as [[-> ->]|(f & -> & ->)]; [done|];
         apply Forall_app; split;
         [eapply Forall_impl; [exact Hfresh|]; cbn; lia
         | constructor; [cbn; lia | constructor]]).
  - cbn in Hstep. injection Hstep as <-. unfold on_bulkWrite_settled.
    destruct (find_flush id' (flushes st)) as [f|]; [|done].
    destruct (fl_stage f); [|done]. by apply put_flush_ids.
  - cbn in Hstep. injection Hstep as <-. unfold on_writeFile_settled.
    destruct (find_flush id' (flushes st)) as [f|]; [|done].
    destruct (fl_stage f); [done|].
    destruct ok, (fl_origin f); by apply drop_flush_ids.
Qed.

(** Every state of a run has fresh handles, also at the two places where
    [bulkWriteUpdates] is called (after the timer was removed or cleared). *)
Lemma reachable_flush_ids_fresh (cfg : config) (file : option ResumeToken)
    (inputs : list input) (st : state) :
  steps cfg (syncMode cfg file) inputs = Ok st -> flush_ids_fresh st.
Proof.
  apply (steps_invariant cfg flush_ids_fresh).
  - intros st0 i st1. apply step_flush_ids_fresh.
  - unfold syncMode, flush_ids_fresh.
    destruct file as [t|]; [destruct (truthy_doc t)|]; constructor.
Qed.

(** C2.  A flush of a queue that is not empty takes the whole queue, issues
    one bulk write for it and keeps the token of its last update.  Whatever
    happens before the bulk write settles (changes queued meanwhile, other
    flushes), and whether it succeeds or fails, its outcome is logged, the
    batch is neither put back in the queue nor written again, and the save of
    that same token starts; when the file is written it holds the token of
    the last update of the batch. *)
Theorem flush_saves_last_token
    (cfg : config) (o : origin) (st : state) (snapshot : list Update) (u : Update) :
  flush_ids_fresh st ->
  updates st = snapshot ++ [u] ->
  exists st1,
    bulkWriteUpdates o st = (st1, Some (next_flush st))
    /\ updates st1 = []
    /\ sink st1 = sink st ++ [map (operation_of (st_heap st)) (snapshot ++ [u])]
    /\ forall during st2 ok,
        Forall (other_flush (next_flush st)) during ->
        steps cfg st1 during = Ok st2 ->
        exists st3,
          step cfg st2 (BulkWriteSettled (next_flush st) ok) = Ok st3
          /\ console st3
             = console st2 ++ [if ok then LogWrote (length (snapshot ++ [u]))
                               else ErrorBulkWrite]
          /\ updates st3 = updates st2
          /\ sink st3 = sink st2
          /\ forall later st4 now,
              Forall (other_flush (next_flush st)) later ->
              steps cfg st3 later = Ok st4 ->
              exists st5,
                step cfg st4 (WriteFileSettled (next_flush st) true now) = Ok st5
                /\ token_file st5 = Some (resumeToken u)
                /\ updates st5 = updates st4
                /\ sink st5 = sink st4.
Proof.
  intros Hfresh Hq.
  destruct (bulkWriteUpdates_started o st snapshot u Hq)
    as (st1 & Hrun & Hq1 & Hsink1 & Hflushes1 & Hnext1 & _).
  exists st1. split; [done|]. split; [done|]. split; [done|].
  set (id := next_flush st) in *.
  set (f := {| fl_origin := o; fl_stage := AwaitingBulkWrite;
               lastResumeToken := resumeToken u;
               fl_length := length (snapshot ++ [u]) |}) in *.
  assert (Hfind1 : find_flush id (flushes st1) = Some f).
  { rewrite Hflushes1, find_flush_app, find_flush_fresh by done.
    by rewrite Nat.eqb_refl. }
  assert (Hfresh1 : flush_ids_fresh st1).
  { unfold flush_ids_fresh. rewrite Hflushes1, Hnext1. apply Forall_app. split.
    - eapply Forall_impl; [exact Hfresh|]. cbn. lia.
    - constructor; [cbn; lia | constructor]. }
  assert (Hid1 : (id < next_flush st1)%nat) by lia.
  intros during st2 ok Hduring Hsteps.
  destruct (steps_other_flush cfg id during st1 st2)
    as (Hfind2 & Hfresh2 & Hid2); [done..|].
  rewrite Hfind1 in Hfind2.
  eexists. split; [reflexivity|].
  unfold on_bulkWrite_settled. rewrite Hfind2. cbn [fl_stage f].
  split; [done|]. split; [done|]. split; [done|].
  intros later st4 now Hlater Hsteps'.
  set (f' := {| fl_origin := fl_origin f; fl_stage := AwaitingWriteFile;
                lastResumeToken := lastResumeToken f;
                fl_length := fl_length f |}) in *.
  match type of Hsteps' with steps _ ?s _ = _ => set (st3 := s) in * end.
  assert (Hfind3 : find_flush id (flushes st3) = Some f').
  { cbn. by apply (find_put_eq id f). }
  assert (Hfresh3 : flush_ids_fresh st3).
  { unfold flush_ids_fresh. cbn. by apply put_flush_ids. }
  destruct (steps_other_flush cfg id later st3 st4)
    as (Hfind4 & Hfresh4 & Hid4); [done..|].
  rewrite Hfind3 in Hfind4.
  eexists. split; [reflexivity|].
  unfold on_writeFile_settled. rewrite Hfind4. cbn [fl_stage f'].
  by destruct o.
Qed.

Lemma flush_saves_last_token_witness :
  let u1 := {| _id := VString "c1"; update := VUndefined;
               resumeToken := DString "t1" |}%string in
  let u2 := {| _id := VString "c2"; update := VUndefined;
               resumeToken := DString "t2" |}%string in
  let st := push u2 (push u1 (syncMode source_config None)) in
  let late := Change {| operationType := "insert";
                        fullDocument := DObject [("_id", DString "c3")];
                        documentKey := DObject [("_id", DString "c3")];
                        updateDescription := None |}%string (DString "t3") in
  flush_ids_fresh st
  /\ updates st = [u1] ++ [u2]
  /\ exists st1 st2 st3 st5,
      bulkWriteUpdates FromChange st = (st1, Some 0%nat)
      /\ steps source_config st1 [late] = Ok st2
      /\ step source_config st2 (BulkWriteSettled 0 false) = Ok st3
      /\ console st3 = console st2 ++ [ErrorBulkWrite]
      /\ updates st3 = updates st2
      /\ sink st3 = sink st2
      /\ step source_config st3 (WriteFileSettled 0 true 7) = Ok st5
      /\ token_file st5 = Some (DString "t2").
Proof.
  intros u1 u2 st late.
  assert (Hfresh : flush_ids_fresh st) by constructor.
  split; [exact Hfresh|]. split; [reflexivity|].
  destruct (flush_saves_last_token source_config FromChange st [u1] u2 Hfresh eq_refl)
    as (st1 & Hrun & _ & _ & Hrest).
  assert (Hsteps : exists st2, steps source_config st1 [late] = Ok st2).
  { vm_compute in Hrun. injection Hrun as <-. vm_compute. eauto. }
  destruct Hsteps as (st2 & Hsteps).
  assert (Hother : Forall (other_flush (next_flush st)) [late])
    by (by repeat constructor).
  destruct (Hrest [late] st2 false Hother Hsteps)
    as (st3 & Hstep3 & Hconsole & Hqueue & Hsink & Hlater).
  destruct (Hlater [] st3 7 ltac:(constructor) eq_refl)
    as (st5 & Hstep5 & Hfile & _).
  exists st1, st2, st3, st5. repeat split; assumption.
Defined.

(** * Further properties *)

(** ** [anonymizeCustomer]: what it leaves alone, and when it throws *)

Lemma store_prop_existing_keys (o : object) (k : string) (v : value) :
  lookup_prop o k <> VUndefined -> keys (store_prop o k v) = keys o.
Proof.
  unfold keys. induction o as [|[k' v'] o IH]; cbn; [done|].
  destruct (String.eqb_spec k' k) as [->|Hne]; cbn; [done|].
  intros Hk. by rewrite IH.
Qed.

Lemma keys_anonymized_line (key : string) (o : object) :
  keys (anonymized_line key o) = keys o.
Proof.
  unfold anonymized_line, put_if_truthy.
  destruct (truthy (lookup_prop o key)) eqn:Ht; [|done].
  apply store_prop_existing_keys. intros Hu. by rewrite Hu in Ht.
Qed.

Lemma typed_customer_address (h : heap) (c a : loc) :
  typed_customer h c = true ->
  lookup_prop (object_at h c) "address" = VObject a ->
  (a < length h)%nat.
Proof.
  unfold typed_customer. intros Htyped Ha. rewrite Ha in Htyped. cbn in Htyped.
  rewrite !andb_true_iff, !bool_decide_eq_true in Htyped. tauto.
Qed.

(** X1.  On a typed record with an address, the address keeps the same
    fields in the same order, and every field other than line1, line2 and
    postcode (city, state, country, ...) keeps its value. *)
Theorem anonymizeCustomer_keeps_other_address_fields (h : heap) (c a : loc) :
  typed_customer h c = true ->
  lookup_prop (object_at h c) "address" = VObject a ->
  exists h',
    anonymizeCustomer (VObject c) h = Ok (VObject (length h), h')
    /\ keys (object_at h' a) = keys (object_at h a)
    /\ forall k, k ∉ ["line1"; "line2"; "postcode"]%string ->
                 lookup_prop (object_at h' a) k = lookup_prop (object_at h a) k.
Proof.
  intros Htyped Ha. exists (anonymized_heap h c).
  split; [by apply anonymizeCustomer_typed|].
  rewrite anonymized_heap_address by (done || by eapply typed_customer_address).
  unfold anonymized_address. split.
  - by rewrite !keys_anonymized_line.
  - intros k Hk. rewrite !not_elem_of_cons in Hk. destruct Hk as (H1 & H2 & H3 & _).
    by rewrite !lookup_anonymized_line.
Qed.

Lemma anonymizeCustomer_keeps_other_address_fields_witness :
  let h := [[("line1", VString "x"); ("city", VString "Paris")];
            [("address", VObject 0)]]%string in
  typed_customer h 1 = true
  /\ exists h',
    anonymizeCustomer (VObject 1) h = Ok (VObject 2, h')
    /\ keys (object_at h' 0%nat) = ["line1"; "city"]%string
    /\ forall k, k ∉ ["line1"; "line2"; "postcode"]%string ->
                 lookup_prop (object_at h' 0%nat) k
                 = lookup_prop (object_at h 0%nat) k.
Proof.
  split; [reflexivity|].
  exact (anonymizeCustomer_keeps_other_address_fields
           [[("line1", VString "x"); ("city", VString "Paris")];
            [("address", VObject 0)]]%string 1%nat 0%nat eq_refl eq_refl).
Defined.

(** X2.  On a typed record the result is a newly allocated object, the heap
    grows by that object alone, and no object that existed before is written
    except the address object of the record. *)
Theorem anonymizeCustomer_writes_only_address (h : heap) (c : loc) :
  typed_customer h c = true ->
  exists h',
    anonymizeCustomer (VObject c) h = Ok (VObject (length h), h')
    /\ length h' = S (length h)
    /\ forall l, (l < length h)%nat ->
                 lookup_prop (object_at h c) "address" <> VObject l ->
                 object_at h' l = object_at h l.
Proof.
  intros Htyped. exists (anonymized_heap h c).
  split; [by apply anonymizeCustomer_typed|].
  destruct (anonymized_heap_length h c) as (h0 & Heq & Hlen).
  split; [rewrite Heq, length_app; cbn; lia|].
  intros l Hl Hne. unfold anonymized_heap.
  destruct (lookup_prop (object_at h c) "address") as [| | | | |a] eqn:Ha;
    try by apply object_at_app_l.
  rewrite object_at_app_l by (by rewrite length_insert).
  rewrite object_at_insert by (by eapply typed_customer_address).
  case_decide; [congruence | done].
Qed.

Lemma anonymizeCustomer_writes_only_address_witness :
  let h := [[("line1", VString "x")];
            [("firstName", VString "Jane"); ("address", VObject 0)]]%string in
  exists h',
    anonymizeCustomer (VObject 1) h = Ok (VObject 2, h')
    /\ length h' = 3%nat
    /\ forall l, (l < 2)%nat ->
                 lookup_prop (object_at h 1%nat) "address" <> VObject l ->
                 object_at h' l = object_at h l.
Proof.
  exact (anonymizeCustomer_writes_only_address
           [[("line1", VString "x")];
            [("firstName", VString "Jane"); ("address", VObject 0)]]%string
           1%nat eq_refl).
Defined.

(** X3.  A name or an email that is truthy and not a string (a number
    other than zero, true, an object) makes [anonymizeCustomer] throw. *)
Theorem anonymizeCustomer_throws_on_non_string (h : heap) (c : loc) :
  (c < length h)%nat ->
  let firstName := lookup_prop (object_at h c) "firstName" in
  let lastName := lookup_prop (object_at h c) "lastName" in
  let email := lookup_prop (object_at h c) "email" in
  (truthy firstName = true /\ textual firstName = false)
  \/ (textual firstName = true
      /\ truthy lastName = true /\ textual lastName = false)
  \/ (textual firstName = true /\ textual lastName = true
      /\ truthy email = true /\ textual email = false) ->
  anonymizeCustomer (VObject c) h = Throw.
Proof.
  intros Hc firstName lastName email Hbad.
  unfold anonymizeCustomer.
  unfold bind at 1. cbn [new_object].
  unfold bind at 1. rewrite get_prop_object, object_at_app_l by done.
  fold firstName.
  destruct Hbad as [[Ht Hn]|[(Hfirst & Ht & Hn)|(Hfirst & Hlast & Ht & Hn)]].
  { unfold bind at 1. rewrite Ht. by destruct firstName. }
  all: unfold bind at 1; rewrite anonymize_name by done.
  all: unfold bind at 1; rewrite get_prop_object, object_at_app_l by done.
  all: fold lastName.
  { unfold bind at 1. rewrite Ht. by destruct lastName. }
  unfold bind at 1. rewrite anonymize_name by done.
  unfold bind at 1. rewrite get_prop_object, object_at_app_l by done.
  fold email. unfold bind at 1. rewrite Ht. by destruct email.
Qed.

Lemma anonymizeCustomer_throws_on_non_string_witness :
  anonymizeCustomer (VObject 0) [[("firstName", VNumber 7)]]%string = Throw.
Proof.
  refine (anonymizeCustomer_throws_on_non_string
            [[("firstName", VNumber 7)]]%string 0%nat _ _).
  - cbn. lia.
  - left. split; reflexivity.
Defined.

(** ** [syncMode]: nothing is lost or written twice by a flush *)

Lemma accounted_flush_then_rearm (cfg : config) (o : origin) (now : Z) (st : state) :
  accounted (flush_then_rearm cfg o now st) = accounted st.
Proof.
  unfold flush_then_rearm, accounted.
  destruct (updates st) as [|u0 q] eqn:Hq.
  - rewrite bulkWriteUpdates_empty by done. destruct o; cbn; by rewrite Hq.
  - destruct (nonempty_snoc (u0 :: q)) as (q' & u & Hsnoc); [cbn; lia|].
    rewrite <- Hq in Hsnoc.
    destruct (bulkWriteUpdates_started o st q' u Hsnoc)
      as (st1 & -> & Hq1 & Hsink1 & _).
    assert (Heq : u0 :: q = q' ++ [u]) by congruence.
    rewrite Hq1, Hsink1, Heq, concat_app, length_app. cbn.
    rewrite app_nil_r, length_map. lia.
Qed.

Lemma on_bulkWrite_settled_same (id : nat) (ok : bool) (st : state) :
  let st' := on_bulkWrite_settled id ok st in
  sink st' = sink st /\ updates st' = updates st /\ token_file st' = token_file st
  /\ timers st' = timers st /\ cs_closed st' = cs_closed st.
Proof.
  unfold on_bulkWrite_settled.
  destruct (find_flush id (flushes st)) as [f|]; [|done].
  by destruct (fl_stage f).
Qed.

Lemma on_writeFile_settled_same (cfg : config) (id : nat) (ok : bool) (now : Z)
    (st : state) :
  let st' := on_writeFile_settled cfg id ok now st in
  sink st' = sink st /\ updates st' = updates st.
Proof.
  unfold on_writeFile_settled.
  destruct (find_flush id (flushes st)) as [f|]; [|done].
  destruct (fl_stage f); [done|]. by destruct ok, (fl_origin f).
Qed.

(** X4.  No event loses a pending update or writes it twice: the number of
    updates in the bulk writes issued plus the number still queued is kept by
    every event other than a change, and a change adds at most one. *)
Theorem step_accounts_for_updates (cfg : config) (st st' : state) (i : input) :
  step cfg st i = Ok st' ->
  (accounted st <= accounted st' <= S (accounted st))%nat
  /\ match i with
     | Change _ _ => True
     | _ => accounted st' = accounted st
     end.
Proof.
  destruct i as [change token|id start finish|id ok|id ok now| |]; cbn [step].
  - destruct (cs_closed st); [intros [= <-]; split; [lia|done]|].
    unfold on_change.
    destruct (on_change_dispatch change _) as [[st1 returned]| |] eqn:Hd; [|done..].
    apply on_change_dispatch_queue in Hd as ((_ & _ & _ & _ & _ & _ & Hsink) & _ & Hq).
    cbn in Hsink, Hq.
    assert (Hacc : (accounted st <= accounted st1 <= S (accounted st))%nat).
    { unfold accounted. rewrite Hsink.
      destruct Hq as [->|[u ->]]; [lia|]. rewrite length_app. cbn. lia. }
    destruct returned; intros [= <-]; [done|].
    split; [|done]. unfold on_change_check.
    destruct (Nat.leb _ _); [|done].
    by rewrite accounted_flush_then_rearm.
  - case_bool_decide; intros [= <-]; [|split; [lia|done]].
    unfold on_timeout. rewrite accounted_flush_then_rearm.
    unfold accounted. cbn. split; [lia|done].
  - intros [= <-]. unfold accounted.
    destruct (on_bulkWrite_settled_same id ok st) as (-> & -> & _).
    split; [lia|done].
  - intros [= <-]. unfold accounted.
    destruct (on_writeFile_settled_same cfg id ok now st) as (-> & ->).
    split; [lia|done].
  - intros [= <-]. unfold accounted. cbn. split; [lia|done].
  - intros [= <-]. unfold accounted. cbn. split; [lia|done].
Qed.

Lemma step_accounts_for_updates_witness :
  let u := {| _id := VString "c1"; update := VUndefined;
              resumeToken := DString "t1" |}%string in
  let st := push u (syncMode source_config None) in
  exists st',
    step source_config st (Timeout 0 0 5) = Ok st'
    /\ updates st' = []
    /\ accounted st' = accounted st.
Proof.
  intros u st.
  destruct (step source_config st (Timeout 0 0 5)) as [st'| |] eqn:Hstep;
    [|vm_compute in Hstep; discriminate..].
  exists st'. split; [reflexivity|]. split.
  - vm_compute in Hstep. by injection Hstep as <-.
  - exact (proj2 (step_accounts_for_updates source_config st st' _ Hstep)).
Defined.

(** ** [syncMode]: after [cancel] *)

Lemma stopped_step (cfg : config) (st st' : state) (i : input) :
  stopped st -> step cfg st i = Ok st' ->
  stopped st' /\ sink st' = sink st /\ updates st' = updates st
  /\ token_file st' = token_file st.
Proof.
  intros (Hclosed & Htimers & Hflushes).
  destruct i as [change token|id start finish|id ok|id ok now| |]; cbn [step].
  - rewrite Hclosed. by intros [= <-].
  - rewrite Htimers. cbn. by intros [= <-].
  - unfold on_bulkWrite_settled. rewrite Hflushes. cbn. by intros [= <-].
  - unfold on_writeFile_settled. rewrite Hflushes. cbn. by intros [= <-].
  - intros [= <-]. by repeat split.
  - intros [= <-]. unfold stopped. cbn. rewrite Htimers. by repeat split.
Qed.

(** X5.  Shutdown discards the queue.  When [cancel] runs while no flush is
    in flight and the only pending timer is [timerId], nothing that happens
    afterwards issues a bulk write or saves a token: the updates still queued
    are never written. *)
Theorem cancel_discards_queue
    (cfg : config) (st st' : state) (inputs : list input) :
  flushes st = [] ->
  Forall (fun t : nat * Z => t.1 = timerId st) (timers st) ->
  steps cfg st (Cancel :: inputs) = Ok st' ->
  sink st' = sink st /\ updates st' = updates st
  /\ token_file st' = token_file st /\ timers st' = [].
Proof.
  intros Hflushes Htimers. cbn [steps step].
  set (st0 := with_stream (cs_resumeToken st) true (clearTimeout st)).
  assert (Hstopped : stopped st0).
  { repeat split; [|done]. cbn.
    induction Htimers as [|t ts Ht _ IH]; [done|].
    rewrite filter_cons. case_decide; [done | exact IH]. }
  intros Hrun.
  enough (Hinv : stopped st' /\ sink st' = sink st0 /\ updates st' = updates st0
                 /\ token_file st' = token_file st0).
  { destruct Hinv as ((_ & Ht & _) & Hs & Hu & Hf). by repeat split. }
  revert Hrun.
  apply (steps_invariant cfg
           (fun s => stopped s /\ sink s = sink st0 /\ updates s = updates st0
                     /\ token_file s = token_file st0)); [|done].
  intros s i s' (Hs & Hsink & Hq & Hfile) Hstep.
  destruct (stopped_step cfg s s' i Hs Hstep) as (Hs' & -> & -> & ->). done.
Qed.

Lemma cancel_discards_queue_witness :
  let u := {| _id := VString "c1"; update := VUndefined;
              resumeToken := DString "t1" |}%string in
  let st := push u (syncMode source_config None) in
  exists st',
    steps source_config st [Cancel; Timeout 0 0 5] = Ok st'
    /\ sink st' = [] /\ updates st' = [u]
    /\ token_file st' = None /\ timers st' = [].
Proof.
  intros u st.
  destruct (steps source_config st [Cancel; Timeout 0 0 5]) as [st'| |] eqn:Hrun;
    [|vm_compute in Hrun; discriminate..].
  exists st'. split; [reflexivity|].
  refine (cancel_discards_queue source_config st st' [Timeout 0 0 5] eq_refl _ Hrun).
  repeat constructor.
Defined.

(** ** [syncMode]: changes that are neither inserts nor updates *)

(** X6.  A change of another operation type (delete, replace, ...) is
    ignored without a log: while the queue is below the maximum, the state is
    as before but for the resume token of the stream. *)
Theorem other_change_ignored
    (cfg : config) (st : state) (change : ChangeStreamDocument) (token : ResumeToken) :
  cs_closed st = false ->
  operationType change <> "insert"%string ->
  operationType change <> "update"%string ->
  (length (updates st) < MAX_BATCH_SIZE cfg)%nat ->
  step cfg st (Change change token) = Ok (with_stream token false st).
Proof.
  intros Hopen Hinsert Hupdate Hq. cbn [step]. rewrite Hopen.
  unfold on_change, on_change_dispatch, on_change_insert, on_change_update.
  apply String.eqb_neq in Hinsert, Hupdate.
  cbn [operationType]. rewrite Hinsert, Hupdate.
  unfold on_change_check. cbn [updates with_stream].
  destruct (Nat.leb_spec (MAX_BATCH_SIZE cfg) (length (updates st))); [lia|].
  by rewrite Hopen.
Qed.

Lemma other_change_ignored_witness :
  let change := {| operationType := "replace";
                   fullDocument := DObject [("_id", DString "c1");
                                            ("firstName", DString "Jane")];
                   documentKey := DObject [("_id", DString "c1")];
                   updateDescription := None |}%string in
  step source_config (syncMode source_config None) (Change change (DString "t1"))
  = Ok (with_stream (DString "t1") false (syncMode source_config None)).
Proof.
  refine (other_change_ignored source_config (syncMode source_config None)
            _ (DString "t1") eq_refl _ _ _); [discriminate..|].
  cbn. lia.
Defined.

(** ** [createUpdate]: the flag [rewriteFullAddress] *)







(** ** [convertCustomerUpdateToDotNotation] in general *)

Lemma lookup_notin (o : object) (k : string) :
  k ∉ keys o -> lookup_prop o k = VUndefined.
Proof.
  unfold keys. induction o as [|[k' v] o IH]; cbn; [done|].
  rewrite not_elem_of_cons. intros [Hne Hk].
  destruct (String.eqb_spec k' k); [congruence | by apply IH].
Qed.

(** Writing a list of properties one after the other. *)
Lemma keys_fold_store {X} (kf : X -> string) (vf : X -> value) (xs : list X)
    (o : object) (k : string) :
  k ∈ keys (fold_left (fun o x => store_prop o (kf x) (vf x)) xs o)
  <-> k ∈ keys o \/ k ∈ map kf xs.
Proof.
  revert o. induction xs as [|x xs IH]; intros o; cbn [fold_left map].
  - rewrite elem_of_nil. tauto.
  - rewrite IH. unfold keys at 1. rewrite keys_store, elem_of_cons.
    unfold keys. tauto.
Qed.

Lemma lookup_fold_store {X} (kf : X -> string) (vf : X -> value) (xs : list X)
    (o : object) (k : string) (v : value) :
  (forall x, x ∈ xs -> kf x = k -> vf x = v) ->
  lookup_prop (fold_left (fun o x => store_prop o (kf x) (vf x)) xs o) k
  = if bool_decide (k ∈ map kf xs) then v else lookup_prop o k.
Proof.
  revert o. induction xs as [|x xs IH]; intros o Hv; cbn [fold_left map].
  - by rewrite bool_decide_eq_false_2 by apply not_elem_of_nil.
  - rewrite IH by (intros y Hy; apply Hv; by apply list_elem_of_further).
    destruct (decide (k ∈ map kf xs)) as [Hin|Hnin].
    + rewrite !bool_decide_eq_true_2; [done| |done]. by apply list_elem_of_further.
    + rewrite (bool_decide_eq_false_2 _ Hnin).
      destruct (decide (kf x = k)) as [Hk|Hk].
      * rewrite bool_decide_eq_true_2 by (rewrite <- Hk; apply list_elem_of_here).
        rewrite <- Hk at 1. rewrite lookup_store_eq.
        apply Hv; [apply list_elem_of_here | done].
      * rewrite bool_decide_eq_false_2
          by (rewrite elem_of_cons; intros [?|?]; [congruence | done]).
        by rewrite lookup_store_ne.
Qed.

Lemma convert_group_loop (h : heap) (c g : loc) (nestedKeys : list string) :
  (c < length h)%nat -> (g < length h)%nat ->
  lookup_prop (object_at h c) "address" = VObject g ->
  forall update : object,
    for_each nestedKeys (fun nestedKey =>
      let* group' := get_prop (VObject c) "address" in
      let* v := get_prop group' nestedKey in
      set_prop (VObject (length h)) ("address" +:+ "." +:+ nestedKey) v)
      (h ++ [update])
    = Ok (tt, h ++ [fold_left (fun update nestedKey =>
                                 store_prop update ("address" +:+ "." +:+ nestedKey)
                                            (lookup_prop (object_at h g) nestedKey))
                              nestedKeys update]).
Proof.
  intros Hc Hg Hgroup. induction nestedKeys as [|nk nks IH]; intros update;
    cbn [for_each fold_left]; [done|].
  unfold bind at 1. unfold bind at 1.
  rewrite get_prop_object, object_at_app_l, Hgroup by done.
  unfold bind at 1. rewrite get_prop_object, object_at_app_l by done.
  rewrite set_prop_fresh. apply IH.
Qed.

Lemma convert_loop (h : heap) (c : loc) (ks : list string) :
  (c < length h)%nat ->
  dot_convertible h (object_at h c) = true ->
  forall update : object,
    for_each ks (fun key =>
      if String.eqb key "address" then
        let* group := get_prop (VObject c) key in
        let* nestedKeys := own_keys group in
        for_each nestedKeys (fun nestedKey =>
          let* group' := get_prop (VObject c) key in
          let* v := get_prop group' nestedKey in
          set_prop (VObject (length h)) (key +:+ "." +:+ nestedKey) v)
      else
        let* v := get_prop (VObject c) key in
        set_prop (VObject (length h)) key v)
      (h ++ [update])
    = Ok (tt, h ++ [fold_left (dot_step h (object_at h c)) ks update]).
Proof.
  intros Hc Hconv. induction ks as [|k ks IH]; intros update;
    cbn [for_each fold_left]; [done|].
  unfold bind at 1. unfold dot_step at 2.
  destruct (String.eqb_spec k "address") as [->|Hne].
  - unfold bind at 1. rewrite get_prop_object, object_at_app_l by done.
    unfold dot_convertible in Hconv. unfold dot_group.
    destruct (lookup_prop (object_at h c) "address") as [| |b|n|s|g] eqn:Hgroup;
      unfold bind at 1; cbn [own_keys for_each ret]; try apply IH.
    + rewrite Hconv. cbn [for_each ret]. apply IH.
    + apply bool_decide_eq_true in Hconv.
      rewrite object_at_app_l by done. fold (keys (object_at h g)).
      rewrite (convert_group_loop h c g) by done. apply IH.
  - unfold bind at 1. rewrite get_prop_object, object_at_app_l by done.
    rewrite set_prop_fresh. apply IH.
Qed.

Lemma convert_dot_notation (h : heap) (c : loc) :
  (c < length h)%nat ->
  dot_convertible h (object_at h c) = true ->
  convertCustomerUpdateToDotNotation (VObject c) h
  = Ok (VObject (length h), h ++ [dot_notation h (object_at h c)]).
Proof.
  intros Hc Hconv. unfold convertCustomerUpdateToDotNotation.
  unfold bind at 1. cbn [new_object].
  unfold bind at 1. cbn [own_keys]. rewrite object_at_app_l by done.
  unfold bind at 1. fold (keys (object_at h c)).
  by rewrite (convert_loop h c) by done.
Qed.

Lemma dotted_path_not_bare (f : string) :
  "address"%string <> "address" +:+ "." +:+ f.
Proof. intros H. vm_compute in H. congruence. Qed.

Lemma dotted_path_injective (f f' : string) :
  "address" +:+ "." +:+ f = "address" +:+ "." +:+ f' -> f = f'.
Proof. intros H. vm_compute in H. congruence. Qed.

Lemma dotted_path_dotted (f : string) :
  dotted_key ("address" +:+ "." +:+ f) = true.
Proof. reflexivity. Qed.

Lemma elem_of_map_iff {X Y} (kf : X -> Y) (xs : list X) (y : Y) :
  y ∈ map kf xs <-> exists x, x ∈ xs /\ y = kf x.
Proof.
  rewrite list_elem_of_In, in_map_iff. split.
  - intros (x & <- & Hx). exists x. by rewrite list_elem_of_In.
  - intros (x & Hx & ->). exists x. by rewrite <- list_elem_of_In.
Qed.

Lemma keys_dot_group (h : heap) (v : value) (update : object) (k : string) :
  k ∈ keys (dot_group h v update)
  <-> k ∈ keys update
      \/ exists g f, v = VObject g /\ f ∈ keys (object_at h g)
                     /\ k = "address" +:+ "." +:+ f.
Proof.
  unfold dot_group. destruct v as [| | | | |g];
    try (split; [tauto | intros [?|(g' & f & ? & _)]; [done | discriminate]]).
  rewrite (keys_fold_store (fun f => "address" +:+ "." +:+ f)), elem_of_map_iff.
  split.
  - intros [?|(f & Hf & ->)]; [tauto | right; eauto].
  - intros [?|(g' & f & [= <-] & Hf & ->)]; [tauto | right; eauto].
Qed.

Lemma keys_dot_fold (h : heap) (o : object) (ks : list string) (k : string) :
  forall update : object,
    k ∈ keys (fold_left (dot_step h o) ks update)
    <-> k ∈ keys update
        \/ (k ∈ ks /\ k <> "address"%string)
        \/ ("address"%string ∈ ks
            /\ exists g f, lookup_prop o "address" = VObject g
                           /\ f ∈ keys (object_at h g)
                           /\ k = "address" +:+ "." +:+ f).
Proof.
  induction ks as [|k0 ks IH]; intros update; cbn [fold_left].
  - rewrite !elem_of_nil. tauto.
  - rewrite IH, !elem_of_cons. unfold dot_step.
    destruct (String.eqb_spec k0 "address") as [->|Hne].
    + rewrite keys_dot_group. split.
      * intros [[?|?]|[[? ?]|[? ?]]]; try tauto; right; right; tauto.
      * intros [?|[[[->|?] ?]|[_ ?]]]; try tauto.
    + unfold keys at 1. rewrite keys_store. fold (keys update). split.
      * intros [[->|?]|[[? ?]|[? ?]]]; try tauto.
      * intros [?|[[[->|?] ?]|[[?|?] ?]]]; try tauto. congruence.
Qed.

Lemma lookup_dot_group_other (h : heap) (v : value) (update : object) (k : string) :
  dotted_key k = false ->
  lookup_prop (dot_group h v update) k = lookup_prop update k.
Proof.
  intros Hk. unfold dot_group. destruct v as [| | | | |g]; try done.
  rewrite (lookup_fold_store (fun f => "address" +:+ "." +:+ f) _ _ _ _ VUndefined).
  - rewrite bool_decide_eq_false_2; [done|].
    intros (f & _ & ->)%elem_of_map_iff. by rewrite dotted_path_dotted in Hk.
  - intros f _ <-. by rewrite dotted_path_dotted in Hk.
Qed.

Lemma lookup_dot_own (h : heap) (o : object) (ks : list string) (k : string) :
  dotted_key k = false -> k <> "address"%string ->
  forall update : object,
    lookup_prop (fold_left (dot_step h o) ks update) k
    = if bool_decide (k ∈ ks) then lookup_prop o k else lookup_prop update k.
Proof.
  intros Hk Hne. induction ks as [|k0 ks IH]; intros update; cbn [fold_left].
  - by rewrite bool_decide_eq_false_2 by apply not_elem_of_nil.
  - rewrite IH. unfold dot_step.
    destruct (decide (k ∈ ks)) as [Hin|Hnin].
    + rewrite !bool_decide_eq_true_2; [done| |done]. by apply list_elem_of_further.
    + rewrite (bool_decide_eq_false_2 _ Hnin).
      destruct (String.eqb_spec k0 "address") as [->|Hk0].
      * rewrite lookup_dot_group_other by done.
        by rewrite bool_decide_eq_false_2
          by (rewrite elem_of_cons; intros [?|?]; [congruence | done]).
      * destruct (decide (k0 = k)) as [->|Hk0k].
        -- rewrite bool_decide_eq_true_2 by apply list_elem_of_here.
           apply lookup_store_eq.
        -- rewrite bool_decide_eq_false_2
             by (rewrite elem_of_cons; intros [?|?]; [congruence | done]).
           by apply lookup_store_ne.
Qed.

Lemma lookup_dot_nested (h : heap) (o : object) (g : loc) (f : string)
    (ks : list string) :
  Forall (fun k => dotted_key k = false) ks ->
  lookup_prop o "address" = VObject g ->
  f ∈ keys (object_at h g) ->
  forall update : object,
    lookup_prop (fold_left (dot_step h o) ks update) ("address" +:+ "." +:+ f)
    = if bool_decide ("address"%string ∈ ks)
      then lookup_prop (object_at h g) f
      else lookup_prop update ("address" +:+ "." +:+ f).
Proof.
  intros Hks Hgroup Hf. induction Hks as [|k0 ks Hk0 _ IH]; intros update;
    cbn [fold_left].
  - by rewrite bool_decide_eq_false_2 by apply not_elem_of_nil.
  - rewrite IH. unfold dot_step.
    destruct (String.eqb_spec k0 "address") as [->|Hne].
    + rewrite (bool_decide_eq_true_2 ("address"%string ∈ "address"%string :: ks))
        by apply list_elem_of_here.
      rewrite Hgroup. unfold dot_group.
      rewrite (lookup_fold_store (fun f => "address" +:+ "." +:+ f) _ _ _ _
                 (lookup_prop (object_at h g) f)).
      * rewrite (bool_decide_eq_true_2 (_ ∈ map _ _))
          by (apply elem_of_map_iff; eauto).
        by destruct (bool_decide _).
      * by intros f' _ ->%dotted_path_injective.
    + rewrite lookup_store_ne
        by (intros ->; by rewrite dotted_path_dotted in Hk0).
      apply (f_equal (fun b : bool => if b then _ else _)).
      apply bool_decide_ext. rewrite elem_of_cons.
      split; [by right | intros [?|?]; [congruence | done]].
Qed.



(** ** [createUpdate] on a delta of names *)

Lemma createUpdate_keys_other (uf c : loc) (flag : bool) (ks : list string) :
  forallb (fun k => other_key k && proto_free k) ks = true -> uf <> c ->
  forall h : heap,
    (c < length h)%nat ->
    createUpdate_keys (VObject uf) (VObject c) flag ks h
    = Ok (flag,
          <[c := fold_left (fun o k => store_prop o k (lookup_prop (object_at h uf) k))
                           ks (object_at h c)]> h).
Proof.
  intros Hks Hne. induction ks as [|k ks IH]; intros h Hc;
    cbn [createUpdate_keys fold_left].
  - by rewrite insert_object_at.
  - cbn [forallb] in Hks. apply andb_true_iff in Hks as [Hk Hks].
    apply andb_true_iff in Hk as [Hk Hp].
    unfold bind at 1. rewrite createUpdate_key_other by done.
    rewrite IH by (done || by rewrite length_insert).
    rewrite !object_at_insert by done.
    destruct (decide (c = c)) as [_|]; [|done].
    destruct (decide (c = uf)) as [|_]; [congruence|].
    by rewrite list_insert_insert_eq.
Qed.

Lemma lookup_fold_copy (o : object) (ks : list string) (k : string) :
  lookup_prop (fold_left (fun u k => store_prop u k (lookup_prop o k)) ks []) k
  = if bool_decide (k ∈ ks) then lookup_prop o k else VUndefined.
Proof.
  rewrite (lookup_fold_store (fun k => k) (fun k => lookup_prop o k) ks [] k
             (lookup_prop o k)) by (by intros x _ ->).
  by rewrite map_id.
Qed.

Lemma other_keys_no_address (ks : list string) :
  forallb (fun k => other_key k && proto_free k) ks = true -> "address"%string ∉ ks.
Proof.
  intros Hks Hin. rewrite forallb_forall in Hks.
  apply list_elem_of_In, Hks in Hin. done.
Qed.

(** X9.  For a delta that touches no address field and has no key
    __proto__ (assigning it would not create an ordinary property),
    [createUpdate] leaves [rewriteFullAddress] false and returns an update
    that holds exactly those of firstName, lastName and email to which the
    delta gives a truthy value, each anonymised; every other field of the
    delta is dropped, and no address key is written. *)
Theorem createUpdate_names_only (h : heap) (updatedFields : loc) :
  names_only_delta h updatedFields = true ->
  let delta := object_at h updatedFields in
  exists customer update h',
    createUpdate_stage1 (VObject updatedFields) h
    = Ok ((false, VObject (length h)), h ++ [customer])
    /\ createUpdate (VObject updatedFields) h = Ok (VObject (S (S (length h))), h')
    /\ h' = h ++ [customer; anonymous_of delta; update]
    /\ (forall k, k ∈ keys update
                  <-> k ∈ ["firstName"; "lastName"; "email"]%string
                      /\ truthy (lookup_prop delta k) = true)
    /\ lookup_prop update "firstName"
       = (if truthy (lookup_prop delta "firstName")
          then token_value (lookup_prop delta "firstName") else VUndefined)
    /\ lookup_prop update "lastName"
       = (if truthy (lookup_prop delta "lastName")
          then token_value (lookup_prop delta "lastName") else VUndefined)
    /\ lookup_prop update "email"
       = (if truthy (lookup_prop delta "email")
          then email_value (lookup_prop delta "email") else VUndefined).
Proof.
  intros Hdelta delta. unfold names_only_delta in Hdelta.
  rewrite !andb_true_iff, bool_decide_eq_true in Hdelta.
  destruct Hdelta as [[Huf Hother] Hnames]. fold delta in Hother, Hnames.
  set (customer := fold_left (fun u k => store_prop u k (lookup_prop delta k))
                             (keys delta) []).
  assert (Hcopy : forall k, lookup_prop customer k = lookup_prop delta k).
  { intros k. unfold customer. rewrite lookup_fold_copy. case_bool_decide; [done|].
    symmetry. by apply lookup_notin. }
  assert (Hno : lookup_prop delta "address" = VUndefined).
  { apply lookup_notin. by apply other_keys_no_address. }
  assert (Hanon : anonymous_of customer = anonymous_of delta).
  { unfold anonymous_of. by rewrite !Hcopy. }
  assert (Hstage1 : createUpdate_stage1 (VObject updatedFields) h
                    = Ok ((false, VObject (length h)), h ++ [customer])).
  { unfold createUpdate_stage1. unfold bind at 1. cbn [new_object].
    unfold bind at 1. cbn [own_keys]. rewrite object_at_app_l by done.
    fold delta. fold (keys delta). unfold bind at 1.
    rewrite createUpdate_keys_other;
      [|done|lia|rewrite length_app; cbn; lia].
    rewrite object_at_app_l, object_at_app_r, insert_fresh by done. done. }
  set (h1 := h ++ [customer]).
  assert (Hlen1 : length h1 = S (length h)) by (unfold h1; rewrite length_app; cbn; lia).
  assert (Hat1 : object_at h1 (length h) = customer) by apply object_at_app_r.
  assert (Htyped : typed_customer h1 (length h) = true).
  { unfold typed_customer. rewrite Hat1, !Hcopy, Hno.
    unfold typed_names in Hnames. cbn [forallb] in Hnames.
    rewrite !andb_true_iff in Hnames. destruct Hnames as (N1 & N2 & N3 & _).
    rewrite N1, N2, N3. cbn [typed_address]. rewrite !andb_true_r.
    apply bool_decide_eq_true. lia. }
  assert (Hheap2 : anonymized_heap h1 (length h) = h1 ++ [anonymous_of delta]).
  { unfold anonymized_heap. by rewrite Hat1, Hcopy, Hno, Hanon. }
  set (anon := anonymous_of delta) in *.
  set (h2 := h1 ++ [anon]).
  assert (Hat2 : object_at h2 (length h1) = anon) by apply object_at_app_r.
  assert (Haddress : lookup_prop anon "address" = VUndefined).
  { unfold anon, anonymous_of. rewrite !lookup_put_if_truthy, Hno.
    cbn. by rewrite !andb_false_r. }
  assert (Hconv : dot_convertible h2 (object_at h2 (length h1)) = true).
  { unfold dot_convertible. by rewrite Hat2, Haddress. }
  assert (Hlen2 : length h2 = S (S (length h)))
    by (unfold h2; rewrite length_app, Hlen1; cbn; lia).
  destruct (fun H => convert_dot_notation h2 (length h1) H Hconv) as [].
  { rewrite Hlen2, Hlen1. lia. }
  set (update := dot_notation h2 anon).
  assert (Hkeys : forall k, k ∈ keys update
                            <-> k ∈ ["firstName"; "lastName"; "email"]%string
                                /\ truthy (lookup_prop delta k) = true).
  { intros k. unfold update, dot_notation. rewrite keys_dot_fold.
    change (keys []) with (@nil string). rewrite elem_of_nil.
    unfold anon at 1 2. rewrite !anonymous_of_keys. unfold anonymizable.
    rewrite !elem_of_cons, !elem_of_nil. split.
    - intros [[]|[[[[->|[->|[->|[->|[]]]]] Ht] Hne]|(_ & g & f & Hg & _)]];
        try tauto; congruence.
    - intros [[->|[->|[->|[]]]] Ht]; right; left; (split; [tauto | discriminate]). }
  assert (Hvalue : forall k, k ∈ ["firstName"; "lastName"; "email"]%string ->
                     lookup_prop update k = lookup_prop anon k).
  { intros k Hk.
    assert (Hd : dotted_key k = false /\ k <> "address"%string).
    { rewrite !elem_of_cons, elem_of_nil in Hk.
      destruct Hk as [->|[->|[->|[]]]]; by split. }
    destruct Hd as [Hd Hne].
    unfold update, dot_notation. rewrite lookup_dot_own by done.
    case_bool_decide as Hin; [done|].
    symmetry. by apply lookup_notin. }
  exists customer, update, (h ++ [customer; anon; update]).
  split; [exact Hstage1|]. split; [|split; [done|split; [exact Hkeys|]]].
  - unfold createUpdate. unfold bind at 1. rewrite Hstage1.
    unfold bind at 1. fold h1. rewrite anonymizeCustomer_typed, Hheap2 by done.
    fold h2.
    rewrite convert_dot_notation, Hat2, Hlen2 by (done || rewrite Hlen2, Hlen1; lia).
    unfold update, h2, h1. by rewrite <- !app_assoc.
  - rewrite !Hvalue by (rewrite !elem_of_cons; tauto).
    unfold anon, anonymous_of. rewrite !lookup_put_if_truthy, Hno.
    cbn. rewrite !andb_false_r, !andb_true_r. done.
Qed.

Lemma createUpdate_names_only_witness :
  let h := [[("firstName", VString "Jane"); ("email", VString "jane@example.com");
             ("createdAt", VNumber 7)]]%string in
  exists update h',
    createUpdate (VObject 0) h = Ok (VObject 3, h' ++ [update])
    /\ ("firstName"%string ∈ keys update)
    /\ ("createdAt"%string ∉ keys update)
    /\ lookup_prop update "firstName" = VString (hash "Jane").
Proof.
  intros h.
  destruct (createUpdate_names_only h 0%nat eq_refl)
    as (customer & update & h' & _ & Hrun & Hh' & Hkeys & Hfirst & _).
  exists update, (h ++ [customer; anonymous_of (object_at h 0%nat)]).
  split; [|split; [|split]].
  - rewrite Hrun, Hh'. by rewrite <- app_assoc.
  - apply Hkeys. split; [apply list_elem_of_here | reflexivity].
  - intros [Hin _]%Hkeys. rewrite !elem_of_cons, elem_of_nil in Hin.
    destruct Hin as [?|[?|[?|[]]]]; discriminate.
  - exact Hfirst.
Defined.

(** ** Deserialised records *)

Lemma alloc_doc_fields (fs : list (string * doc)) (h : heap) :
  alloc_doc (DObject fs) h
  = (VObject (length (alloc_fields fs h).2),
     (alloc_fields fs h).2 ++ [(alloc_fields fs h).1]).
Proof.
  cbn [alloc_doc].
  lazymatch goal with
  | |- (let '(o, h') := ?go fs h in _) = _ =>
      assert (E : forall fs h, go fs h = alloc_fields fs h)
  end.
  { clear. induction fs as [|[k d] fs IH]; intros h; cbn; [done|].
    destruct (alloc_doc d h) as [v h1]. by rewrite IH. }
  rewrite E. by destruct (alloc_fields fs h).
Qed.

Lemma doc_ind' (P : doc -> Prop) :
  P DUndefined -> P DNull -> (forall b, P (DBoolean b)) ->
  (forall n, P (DNumber n)) -> (forall s, P (DString s)) ->
  (forall fs, Forall (fun kd : string * doc => P kd.2) fs -> P (DObject fs)) ->
  forall d, P d.
Proof.
  intros Hu Hn Hb Hz Hs Ho. fix IH 1.
  intros [| |b|n|s|fs]; [exact Hu | exact Hn | apply Hb | apply Hz | apply Hs |].
  apply Ho. induction fs as [|[k d] fs IHfs]; constructor; [apply IH | apply IHfs].
Qed.

Lemma alloc_fields_extends_if (fs : list (string * doc)) :
  Forall (fun kd : string * doc =>
            forall h, exists ext, (alloc_doc kd.2 h).2 = h ++ ext) fs ->
  forall h, exists ext, (alloc_fields fs h).2 = h ++ ext.
Proof.
  induction 1 as [|[k d] fs Hd _ IH]; intros h; cbn [alloc_fields].
  - exists []. by rewrite app_nil_r.
  - cbn [snd] in Hd. destruct (Hd h) as [ext1 H1].
    destruct (alloc_doc d h) as [v h1]. cbn [snd] in H1. subst h1.
    destruct (IH (h ++ ext1)) as [ext2 H2].
    destruct (alloc_fields fs (h ++ ext1)) as [o h2]. cbn in *. subst h2.
    exists (ext1 ++ ext2). by rewrite app_assoc.
Qed.

(** Deserialising a document only adds objects to the heap. *)
Lemma alloc_doc_extends (d : doc) :
  forall h, exists ext, (alloc_doc d h).2 = h ++ ext.
Proof.
  induction d as [| | | | |fs IH] using doc_ind'; intros h;
    try (exists []; cbn; by rewrite app_nil_r).
  rewrite alloc_doc_fields. cbn [snd].
  destruct (alloc_fields_extends_if fs IH h) as [ext ->].
  eexists. by rewrite <- app_assoc.
Qed.

Lemma alloc_fields_extends (fs : list (string * doc)) (h : heap) :
  exists ext, (alloc_fields fs h).2 = h ++ ext.
Proof.
  apply alloc_fields_extends_if, Forall_forall. intros kd _. apply alloc_doc_extends.
Qed.

(** The property of the new object under a key is the first field of that
    key, deserialised at some point of the run. *)
Lemma alloc_fields_lookup (fs : list (string * doc)) (k : string) :
  forall h, exists ext0 ext1,
    (alloc_fields fs h).2 = (alloc_doc (lookup_field fs k) (h ++ ext0)).2 ++ ext1
    /\ lookup_prop (alloc_fields fs h).1 k
       = (alloc_doc (lookup_field fs k) (h ++ ext0)).1.
Proof.
  induction fs as [|[k' d] fs IH]; intros h; cbn [alloc_fields lookup_field].
  - exists [], []. cbn. by rewrite !app_nil_r.
  - destruct (alloc_doc d h) as [v h1] eqn:Hd.
    destruct (alloc_fields fs h1) as [o h2] eqn:Hfs.
    cbn [fst snd lookup_prop].
    destruct (String.eqb_spec k' k) as [->|Hne].
    + destruct (alloc_fields_extends fs h1) as [ext1 H1].
      rewrite Hfs in H1. cbn in H1.
      exists [], ext1. by rewrite app_nil_r, Hd.
    + destruct (alloc_doc_extends d h) as [ext Hext]. rewrite Hd in Hext.
      cbn in Hext. subst h1.
      destruct (IH (h ++ ext)) as (ext0 & ext1 & H2 & Hv).
      rewrite Hfs in H2, Hv. cbn in H2, Hv.
      exists (ext ++ ext0), ext1. by rewrite app_assoc.
Qed.

Lemma alloc_scalar (d : doc) (h : heap) :
  scalar_doc d = true -> alloc_doc d h = (value_of_scalar d, h).
Proof. by destruct d. Qed.

Lemma textual_scalar (d : doc) :
  textual_doc d = true -> scalar_doc d = true /\ textual (value_of_scalar d) = true.
Proof. by destruct d. Qed.

Lemma truthy_value_of_scalar (d : doc) :
  scalar_doc d = true -> truthy (value_of_scalar d) = truthy_doc d.
Proof. by destruct d. Qed.

Lemma object_at_app_mid (h ext : heap) (o : object) :
  object_at ((h ++ [o]) ++ ext) (length h) = o.
Proof.
  unfold object_at. rewrite app_nth1 by (rewrite length_app; cbn; lia).
  by rewrite app_nth2, Nat.sub_diag by lia.
Qed.

Lemma object_at_app_old (h ext : heap) (l : loc) :
  (l < length h)%nat -> object_at (h ++ ext) l = object_at h l.
Proof. intros Hl. unfold object_at. by rewrite app_nth1. Qed.

Lemma alloc_fields_keys (fs : list (string * doc)) :
  forall h, keys (alloc_fields fs h).1 = map fst fs.
Proof.
  induction fs as [|[k d] fs IH]; intros h; cbn [alloc_fields]; [done|].
  destruct (alloc_doc d h) as [v h1]. specialize (IH h1).
  destruct (alloc_fields fs h1) as [o h2]. cbn in *. by rewrite IH.
Qed.

Lemma alloc_fields_scalar (fs : list (string * doc)) (h : heap) (k : string) :
  scalar_doc (lookup_field fs k) = true ->
  lookup_prop (alloc_fields fs h).1 k = value_of_scalar (lookup_field fs k).
Proof.
  intros Hk. destruct (alloc_fields_lookup fs k h) as (ext0 & ext1 & _ & ->).
  by rewrite alloc_scalar.
Qed.

(** A field holding an object: the property is a reference to the object
    that holds the deserialised fields. *)
Lemma alloc_fields_object (fs g : list (string * doc)) (h : heap) (k : string) :
  lookup_field fs k = DObject g ->
  exists a,
    lookup_prop (alloc_fields fs h).1 k = VObject a
    /\ (a < length (alloc_fields fs h).2)%nat
    /\ keys (object_at (alloc_fields fs h).2 a) = map fst g
    /\ forall f, scalar_doc (lookup_field g f) = true ->
                 lookup_prop (object_at (alloc_fields fs h).2 a) f
                 = value_of_scalar (lookup_field g f).
Proof.
  intros Hk. destruct (alloc_fields_lookup fs k h) as (ext0 & ext1 & Hheap & Hv).
  rewrite Hk, alloc_doc_fields in Hheap, Hv. cbn [fst snd] in Hheap, Hv.
  exists (length (alloc_fields g (h ++ ext0)).2).
  split; [done|]. rewrite Hheap, object_at_app_mid.
  split; [rewrite !length_app; cbn; lia|].
  split; [apply alloc_fields_keys|].
  intros f Hf. by apply alloc_fields_scalar.
Qed.

(** A typed record is deserialised into a typed customer. *)
Lemma alloc_typed_record (fs : list (string * doc)) (h : heap) :
  typed_record (DObject fs) = true ->
  typed_customer ((alloc_fields fs h).2 ++ [(alloc_fields fs h).1])
                 (length (alloc_fields fs h).2) = true.
Proof.
  cbn [typed_record]. rewrite !andb_true_iff.
  intros [[[Hfirst Hlast] Hemail] Haddress].
  unfold typed_customer. rewrite object_at_app_r.
  apply textual_scalar in Hfirst as [Sfirst Tfirst].
  apply textual_scalar in Hlast as [Slast Tlast].
  apply textual_scalar in Hemail as [Semail Temail].
  rewrite !alloc_fields_scalar by done. rewrite Tfirst, Tlast, Temail.
  rewrite bool_decide_eq_true_2 by (rewrite length_app; cbn; lia).
  cbn [andb].
  destruct (lookup_field fs "address") as [| | | | |g] eqn:Hg; try done.
  - rewrite alloc_fields_scalar by (by rewrite Hg). by rewrite Hg.
  - destruct (alloc_fields_object fs g h "address" Hg) as (a & -> & Ha & _ & Hlines).
    cbn [typed_address]. rewrite object_at_app_l by done.
    rewrite !andb_true_iff in Haddress. destruct Haddress as [[H1 H2] H3].
    apply textual_scalar in H1 as [S1 T1].
    apply textual_scalar in H2 as [S2 T2].
    apply textual_scalar in H3 as [S3 T3].
    rewrite !Hlines by done. rewrite T1, T2, T3.
    rewrite bool_decide_eq_true_2 by (rewrite length_app; cbn; lia). done.
Qed.

Lemma typed_record_truthy (fs : list (string * doc)) (h : heap) (k : string) :
  typed_record (DObject fs) = true ->
  k ∈ anonymizable ->
  truthy (lookup_prop (alloc_fields fs h).1 k) = truthy_doc (lookup_field fs k).
Proof.
  cbn [typed_record]. rewrite !andb_true_iff.
  intros [[[H1 H2] H3] H4] Hk.
  unfold anonymizable in Hk. rewrite !elem_of_cons, elem_of_nil in Hk.
  destruct Hk as [->|[->|[->|[->|[]]]]];
    try (rewrite alloc_fields_scalar by (by apply textual_scalar);
         apply truthy_value_of_scalar; by apply textual_scalar).
  destruct (lookup_field fs "address") as [| | | | |g] eqn:Hg; try done.
  - rewrite alloc_fields_scalar by (by rewrite Hg). by rewrite Hg.
  - by destruct (alloc_fields_object fs g h "address" Hg) as (a & -> & _).
Qed.

(** ** [fullReindexMode]: the operation of one record *)

Lemma lookup_anonymized_line_eq (o : object) (key : string) :
  lookup_prop (anonymized_line key o) key
  = if truthy (lookup_prop o key) then token_value (lookup_prop o key)
    else lookup_prop o key.
Proof.
  unfold anonymized_line. rewrite lookup_put_if_truthy, String.eqb_refl.
  by rewrite andb_true_r.
Qed.

Lemma lookup_anonymized_address (group : object) (f : string) :
  lookup_prop (anonymized_address group) f
  = if address_line f && truthy (lookup_prop group f)
    then token_value (lookup_prop group f) else lookup_prop group f.
Proof.
  unfold anonymized_address, address_line.
  destruct (String.eqb_spec f "line1") as [->|H1].
  { rewrite !lookup_anonymized_line by done. by rewrite lookup_anonymized_line_eq. }
  destruct (String.eqb_spec f "line2") as [->|H2].
  { rewrite lookup_anonymized_line by done.
    rewrite lookup_anonymized_line_eq. by rewrite !lookup_anonymized_line by done. }
  destruct (String.eqb_spec f "postcode") as [->|H3].
  { rewrite lookup_anonymized_line_eq. by rewrite !lookup_anonymized_line by done. }
  by rewrite !lookup_anonymized_line by done.
Qed.

Lemma keys_anonymized_address (group : object) :
  keys (anonymized_address group) = keys group.
Proof. unfold anonymized_address. by rewrite !keys_anonymized_line. Qed.

Lemma anonymous_of_no_address (o : object) :
  lookup_prop o "address" = VUndefined ->
  lookup_prop (anonymous_of o) "address" = VUndefined.
Proof.
  intros Ha. unfold anonymous_of. rewrite !lookup_put_if_truthy, Ha.
  cbn. by rewrite !andb_false_r.
Qed.

Lemma anonymous_of_keys_plain (o : object) :
  Forall (fun k => dotted_key k = false) (keys (anonymous_of o)).
Proof.
  apply Forall_forall. intros k [Hk _]%anonymous_of_keys.
  unfold anonymizable in Hk. rewrite !elem_of_cons, elem_of_nil in Hk.
  by destruct Hk as [->|[->|[->|[->|[]]]]].
Qed.

(** The name fields of the object built from an anonymised customer. *)
Lemma lookup_dot_notation_name (h : heap) (o : object) (k : string) :
  k ∈ ["firstName"; "lastName"; "email"]%string ->
  lookup_prop (dot_notation h (anonymous_of o)) k
  = if truthy (lookup_prop o k)
    then (if String.eqb k "email" then email_value (lookup_prop o k)
          else token_value (lookup_prop o k))
    else VUndefined.
Proof.
  intros Hk.
  assert (Hd : dotted_key k = false /\ k <> "address"%string).
  { rewrite !elem_of_cons, elem_of_nil in Hk.
    destruct Hk as [->|[->|[->|[]]]]; by split. }
  destruct Hd as [Hd Hne].
  unfold dot_notation. rewrite lookup_dot_own by done.
  assert (Hvalue : lookup_prop (anonymous_of o) k
                   = if truthy (lookup_prop o k)
                     then (if String.eqb k "email" then email_value (lookup_prop o k)
                           else token_value (lookup_prop o k))
                     else VUndefined).
  { unfold anonymous_of. rewrite !lookup_put_if_truthy.
    rewrite !elem_of_cons, elem_of_nil in Hk.
    destruct Hk as [->|[->|[->|[]]]]; cbn;
      rewrite ?andb_false_r, ?andb_true_r;
      by destruct (truthy (lookup_prop o _)). }
  case_bool_decide as Hin; [done|].
  rewrite <- Hvalue. symmetry. by apply lookup_notin.
Qed.

Lemma keys_dot_notation_anonymous (h : heap) (o : object) (k : string) :
  k ∈ keys (dot_notation h (anonymous_of o)) ->
  k ∈ ["firstName"; "lastName"; "email"]%string \/ dotted_key k = true.
Proof.
  unfold dot_notation. rewrite keys_dot_fold.
  change (keys []) with (@nil string). rewrite elem_of_nil.
  intros [[]|[[Hk Hne]|(_ & g & f & _ & _ & ->)]]; [|by right].
  apply anonymous_of_keys in Hk as [Hk _]. unfold anonymizable in Hk.
  rewrite !elem_of_cons, elem_of_nil in *. tauto.
Qed.

(** The body of the loop on a typed record, in full. *)
Lemma reindex_document_run (fs : list (string * doc)) (h : heap) :
  typed_record (DObject fs) = true ->
  let customer := (alloc_fields fs h).1 in
  let h1 := (alloc_fields fs h).2 ++ [customer] in
  let h2 := anonymized_heap h1 (length (alloc_fields fs h).2) in
  Reindex.document (DObject fs) h
  = Ok ((lookup_prop customer "_id", VObject (length h2)),
        h2 ++ [dot_notation h2 (anonymous_of customer)]).
Proof.
  intros Htyped customer h1 h2.
  pose proof (alloc_typed_record fs h Htyped) as Htc. fold customer h1 in Htc.
  set (c := length (alloc_fields fs h).2) in *.
  assert (Hat1 : object_at h1 c = customer) by apply object_at_app_r.
  assert (Hlen2 : length h2 = S (length h1)).
  { destruct (anonymized_heap_length h1 c) as (hx & Hhx & Hlen).
    fold h2 in Hhx. rewrite Hhx, length_app, Hlen. cbn. lia. }
  assert (Hat2 : object_at h2 (length h1) = anonymous_of customer).
  { unfold h2. by rewrite anonymized_heap_result, Hat1. }
  assert (Hconv : dot_convertible h2 (object_at h2 (length h1)) = true).
  { rewrite Hat2. unfold dot_convertible.
    destruct (lookup_prop customer "address") as [| | | | |a] eqn:Ha;
      try (unfold typed_customer in Htc; rewrite Hat1, Ha in Htc; cbn in Htc;
           by rewrite ?andb_false_r in Htc).
    - by rewrite anonymous_of_no_address.
    - rewrite (anonymous_of_address _ a) by done.
      apply bool_decide_eq_true.
      assert (a < length h1)%nat; [|lia].
      apply (typed_customer_address h1 c); [done | by rewrite Hat1]. }
  unfold Reindex.document. unfold bind at 1. unfold deserialise.
  rewrite alloc_doc_fields. fold customer h1 c.
  unfold bind at 1. rewrite get_prop_object, Hat1.
  unfold bind at 1. rewrite anonymizeCustomer_typed by done. fold h2.
  unfold bind at 1. rewrite convert_dot_notation by (done || lia).
  by rewrite Hat2.
Qed.

(** ** Reading back what was deserialised *)

Lemma mapM_option_ext {X Y} (f g : X -> option Y) (l : list X) :
  Forall (fun x => f x = g x) l -> mapM f l = mapM g l.
Proof.
  induction 1 as [|x l Hx _ IH]; [done|]. cbn. by rewrite Hx, IH.
Qed.

Lemma in_range_weaken (a b a' b' : nat) (v : value) :
  (a' <= a)%nat -> (b <= b')%nat -> in_range a b v -> in_range a' b' v.
Proof. destruct v; cbn; try done. lia. Qed.

Lemma in_range_enough (a b f : nat) (v : value) :
  (b <= f)%nat -> in_range a b v -> enough f v.
Proof. destruct v; cbn; try done. lia. Qed.

Lemma wf_range_agree (a b : nat) (h h' : heap) :
  wf_range a b h ->
  (forall l, (a <= l < b)%nat -> object_at h' l = object_at h l) ->
  wf_range a b h'.
Proof. intros Hwf Hagree l Hl. rewrite Hagree by done. by apply Hwf. Qed.

Lemma wf_range_empty (a : nat) (h : heap) : wf_range a a h.
Proof. intros l Hl. lia. Qed.

(** Two parts allocated one after the other. *)
Lemma wf_range_join (a b c : nat) (h : heap) :
  (a <= b)%nat -> wf_range a b h -> wf_range b c h -> wf_range a c h.
Proof.
  intros Hab H1 H2 l Hl. destruct (decide (l < b)%nat).
  - apply H1. lia.
  - eapply Forall_impl; [apply H2; lia|]. intros kv. apply in_range_weaken; lia.
Qed.

Lemma wf_range_sub (a a' b : nat) (h : heap) :
  (a' <= a)%nat -> wf_range a b h ->
  forall l, (a <= l < b)%nat ->
            Forall (fun kv : string * value => in_range a' l kv.2) (object_at h l).
Proof.
  intros Ha Hwf l Hl. eapply Forall_impl; [by apply Hwf|].
  intros kv. apply in_range_weaken; lia.
Qed.

(** A read looks only at the part of the heap the value lies in. *)
Lemma read_doc_agree (a b : nat) (h h' : heap) :
  wf_range a b h ->
  (forall l, (a <= l < b)%nat -> object_at h' l = object_at h l) ->
  forall fuel v, in_range a b v -> read_doc fuel h' v = read_doc fuel h v.
Proof.
  intros Hwf Hagree. induction fuel as [|fuel IH]; intros v Hv;
    destruct v as [| | | | |l]; try done.
  cbn [read_doc]. cbn in Hv. rewrite Hagree by done.
  erewrite mapM_option_ext; [reflexivity|].
  eapply Forall_impl; [by apply Hwf|]. intros kv Hkv. cbn beta.
  rewrite IH; [done|]. revert Hkv. apply in_range_weaken; lia.
Qed.

(** More fuel than needed changes nothing. *)
Lemma read_doc_fuel (a b : nat) (h : heap) :
  wf_range a b h ->
  forall f f' v, in_range a b v -> enough f v -> enough f' v ->
                 read_doc f h v = read_doc f' h v.
Proof.
  intros Hwf. induction f as [|f IH]; intros f' v Hv Hf Hf';
    destruct v as [| | | | |l]; try (by destruct f').
  - cbn in Hf. lia.
  - destruct f' as [|f']; [cbn in Hf'; lia|].
    cbn [read_doc]. cbn in Hv, Hf, Hf'.
    erewrite mapM_option_ext; [reflexivity|].
    eapply Forall_impl; [by apply Hwf|]. intros [k v] Hkv. cbn [fst snd] in *.
    rewrite (IH f'); [done|..].
    + revert Hkv. apply in_range_weaken; lia.
    + destruct v; cbn in *; try done. lia.
    + destruct v; cbn in *; try done. lia.
Qed.

Lemma alloc_fields_length (fs : list (string * doc)) (h : heap) :
  (length h <= length (alloc_fields fs h).2)%nat.
Proof.
  destruct (alloc_fields_extends fs h) as [ext ->]. rewrite length_app. lia.
Qed.

Lemma alloc_doc_length (d : doc) (h : heap) :
  (length h <= length (alloc_doc d h).2)%nat.
Proof.
  destruct (alloc_doc_extends d h) as [ext ->]. rewrite length_app. lia.
Qed.

Lemma alloc_fields_old (fs : list (string * doc)) (h : heap) (l : loc) :
  (l < length h)%nat -> object_at (alloc_fields fs h).2 l = object_at h l.
Proof.
  intros Hl. destruct (alloc_fields_extends fs h) as [ext ->].
  by apply object_at_app_old.
Qed.

Lemma alloc_doc_old (d : doc) (h : heap) (l : loc) :
  (l < length h)%nat -> object_at (alloc_doc d h).2 l = object_at h l.
Proof.
  intros Hl. destruct (alloc_doc_extends d h) as [ext ->].
  by apply object_at_app_old.
Qed.


Lemma read_doc_object (f : nat) (h : heap) (l : loc) :
  read_doc (S f) h (VObject l)
  = (fs ← mapM (fun kv : string * value => d ← read_doc f h kv.2; Some (kv.1, d))
               (object_at h l);
     Some (DObject fs)).
Proof. reflexivity. Qed.

Lemma alloc_fields_reads (fs : list (string * doc)) :
  Forall (fun kd : string * doc => alloc_reads kd.2) fs ->
  forall h,
    wf_range (length h) (length (alloc_fields fs h).2) (alloc_fields fs h).2
    /\ Forall (fun kv : string * value =>
                 in_range (length h) (length (alloc_fields fs h).2) kv.2)
              (alloc_fields fs h).1
    /\ forall f H,
        (length (alloc_fields fs h).2 <= f)%nat ->
        (forall l, (length h <= l < length (alloc_fields fs h).2)%nat ->
                   object_at H l = object_at (alloc_fields fs h).2 l) ->
        mapM (fun kv : string * value => d ← read_doc f H kv.2; Some (kv.1, d))
             (alloc_fields fs h).1 = Some fs.
Proof.
  induction 1 as [|[k d] fs Hd _ IH]; intros h; cbn [alloc_fields].
  - split; [apply wf_range_empty|]. split; [constructor|]. done.
  - cbn [snd] in Hd. generalize (Hd h) (alloc_doc_length d h).
    destruct (alloc_doc d h) as [v h1]. cbn [fst snd].
    intros (Hv & Hwf & Hread) Hlen1.
    destruct (IH h1) as (Hwf2 & Hin2 & Hread2).
    pose proof (alloc_fields_length fs h1) as Hlen2.
    pose proof (alloc_fields_old fs h1) as Hold2.
    destruct (alloc_fields fs h1) as [o h2]. cbn [fst snd] in *.
    split; [|split].
    + apply wf_range_join with (length h1); [done| |done].
      eapply wf_range_agree; [exact Hwf|]. intros l Hl. apply Hold2. lia.
    + constructor.
      * cbn [snd]. revert Hv. apply in_range_weaken; lia.
      * eapply Forall_impl; [exact Hin2|]. intros kv.
        apply in_range_weaken; lia.
    + intros f H Hf Hagree. cbn [mapM snd fst].
      assert (Hone : read_doc f H v = Some d).
      { rewrite (read_doc_agree (length h) (length h1) h1 H Hwf); [|
          intros l Hl; rewrite Hagree by lia; apply Hold2; lia | done].
        rewrite <- Hread.
        apply (read_doc_fuel (length h) (length h1) h1 Hwf); [done|..];
          eapply in_range_enough; try exact Hv; lia. }
      rewrite Hone. cbn. rewrite Hread2; [done|done|].
      intros l Hl. apply Hagree. lia.
Qed.

(** A document read back from where it was deserialised is the document. *)
Lemma alloc_doc_reads (d : doc) : alloc_reads d.
Proof.
  induction d as [| | | | |fs IH] using doc_ind'; intros h;
    try (cbn; split; [done|]; split; [apply wf_range_empty | done]).
  rewrite alloc_doc_fields. cbn [fst snd].
  destruct (alloc_fields_reads fs IH h) as (Hwf & Hin & Hread).
  pose proof (alloc_fields_length fs h) as Hlen.
  set (o := (alloc_fields fs h).1) in *.
  set (h1 := (alloc_fields fs h).2) in *.
  rewrite length_app. cbn [length].
  split; [cbn; lia|]. split.
  - intros l Hl. destruct (decide (l < length h1)%nat) as [Hlt|Hge].
    + rewrite object_at_app_l by done. apply Hwf. lia.
    + replace l with (length h1) by lia. by rewrite object_at_app_r.
  - rewrite read_doc_object, object_at_app_r.
    rewrite Hread; [done|lia|].
    intros l Hl. apply object_at_app_l. lia.
Qed.

Lemma lookup_prop_elem (o : object) (k : string) (r : loc) :
  lookup_prop o k = VObject r -> (k, VObject r) ∈ o.
Proof.
  induction o as [|[k' v] o IH]; cbn [lookup_prop]; [done|].
  destruct (String.eqb_spec k' k) as [->|Hne].
  - intros ->. apply list_elem_of_here.
  - intros Hr. apply list_elem_of_further. by apply IH.
Qed.

(** The property of a deserialised record under a key lies in a part of the
    heap of its own: it reads back as the field of the record wherever that
    part is kept, and no other property of the record points into it. *)
Lemma alloc_fields_field (fs : list (string * doc)) (k : string) :
  forall h, exists s e,
    (length h <= s)%nat /\ (s <= e)%nat /\ (e <= length (alloc_fields fs h).2)%nat
    /\ (forall f H,
          (length (alloc_fields fs h).2 <= f)%nat ->
          (forall l, (s <= l < e)%nat ->
                     object_at H l = object_at (alloc_fields fs h).2 l) ->
          read_doc f H (lookup_prop (alloc_fields fs h).1 k)
          = Some (lookup_field fs k))
    /\ (forall k' r, k' <> k ->
                     lookup_prop (alloc_fields fs h).1 k' = VObject r ->
                     ~ (s <= r < e)%nat).
Proof.
  induction fs as [|[k0 d] fs IH]; intros h; cbn [alloc_fields lookup_field].
  - exists (length h), (length h). cbn [fst snd lookup_prop].
    split; [done|]. split; [done|]. split; [done|]. split; [|done].
    intros f H _ _. by destruct f.
  - generalize (alloc_doc_reads d h) (alloc_doc_length d h).
    destruct (alloc_doc d h) as [v h1]. cbn [fst snd].
    intros (Hv & Hwf & Hread) Hlen1.
    destruct (alloc_fields_reads fs) with (h := h1) as (_ & Hin2 & _).
    { apply Forall_forall. intros kd _. apply alloc_doc_reads. }
    specialize (IH h1).
    pose proof (alloc_fields_length fs h1) as Hlen2.
    pose proof (alloc_fields_old fs h1) as Hold2.
    destruct (alloc_fields fs h1) as [o h2]. cbn [fst snd] in *.
    cbn [lookup_prop].
    destruct (String.eqb_spec k0 k) as [->|Hne].
    + exists (length h), (length h1).
      split; [done|]. split; [done|]. split; [done|]. split.
      * intros f H Hf Hagree.
        rewrite (read_doc_agree (length h) (length h1) h1 H Hwf); [|
          intros l Hl; rewrite Hagree by lia; apply Hold2; lia | done].
        rewrite <- Hread.
        apply (read_doc_fuel (length h) (length h1) h1 Hwf); [done|..];
          eapply in_range_enough; try exact Hv; lia.
      * intros k' r Hk'. destruct (String.eqb_spec k k') as [->|_]; [done|].
        intros Hr%lookup_prop_elem.
        rewrite Forall_forall in Hin2. apply Hin2 in Hr. cbn in Hr. lia.
    + destruct IH as (s & e & Hs & Hse & He & Hread' & Hother).
      exists s, e. split; [lia|]. split; [done|]. split; [done|]. split; [done|].
      intros k' r Hk'. destruct (String.eqb_spec k0 k') as [<-|_].
      * intros ->. cbn in Hv. lia.
      * by apply Hother.
Qed.
(** ** The _id of a record, from the record to the operation *)

Lemma reads_as_mono (h h' : heap) (v : value) (d : doc) :
  (length h <= length h')%nat ->
  (forall l, (l < length h)%nat -> object_at h' l = object_at h l) ->
  reads_as h v d -> reads_as h' v d.
Proof.
  intros Hlen Hframe Hr f H Hf Hagree. apply Hr; [lia|].
  intros l Hl. rewrite Hagree by lia. by apply Hframe.
Qed.

Lemma reads_as_later (h H : heap) (v : value) (d : doc) :
  reads_as h v d ->
  (length h <= length H)%nat ->
  (forall l, (l < length h)%nat -> object_at H l = object_at h l) ->
  doc_of H v = Some d.
Proof. intros Hr Hlen Hagree. apply Hr; [lia | done]. Qed.

Lemma reads_as_here (h : heap) (v : value) (d : doc) :
  reads_as h v d -> doc_of h v = Some d.
Proof. intros Hr. by apply (reads_as_later h). Qed.

(** [anonymizeCustomer] writes to the address object of the customer and to
    nothing else that exists. *)
Lemma anonymized_heap_frame (h : heap) (c l : loc) :
  (l < length h)%nat ->
  lookup_prop (object_at h c) "address" <> VObject l ->
  object_at (anonymized_heap h c) l = object_at h l.
Proof.
  intros Hl Hne. unfold anonymized_heap.
  destruct (lookup_prop (object_at h c) "address") as [| | | | |a] eqn:Ha;
    try by rewrite object_at_app_l.
  rewrite object_at_app_l by (by rewrite length_insert).
  destruct (decide (a < length h)%nat) as [Hlt|Hge].
  - rewrite object_at_insert by done. case_decide; [congruence | done].
  - by rewrite list_insert_ge by lia.
Qed.

(** The address object of a deserialised record is one of its new objects. *)
Lemma alloc_fields_new (fs : list (string * doc)) (h : heap) (k : string) (r : loc) :
  lookup_prop (alloc_fields fs h).1 k = VObject r ->
  (length h <= r < length (alloc_fields fs h).2)%nat.
Proof.
  intros Hr%lookup_prop_elem.
  destruct (alloc_fields_reads fs) with (h := h) as (_ & Hin & _).
  { apply Forall_forall. intros kd _. apply alloc_doc_reads. }
  rewrite Forall_forall in Hin. by apply Hin in Hr.
Qed.

(** A field of a deserialised record other than its address still reads as
    the field of the record after [anonymizeCustomer], and in every later
    heap. *)
Lemma anonymized_record_field (fs : list (string * doc)) (h : heap) (k : string) :
  k <> "address"%string ->
  reads_as (anonymized_heap ((alloc_fields fs h).2 ++ [(alloc_fields fs h).1])
                            (length (alloc_fields fs h).2))
           (lookup_prop (alloc_fields fs h).1 k) (lookup_field fs k).
Proof.
  intros Hk f H Hf Hagree.
  destruct (alloc_fields_field fs k h) as (s & e & Hs & Hse & He & Hread & Hother).
  set (customer := (alloc_fields fs h).1) in *.
  set (h0 := (alloc_fields fs h).2) in *.
  destruct (anonymized_heap_length (h0 ++ [customer]) (length h0))
    as (hx & Hhx & Hlenx).
  rewrite Hhx, !length_app, Hlenx, length_app in Hf. cbn [length] in Hf.
  apply Hread; [lia|].
  intros l Hl. rewrite Hagree.
  - rewrite anonymized_heap_frame.
    + apply object_at_app_l. lia.
    + rewrite length_app. cbn [length]. lia.
    + rewrite object_at_app_r. intros Ha. by apply (Hother "address"%string l).
  - rewrite Hhx, length_app, Hlenx, length_app. cbn [length]. lia.
Qed.

(** The body of the loop on a typed record: what it returns, what it leaves
    in place, and how its _id reads from then on. *)
Lemma reindex_document_tracks (fs : list (string * doc)) (h : heap) :
  typed_record (DObject fs) = true ->
  exists id l h',
    Reindex.document (DObject fs) h = Ok ((id, VObject l), h')
    /\ (length h <= length h')%nat
    /\ (forall x, (x < length h)%nat -> object_at h' x = object_at h x)
    /\ reads_as h' id (lookup_field fs "_id").
Proof.
  intros Htyped.
  pose proof (reindex_document_run fs h Htyped) as Hrun. cbv zeta in Hrun.
  set (customer := (alloc_fields fs h).1) in *.
  set (h0 := (alloc_fields fs h).2) in *.
  set (h2 := anonymized_heap (h0 ++ [customer]) (length h0)) in *.
  pose proof (alloc_fields_length fs h) as Hlen0. fold h0 in Hlen0.
  assert (Hlen2 : length h2 = S (S (length h0))).
  { destruct (anonymized_heap_length (h0 ++ [customer]) (length h0))
      as (hx & Hhx & Hlenx).
    fold h2 in Hhx. rewrite Hhx, length_app, Hlenx, length_app. cbn. lia. }
  eexists _, _, _. split; [exact Hrun|]. split; [|split].
  - rewrite length_app, Hlen2. lia.
  - intros x Hx. rewrite object_at_app_l by lia. unfold h2.
    rewrite anonymized_heap_frame.
    + rewrite object_at_app_l by lia. by apply alloc_fields_old.
    + rewrite length_app. cbn [length]. lia.
    + rewrite object_at_app_r. intros Ha%alloc_fields_new. lia.
  - apply (reads_as_mono h2).
    + rewrite length_app. lia.
    + intros x Hx. by apply object_at_app_l.
    + by apply anonymized_record_field.
Qed.

(** ** The fields of a deserialised record, read later *)

Lemma alloc_fields_field_reads (fs : list (string * doc)) (h : heap) (k : string) :
  reads_as (alloc_fields fs h).2 (lookup_prop (alloc_fields fs h).1 k)
           (lookup_field fs k).
Proof.
  intros f H Hf Hagree.
  destruct (alloc_fields_field fs k h) as (s & e & Hs & Hse & He & Hread & _).
  apply Hread; [lia|]. intros l Hl. apply Hagree. lia.
Qed.

(** The object of a field that is a document, with its own fields, is
    allocated in one piece in the middle of the run. *)
Lemma alloc_fields_nested (fs g : list (string * doc)) (h : heap) (k : string) :
  lookup_field fs k = DObject g ->
  exists hpre ext,
    (alloc_fields fs h).2
    = ((alloc_fields g hpre).2 ++ [(alloc_fields g hpre).1]) ++ ext
    /\ lookup_prop (alloc_fields fs h).1 k = VObject (length (alloc_fields g hpre).2).
Proof.
  intros Hk. destruct (alloc_fields_lookup fs k h) as (ext0 & ext1 & Hheap & Hv).
  rewrite Hk, alloc_doc_fields in Hheap, Hv. cbn [fst snd] in Hheap, Hv.
  by exists (h ++ ext0), ext1.
Qed.

(** The address of a typed record after [anonymizeCustomer]: the object of
    the record itself, with the fields of the record in their order, the
    token in place of line1, line2 and postcode when they are not empty, and
    every other field as the record has it. *)
Lemma anonymized_record_address (fs g : list (string * doc)) (h : heap) :
  typed_record (DObject fs) = true ->
  lookup_field fs "address" = DObject g ->
  let customer := (alloc_fields fs h).1 in
  let h0 := (alloc_fields fs h).2 in
  let h2 := anonymized_heap (h0 ++ [customer]) (length h0) in
  exists a,
    lookup_prop customer "address" = VObject a
    /\ (a < length h0)%nat
    /\ keys (object_at h2 a) = map fst g
    /\ forall f,
        if address_line f
        then lookup_prop (object_at h2 a) f
             = (if truthy_doc (lookup_field g f)
                then token_value (value_of_scalar (lookup_field g f))
                else value_of_scalar (lookup_field g f))
        else reads_as h2 (lookup_prop (object_at h2 a) f) (lookup_field g f).
Proof.
  intros Htyped Hg customer h0 h2.
  destruct (alloc_fields_nested fs g h "address" Hg) as (hpre & ext & Hheap & Ha).
  fold customer in Ha. fold h0 in Hheap.
  set (hg := (alloc_fields g hpre).2) in *.
  set (group := (alloc_fields g hpre).1) in *.
  assert (Hlen : (length hg < length h0)%nat).
  { rewrite Hheap, !length_app. cbn [length]. lia. }
  assert (Hgroup0 : object_at h0 (length hg) = group).
  { rewrite Hheap. apply object_at_app_mid. }
  assert (Hgroup : object_at h2 (length hg) = anonymized_address group).
  { unfold h2. rewrite (anonymized_heap_address _ _ (length hg)).
    - by rewrite object_at_app_l, Hgroup0.
    - rewrite length_app. lia.
    - by rewrite object_at_app_r. }
  exists (length hg). split; [done|]. split; [done|]. split.
  { rewrite Hgroup, keys_anonymized_address. apply alloc_fields_keys. }
  intros f. rewrite Hgroup, lookup_anonymized_address.
  destruct (address_line f) eqn:Hline; cbn [andb].
  - assert (Htext : textual_doc (lookup_field g f) = true).
    { cbn [typed_record] in Htyped. rewrite Hg, !andb_true_iff in Htyped.
      destruct Htyped as (_ & (H1 & H2) & H3).
      unfold address_line in Hline. rewrite !orb_true_iff in Hline.
      destruct Hline as [[->%String.eqb_eq| ->%String.eqb_eq]| ->%String.eqb_eq];
        done. }
    apply textual_scalar in Htext as [Hs _].
    unfold group. rewrite alloc_fields_scalar by done.
    by rewrite truthy_value_of_scalar.
  - intros fuel H Hfuel Hagree.
    destruct (alloc_fields_field g f hpre) as (s & e & Hs & Hse & He & Hread & _).
    fold hg group in He, Hread.
    destruct (anonymized_heap_length (h0 ++ [customer]) (length h0))
      as (hx & Hhx & Hlenx).
    fold h2 in Hhx. rewrite Hhx, !length_app, Hlenx, length_app in Hfuel.
    cbn [length] in Hfuel.
    apply Hread; [lia|].
    intros l Hl. rewrite Hagree.
    + unfold h2. rewrite anonymized_heap_frame.
      * rewrite object_at_app_l by lia. rewrite Hheap.
        rewrite object_at_app_old by (rewrite length_app; lia).
        apply object_at_app_l. lia.
      * rewrite length_app. lia.
      * rewrite object_at_app_r, Ha. intros [= Heq]. lia.
    + rewrite Hhx, length_app, Hlenx, length_app. cbn [length]. lia.
Qed.

(** ** Serialising an object *)

Lemma read_doc_scalar (f : nat) (H : heap) (v : value) :
  (forall r, v <> VObject r) -> read_doc f H v = read_doc 0 [] v.
Proof. intros Hv. destruct v; try by destruct f. by destruct (Hv l). Qed.

Lemma scalar_reads (h : heap) (v : value) :
  (forall r, v <> VObject r) -> exists d, reads_as h v d.
Proof.
  intros Hv. destruct (read_doc 0 [] v) as [d|] eqn:Hd.
  - exists d. intros f H _ _. by rewrite read_doc_scalar.
  - destruct v; try done; by destruct (Hv l).
Qed.

Lemma value_of_scalar_scalar (d : doc) (r : loc) : value_of_scalar d <> VObject r.
Proof. by destruct d. Qed.

Lemma token_value_scalar (v : value) (r : loc) :
  (forall r, v <> VObject r) -> token_value v <> VObject r.
Proof. intros Hv. destruct v; try done; by destruct (Hv l). Qed.

Lemma email_value_scalar (v : value) (r : loc) :
  (forall r, v <> VObject r) -> email_value v <> VObject r.
Proof. intros Hv. destruct v; try done; by destruct (Hv l). Qed.

(** The fields read from an object: its keys in their order, and under each
    key what its property reads as. *)
Lemma read_fields_lookup (f : nat) (H : heap) (o : object)
    (fields : list (string * doc)) :
  mapM (fun kv : string * value => d ← read_doc f H kv.2; Some (kv.1, d)) o
  = Some fields ->
  map fst fields = keys o
  /\ forall k, read_doc f H (lookup_prop o k) = Some (lookup_field fields k).
Proof.
  revert fields. induction o as [|[k0 v0] o IH]; intros fields; cbn [mapM].
  - intros [= <-]. split; [done|]. intros k. by destruct f.
  - cbn [fst snd]. destruct (read_doc f H v0) as [d0|] eqn:Hd0; [|done]. cbn.
    destruct (mapM _ o) as [fields'|] eqn:Hrest; [|done]. cbn.
    intros [= <-]. destruct (IH fields' eq_refl) as [Hkeys Hlookup].
    split; [cbn; by rewrite Hkeys|].
    intros k. cbn [lookup_prop lookup_field].
    by destruct (String.eqb k0 k).
Qed.

(** An object without repeated keys can be read when each of its properties
    can. *)
Lemma read_fields_total (f : nat) (H : heap) (o : object) :
  NoDup (keys o) ->
  (forall k, k ∈ keys o -> is_Some (read_doc f H (lookup_prop o k))) ->
  is_Some (mapM (fun kv : string * value => d ← read_doc f H kv.2; Some (kv.1, d)) o).
Proof.
  induction o as [|[k0 v0] o IH]; intros Hnd Hread; cbn [mapM]; [done|].
  cbn [keys map fst] in Hnd. apply NoDup_cons in Hnd as [Hk0 Hnd].
  cbn [fst snd].
  destruct (Hread k0) as [d0 Hd0]; [apply list_elem_of_here|].
  cbn [lookup_prop] in Hd0. rewrite String.eqb_refl in Hd0. rewrite Hd0. cbn.
  destruct IH as [fields' Hrest]; [done| |by rewrite Hrest].
  intros k Hk. specialize (Hread k (list_elem_of_further _ _ _ Hk)).
  cbn [lookup_prop] in Hread.
  destruct (String.eqb_spec k0 k) as [->|_]; [done | exact Hread].
Qed.

Lemma keys_store_prop (o : object) (k : string) (v : value) :
  keys (store_prop o k v) = if bool_decide (k ∈ keys o) then keys o else keys o ++ [k].
Proof.
  unfold keys. induction o as [|[k0 v0] o IH]; cbn [store_prop map fst app].
  - by rewrite bool_decide_eq_false_2 by apply not_elem_of_nil.
  - destruct (String.eqb_spec k0 k) as [->|Hne]; cbn [map fst].
    + by rewrite bool_decide_eq_true_2 by apply list_elem_of_here.
    + rewrite IH. destruct (decide (k ∈ map fst o)) as [Hin|Hnin].
      * rewrite !bool_decide_eq_true_2; [done | by apply list_elem_of_further | done].
      * rewrite !bool_decide_eq_false_2; [done| |done].
        rewrite not_elem_of_cons. by split.
Qed.

Lemma NoDup_store_prop (o : object) (k : string) (v : value) :
  NoDup (keys o) -> NoDup (keys (store_prop o k v)).
Proof.
  intros Hnd. rewrite keys_store_prop. case_bool_decide as Hk; [done|].
  apply NoDup_app. split; [done|]. split; [|apply NoDup_singleton].
  intros x Hx ->%list_elem_of_singleton. done.
Qed.

Lemma NoDup_dot_notation (h : heap) (o : object) : NoDup (keys (dot_notation h o)).
Proof.
  unfold dot_notation.
  assert (Hfold : forall ks update, NoDup (keys update) ->
                    NoDup (keys (fold_left (dot_step h o) ks update))).
  { induction ks as [|k ks IH]; intros update Hnd; cbn [fold_left]; [done|].
    apply IH. unfold dot_step. destruct (String.eqb k "address").
    - unfold dot_group. destruct (lookup_prop o "address"); try done.
      generalize (keys (object_at h l)). intros nested. revert update Hnd.
      induction nested as [|nk nested IHn]; intros update Hnd; cbn [fold_left];
        [done|].
      by apply IHn, NoDup_store_prop.
    - by apply NoDup_store_prop. }
  apply Hfold. constructor.
Qed.

(** Every property of the update that [fullReindexMode] builds from a typed
    record can be serialised from then on. *)
Lemma reindex_update_reads (fs : list (string * doc)) (h : heap) (k : string) :
  typed_record (DObject fs) = true ->
  let customer := (alloc_fields fs h).1 in
  let h0 := (alloc_fields fs h).2 in
  let h2 := anonymized_heap (h0 ++ [customer]) (length h0) in
  exists d, reads_as h2 (lookup_prop (dot_notation h2 (anonymous_of customer)) k) d.
Proof.
  intros Htyped customer h0 h2.
  set (anon := anonymous_of customer).
  destruct (decide (k ∈ keys (dot_notation h2 anon))) as [Hin|Hnin];
    [|rewrite lookup_notin by done; by apply scalar_reads].
  unfold dot_notation in Hin. apply keys_dot_fold in Hin.
  change (keys []) with (@nil string) in Hin. rewrite elem_of_nil in Hin.
  destruct Hin as [[]|[[Hk Hne]|(Haddress & a & f & Ha & Hf & ->)]].
  - apply anonymous_of_keys in Hk as [Hk _].
    unfold anonymizable in Hk. rewrite !elem_of_cons, elem_of_nil in Hk.
    assert (Hname : k ∈ ["firstName"; "lastName"; "email"]%string)
      by (rewrite !elem_of_cons; tauto).
    unfold anon. rewrite lookup_dot_notation_name by done.
    apply scalar_reads. intros r.
    assert (Hs : forall r, lookup_prop customer k <> VObject r).
    { assert (Htext : textual_doc (lookup_field fs k) = true).
      { cbn [typed_record] in Htyped. rewrite !andb_true_iff in Htyped.
        destruct Htyped as [[[H1 H2] H3] _].
        rewrite !elem_of_cons, elem_of_nil in Hname.
        by destruct Hname as [->|[->|[->|[]]]]. }
      apply textual_scalar in Htext as [Hs _].
      unfold customer. rewrite alloc_fields_scalar by done.
      intros r'. apply value_of_scalar_scalar. }
    destruct (truthy (lookup_prop customer k)); [|done].
    destruct (String.eqb k "email");
      [by apply email_value_scalar | by apply token_value_scalar].
  - assert (Hg : exists g, lookup_field fs "address" = DObject g).
    { unfold anon, anonymous_of in Ha. rewrite !lookup_put_if_truthy in Ha.
      cbn [String.eqb Ascii.eqb Bool.eqb] in Ha.
      rewrite ?andb_false_r, ?andb_true_r in Ha.
      destruct (truthy (lookup_prop customer "address")) eqn:Ht; [|done].
      destruct (lookup_field fs "address") as [| | | | |g] eqn:Hg; eauto;
        unfold customer in Ha; rewrite alloc_fields_scalar in Ha
          by (by rewrite Hg); by rewrite Hg in Ha. }
    destruct Hg as [g Hg].
    destruct (anonymized_record_address fs g h Htyped Hg)
      as (a' & Ha' & Hlen & Hkeys & Hfields).
    fold customer h0 h2 in Ha', Hlen, Hkeys, Hfields.
    unfold anon in Ha. rewrite (anonymous_of_address _ _ Ha') in Ha.
    injection Ha as <-.
    assert (Hvalue : lookup_prop (dot_notation h2 anon) ("address" +:+ "." +:+ f)
                     = lookup_prop (object_at h2 a') f).
    { unfold dot_notation. rewrite (lookup_dot_nested h2 anon a').
      - by rewrite bool_decide_eq_true_2.
      - apply anonymous_of_keys_plain.
      - by apply anonymous_of_address.
      - done. }
    rewrite Hvalue. specialize (Hfields f).
    destruct (address_line f); [|eauto].
    rewrite Hfields. apply scalar_reads. intros r.
    destruct (truthy_doc (lookup_field g f));
      [apply token_value_scalar; intros r'|]; apply value_of_scalar_scalar.
Qed.

(** ** The operation of a record *)

Lemma lookup_prop_NoDup (o : object) (k : string) (v : value) :
  NoDup (keys o) -> (k, v) ∈ o -> lookup_prop o k = v.
Proof.
  unfold keys. induction o as [|[k0 v0] o IH]; cbn [map fst lookup_prop];
    intros Hnd Hin.
  - by apply elem_of_nil in Hin.
  - apply NoDup_cons in Hnd as [Hk0 Hnd].
    apply elem_of_cons in Hin as [[= -> ->]|Hin].
    + by rewrite String.eqb_refl.
    + destruct (String.eqb_spec k0 k) as [->|Hne]; [|by apply IH].
      destruct Hk0. apply list_elem_of_fmap. by exists (k, v).
Qed.

Lemma fields_ext (f1 f2 : list (string * doc)) :
  map fst f1 = map fst f2 ->
  NoDup (map fst f1) ->
  (forall k, k ∈ map fst f1 -> lookup_field f1 k = lookup_field f2 k) ->
  f1 = f2.
Proof.
  revert f2. induction f1 as [|[k d] f1 IH]; intros [|[k' d'] f2];
    cbn [map fst]; try done.
  intros [= <- Hk] Hnd Hl. apply NoDup_cons in Hnd as [Hk0 Hnd].
  pose proof (Hl k (list_elem_of_here _ _)) as Hd.
  cbn [lookup_field] in Hd. rewrite String.eqb_refl in Hd. subst d'.
  f_equal. apply IH; [done | done |].
  intros x Hx. specialize (Hl x (list_elem_of_further _ _ _ Hx)).
  cbn [lookup_field] in Hl.
  destruct (String.eqb_spec k x) as [->|_]; [done | exact Hl].
Qed.

Lemma read_doc_of_scalar (f : nat) (H : heap) (v : value) :
  (forall r, v <> VObject r) -> read_doc f H v = Some (doc_of_scalar v).
Proof. intros Hv. destruct v; try by destruct f. by destruct (Hv l). Qed.

Lemma doc_of_scalar_value (d : doc) :
  scalar_doc d = true -> doc_of_scalar (value_of_scalar d) = d.
Proof. by destruct d. Qed.

(** The keys of an anonymised customer depend on which of its fields are
    truthy only. *)
Lemma keys_anonymous_of_same (o o' : object) :
  (forall k, k ∈ anonymizable ->
             truthy (lookup_prop o k) = truthy (lookup_prop o' k)) ->
  keys (anonymous_of o) = keys (anonymous_of o').
Proof.
  intros Hsame. unfold anonymous_of, put_if_truthy, anonymizable in *.
  rewrite (Hsame "firstName"%string), (Hsame "lastName"%string),
    (Hsame "email"%string), (Hsame "address"%string)
    by (rewrite !elem_of_cons; tauto).
  by destruct (truthy (lookup_prop o' "firstName")),
    (truthy (lookup_prop o' "lastName")), (truthy (lookup_prop o' "email")),
    (truthy (lookup_prop o' "address")).
Qed.

(** The keys of the object in dot notation depend on the keys of the
    customer and on those of its address only. *)
Lemma keys_dot_notation_same (h h' : heap) (o o' : object) :
  keys o = keys o' ->
  match lookup_prop o "address", lookup_prop o' "address" with
  | VObject g, VObject g' => keys (object_at h g) = keys (object_at h' g')
  | VObject _, _ | _, VObject _ => False
  | _, _ => True
  end ->
  keys (dot_notation h o) = keys (dot_notation h' o').
Proof.
  intros Hkeys Haddress. unfold dot_notation. rewrite <- Hkeys.
  assert (Hfold : forall ks u u',
             keys u = keys u' ->
             keys (fold_left (dot_step h o) ks u)
             = keys (fold_left (dot_step h' o') ks u')).
  { induction ks as [|k ks IH]; intros u u' Hu; cbn [fold_left]; [done|].
    apply IH. unfold dot_step. destruct (String.eqb k "address").
    - unfold dot_group.
      destruct (lookup_prop o "address") as [| | | | |g],
        (lookup_prop o' "address") as [| | | | |g']; try done.
      rewrite <- Haddress. generalize (keys (object_at h g)). intros nested.
      revert u u' Hu.
      induction nested as [|nk nested IHn]; intros u u' Hu; cbn [fold_left];
        [done|].
      apply IHn. by rewrite !keys_store_prop, Hu.
    - by rewrite !keys_store_prop, Hu. }
  by apply Hfold.
Qed.

(** The operation that the body of the loop builds from a typed record at
    any point of a run, however it is serialised later: its fields are read
    from the record alone. *)
Lemma reindex_document_operation (fs : list (string * doc)) (h : heap) :
  typed_record (DObject fs) = true ->
  let customer := (alloc_fields fs h).1 in
  let h0 := (alloc_fields fs h).2 in
  let h2 := anonymized_heap (h0 ++ [customer]) (length h0) in
  let update := dot_notation h2 (anonymous_of customer) in
  exists fields,
    (forall H,
        (length (h2 ++ [update]) <= length H)%nat ->
        (forall x, (x < length (h2 ++ [update]))%nat ->
                   object_at H x = object_at (h2 ++ [update]) x) ->
        Reindex.updateOne H (lookup_prop customer "_id", VObject (length h2))
        = {| filter_id := Some (lookup_field fs "_id");
             set_fields := Some (DObject fields);
             upsert := true |})
    /\ map fst fields = keys update
    /\ (forall k, k ∈ ["firstName"; "lastName"; "email"]%string ->
                  lookup_field fields k
                  = if truthy_doc (lookup_field fs k)
                    then doc_of_scalar
                           (if String.eqb k "email"
                            then email_value (value_of_scalar (lookup_field fs k))
                            else token_value (value_of_scalar (lookup_field fs k)))
                    else DUndefined)
    /\ (forall g f,
          lookup_field fs "address" = DObject g ->
          f ∈ map fst g ->
          lookup_field fields ("address" +:+ "." +:+ f)
          = if address_line f && truthy_doc (lookup_field g f)
            then doc_of_scalar (token_value (value_of_scalar (lookup_field g f)))
            else lookup_field g f)
    /\ (forall k, k ∈ map fst fields <->
                  (k ∈ ["firstName"; "lastName"; "email"]%string
                   /\ truthy_doc (lookup_field fs k) = true)
                  \/ exists g f, lookup_field fs "address" = DObject g
                                 /\ f ∈ map fst g
                                 /\ k = "address" +:+ "." +:+ f).
Proof.
  intros Htyped customer h0 h2 update.
  set (anon := anonymous_of customer) in *.
  set (h' := h2 ++ [update]).
  assert (Hreads : forall k, exists d, reads_as h' (lookup_prop update k) d).
  { intros k. destruct (reindex_update_reads fs h k Htyped) as [d Hd].
    exists d. apply (reads_as_mono h2); [unfold h'; rewrite length_app; lia | | done].
    intros x Hx. by apply object_at_app_l. }
  assert (Hid : reads_as h' (lookup_prop customer "_id") (lookup_field fs "_id")).
  { apply (reads_as_mono h2); [unfold h'; rewrite length_app; lia | |].
    - intros x Hx. by apply object_at_app_l.
    - by apply anonymized_record_field. }
  assert (Hnd : NoDup (keys update)) by apply NoDup_dot_notation.
  destruct (read_fields_total (length h') h' update Hnd) as [fields Hfields].
  { intros k _. destruct (Hreads k) as [d Hd]. exists d. by apply Hd. }
  destruct (read_fields_lookup _ _ _ _ Hfields) as [Hkeys Hlookup].
  assert (Hnames : forall k, k ∈ ["firstName"; "lastName"; "email"]%string ->
                     scalar_doc (lookup_field fs k) = true).
  { cbn [typed_record] in Htyped. rewrite !andb_true_iff in Htyped.
    destruct Htyped as [[[H1 H2] H3] _].
    intros k Hk. rewrite !elem_of_cons, elem_of_nil in Hk.
    destruct Hk as [->|[->|[->|[]]]]; by apply textual_scalar. }
  exists fields. split; [|split; [done|split; [|split]]].
  - intros H HlenH Hagree. unfold Reindex.updateOne. cbn [fst snd]. f_equal.
    + by apply (reads_as_later h').
    + unfold doc_of. rewrite read_doc_object.
      rewrite Hagree by (unfold h'; rewrite length_app; cbn; lia).
      unfold h'. rewrite object_at_app_r. fold h'.
      erewrite mapM_option_ext; [by rewrite Hfields|].
      apply Forall_forall. intros [k v] Hkv. cbn [fst snd].
      apply (lookup_prop_NoDup _ _ _ Hnd) in Hkv as <-.
      destruct (Hreads k) as [d Hd].
      by rewrite (Hd (length H) H), (Hd (length h') h').
  - intros k Hk. specialize (Hlookup k).
    unfold update, anon in Hlookup. rewrite lookup_dot_notation_name in Hlookup by done.
    unfold customer in Hlookup.
    rewrite alloc_fields_scalar in Hlookup by by apply Hnames.
    rewrite truthy_value_of_scalar in Hlookup by by apply Hnames.
    destruct (truthy_doc (lookup_field fs k)).
    + rewrite read_doc_of_scalar in Hlookup; [by injection Hlookup as <-|].
      intros r. destruct (String.eqb k "email");
        [apply email_value_scalar | apply token_value_scalar];
        intros r'; apply value_of_scalar_scalar.
    + rewrite read_doc_of_scalar in Hlookup by done. by injection Hlookup as <-.
  - intros g f Hg Hf. specialize (Hlookup ("address" +:+ "." +:+ f)).
    destruct (anonymized_record_address fs g h Htyped Hg)
      as (a & Ha & Hlen & Hkeysa & Hfieldsa).
    fold customer h0 h2 in Ha, Hlen, Hkeysa, Hfieldsa.
    assert (Hvalue : lookup_prop update ("address" +:+ "." +:+ f)
                     = lookup_prop (object_at h2 a) f).
    { unfold update, dot_notation. rewrite (lookup_dot_nested h2 anon a).
      - rewrite bool_decide_eq_true_2; [done|].
        apply anonymous_of_keys. rewrite Ha. split; [|done].
        unfold anonymizable. rewrite !elem_of_cons. tauto.
      - apply anonymous_of_keys_plain.
      - by apply anonymous_of_address.
      - by rewrite Hkeysa. }
    rewrite Hvalue in Hlookup. specialize (Hfieldsa f).
    destruct (address_line f) eqn:Hline; cbn [andb].
    + assert (Hs : scalar_doc (lookup_field g f) = true).
      { cbn [typed_record] in Htyped. rewrite Hg, !andb_true_iff in Htyped.
        destruct Htyped as (_ & (H1 & H2) & H3).
        unfold address_line in Hline. rewrite !orb_true_iff in Hline.
        destruct Hline as [[->%String.eqb_eq| ->%String.eqb_eq]| ->%String.eqb_eq];
          by apply textual_scalar. }
      rewrite Hfieldsa in Hlookup.
      destruct (truthy_doc (lookup_field g f)).
      * rewrite read_doc_of_scalar in Hlookup; [by injection Hlookup as <-|].
        intros r. apply token_value_scalar. intros r'. apply value_of_scalar_scalar.
      * rewrite read_doc_of_scalar in Hlookup by apply value_of_scalar_scalar.
        injection Hlookup as <-. by apply doc_of_scalar_value.
    + rewrite (Hfieldsa (length h') h') in Hlookup.
      * by injection Hlookup as <-.
      * unfold h'. rewrite length_app. lia.
      * intros x Hx. by apply object_at_app_l.
  - intros k. rewrite Hkeys. unfold update, dot_notation.
    rewrite keys_dot_fold.
    change (keys []) with (@nil string). rewrite elem_of_nil. split; cycle 1.
    { intros [[Hk Ht]|(g & f & Hg & Hf & ->)]; right.
      - left.
        assert (Hplain : k <> "address"%string).
        { rewrite !elem_of_cons, elem_of_nil in Hk.
          by destruct Hk as [->|[->|[->|[]]]]. }
        split; [|done]. apply anonymous_of_keys.
        assert (Hin : k ∈ anonymizable).
        { unfold anonymizable. rewrite !elem_of_cons, elem_of_nil in *. tauto. }
        split; [done|]. unfold customer. by rewrite typed_record_truthy.
      - right.
        destruct (anonymized_record_address fs g h Htyped Hg)
          as (a & Ha & _ & Hkeysa & _).
        fold customer h0 h2 in Ha, Hkeysa.
        split.
        + apply anonymous_of_keys. rewrite Ha. split; [|done].
          unfold anonymizable. rewrite !elem_of_cons. tauto.
        + exists a, f. split; [by apply anonymous_of_address|].
          split; [by rewrite Hkeysa | done]. }
    intros [[]|[[Hk Hne]|(Haddress & a & f & Ha & Hf & ->)]].
    + left. apply anonymous_of_keys in Hk as [Hk Ht].
      unfold anonymizable in Hk.
      assert (Hin : k ∈ anonymizable) by done.
      unfold customer in Ht. rewrite typed_record_truthy in Ht by done.
      split; [|done]. rewrite !elem_of_cons, elem_of_nil in *. tauto.
    + right.
      assert (Hg : exists g, lookup_field fs "address" = DObject g).
      { unfold anon, anonymous_of in Ha. rewrite !lookup_put_if_truthy in Ha.
        cbn [String.eqb Ascii.eqb Bool.eqb] in Ha.
        rewrite ?andb_false_r, ?andb_true_r in Ha.
        destruct (truthy (lookup_prop customer "address")) eqn:Ht; [|done].
        destruct (lookup_field fs "address") as [| | | | |g] eqn:Hg; eauto;
          unfold customer in Ha; rewrite alloc_fields_scalar in Ha
            by (by rewrite Hg); by rewrite Hg in Ha. }
      destruct Hg as [g Hg]. exists g, f. split; [done|]. split; [|done].
      destruct (anonymized_record_address fs g h Htyped Hg)
        as (a' & Ha' & _ & Hkeysa & _).
      fold customer h0 h2 in Ha', Hkeysa.
      unfold anon in Ha. rewrite (anonymous_of_address _ _ Ha') in Ha.
      injection Ha as <-. by rewrite <- Hkeysa.
Qed.

(** The operation that the loop builds from a typed record is the operation
    of the record, wherever in the run the record comes. *)
Lemma reindex_operation_of_record (fs : list (string * doc)) (h : heap) :
  typed_record (DObject fs) = true ->
  exists u h',
    Reindex.document (DObject fs) h = Ok (u, h')
    /\ (length h <= length h')%nat
    /\ (forall x, (x < length h)%nat -> object_at h' x = object_at h x)
    /\ forall H,
        (length h' <= length H)%nat ->
        (forall x, (x < length h')%nat -> object_at H x = object_at h' x) ->
        Some (Reindex.updateOne H u) = operation_of_record (DObject fs).
Proof.
  intros Htyped.
  destruct (reindex_document_tracks fs h Htyped)
    as (id & l & h' & Hdoc & Hlen & Hframe & _).
  exists (id, VObject l), h'. split; [exact Hdoc|]. split; [exact Hlen|].
  split; [exact Hframe|].
  pose proof (reindex_document_run fs h Htyped) as Hrun. cbv zeta in Hrun.
  rewrite Hrun in Hdoc. injection Hdoc as <- <- <-.
  pose proof (reindex_document_run fs [] Htyped) as Hrun0. cbv zeta in Hrun0.
  destruct (reindex_document_operation fs h Htyped)
    as (fields & Hop & Hkeys & Hnames & Hlines & Hall).
  destruct (reindex_document_operation fs [] Htyped)
    as (fields0 & Hop0 & Hkeys0 & Hnames0 & Hlines0 & Hall0).
  cbv zeta in Hop, Hkeys, Hop0, Hkeys0.
  intros H HlenH Hagree. unfold operation_of_record. rewrite Hrun0.
  rewrite (Hop H HlenH Hagree), (Hop0 _ (Nat.le_refl _) (fun x _ => eq_refl)).
  do 4 f_equal. apply fields_ext.
  - rewrite Hkeys, Hkeys0. apply keys_dot_notation_same.
    + apply keys_anonymous_of_same. intros k Hk.
      by rewrite !typed_record_truthy.
    + assert (Hcases : lookup_field fs "address" = DUndefined
                       \/ exists g, lookup_field fs "address" = DObject g).
      { pose proof Htyped as Ht. cbn [typed_record] in Ht.
        destruct (lookup_field fs "address"); eauto;
          by rewrite ?andb_false_r in Ht. }
      destruct Hcases as [Hg|[g Hg]].
      { rewrite !anonymous_of_no_address; [done|..];
          by rewrite alloc_fields_scalar, Hg by (by rewrite Hg). }
      destruct (anonymized_record_address fs g h Htyped Hg)
        as (a & Ha & _ & Hkeysa & _).
      destruct (anonymized_record_address fs g [] Htyped Hg)
        as (a0 & Ha0 & _ & Hkeysa0 & _).
      rewrite (anonymous_of_address _ _ Ha), (anonymous_of_address _ _ Ha0).
      by rewrite Hkeysa, Hkeysa0.
  - rewrite Hkeys. apply NoDup_dot_notation.
  - intros k [[Hk _]|(g & f & Hg & Hf & ->)]%Hall.
    + by rewrite Hnames, Hnames0.
    + by rewrite (Hlines g), (Hlines0 g).
Qed.

(** X10.  What the loop of [fullReindexMode] queues for a typed record: it
    adds one operation to the queue, changes nothing else but the heap, and
    goes on (writing the batch first when the queue has reached the size).
    However late the operation is serialised, it is the operation of the
    record: its filter is the _id of the record, whatever kind of value that
    is, upsert is set, and its update holds nothing but the names and the
    dotted address paths: firstName, lastName and email when the record has
    a truthy value for them, anonymised, and each field f of the address
    under "address.f": the token of line1, line2 and postcode when not
    empty, and every other field as the record has it.  No other field of
    the record (createdAt, ...) and no bare address key is written. *)
Theorem reindex_document_typed (size : nat) (accepts : nat -> bool)
    (fs : list (string * doc)) (cursor : list doc) (j : Reindex.job) :
  typed_record (DObject fs) = true ->
  exists id l h' fields j1,
    Reindex.loop size accepts (DObject fs :: cursor) j
    = (if (size <=? S (length (Reindex.updates j)))%nat
       then match Reindex.batch accepts j1 with
            | Reindex.Resolved j2 => Reindex.loop size accepts cursor j2
            | r => r
            end
       else Reindex.loop size accepts cursor j1)
    /\ Reindex.updates j1 = Reindex.updates j ++ [(id, VObject l)]
    /\ Reindex.job_heap j1 = h'
    /\ Reindex.sink j1 = Reindex.sink j
    /\ Reindex.total j1 = Reindex.total j
    /\ Reindex.console j1 = Reindex.console j
    /\ (forall H,
          (length h' <= length H)%nat ->
          (forall x, (x < length h')%nat -> object_at H x = object_at h' x) ->
          Reindex.updateOne H (id, VObject l)
          = {| filter_id := Some (lookup_field fs "_id");
               set_fields := Some (DObject fields);
               upsert := true |})
    /\ operation_of_record (DObject fs)
       = Some {| filter_id := Some (lookup_field fs "_id");
                 set_fields := Some (DObject fields);
                 upsert := true |}
    /\ (forall k, k ∈ map fst fields <->
                  (k ∈ ["firstName"; "lastName"; "email"]%string
                   /\ truthy_doc (lookup_field fs k) = true)
                  \/ exists g f, lookup_field fs "address" = DObject g
                                 /\ f ∈ map fst g
                                 /\ k = "address" +:+ "." +:+ f)
    /\ (forall k, k ∈ ["firstName"; "lastName"; "email"]%string ->
                  lookup_field fields k
                  = if truthy_doc (lookup_field fs k)
                    then doc_of_scalar
                           (if String.eqb k "email"
                            then email_value (value_of_scalar (lookup_field fs k))
                            else token_value (value_of_scalar (lookup_field fs k)))
                    else DUndefined)
    /\ (forall g f,
          lookup_field fs "address" = DObject g ->
          f ∈ map fst g ->
          lookup_field fields ("address" +:+ "." +:+ f)
          = if address_line f && truthy_doc (lookup_field g f)
            then doc_of_scalar (token_value (value_of_scalar (lookup_field g f)))
            else lookup_field g f).
Proof.
  intros Htyped.
  pose proof (reindex_document_run fs (Reindex.job_heap j) Htyped) as Hrun.
  cbv zeta in Hrun.
  destruct (reindex_document_operation fs (Reindex.job_heap j) Htyped)
    as (fields & Hop & _ & Hnames & Hlines & Hall).
  cbv zeta in Hop.
  destruct (reindex_operation_of_record fs (Reindex.job_heap j) Htyped)
    as (u & h' & Hdoc & _ & _ & Hsame).
  rewrite Hrun in Hdoc. injection Hdoc as <- <-.
  eexists _, _, _, fields, (Reindex.push _ (Reindex.with_heap _ j)).
  split.
  { cbn [Reindex.loop]. rewrite Hrun.
    cbn [Reindex.updates Reindex.push Reindex.with_updates Reindex.with_heap].
    rewrite length_app. cbn [length].
    by replace (length (Reindex.updates j) + 1)%nat
      with (S (length (Reindex.updates j))) by lia. }
  do 5 (split; [reflexivity|]).
  split; [exact Hop|].
  split; [|done].
  rewrite <- (Hsame _ (Nat.le_refl _) (fun x _ => eq_refl)).
  by rewrite (Hop _ (Nat.le_refl _) (fun x _ => eq_refl)).
Qed.

Lemma reindex_document_typed_witness :
  let fs := [("_id", DObject [("$oid", DString "5f1")]); ("firstName", DString "Jane");
             ("createdAt", DNumber 1);
             ("address", DObject [("line1", DString "1 Main St");
                                  ("geo", DObject [("lat", DNumber 1)])])]%string in
  let j := {| Reindex.job_heap := []; Reindex.updates := []; Reindex.total := 0;
              Reindex.sink := []; Reindex.console := [] |} in
  exists id l h' fields j1,
    Reindex.loop 2 (fun _ => true) [DObject fs] j = Reindex.Resolved j1
    /\ Reindex.updates j1 = [(id, VObject l)]
    /\ Reindex.updateOne h' (id, VObject l)
       = {| filter_id := Some (DObject [("$oid", DString "5f1")]%string);
            set_fields := Some (DObject fields);
            upsert := true |}
    /\ ("createdAt"%string ∉ map fst fields)
    /\ lookup_field fields "firstName" = DString (hash "Jane")
    /\ lookup_field fields "address.line1" = DString (hash "1 Main St")
    /\ lookup_field fields "address.geo" = DObject [("lat", DNumber 1)]%string.
Proof.
  intros fs j.
  destruct (reindex_document_typed 2 (fun _ => true) fs [] j eq_refl)
    as (id & l & h' & fields & j1 & Hrun & Hq & _ & _ & _ & _ & Hop & _
        & Hkeys & Hnames & Hlines).
  exists id, l, h', fields, j1. split; [exact Hrun|]. split; [exact Hq|].
  split; [by apply Hop|].
  split; [|split; [|split]].
  - intros [[Hk _]|(g & f & _ & _ & Hk)]%Hkeys; [|discriminate].
    rewrite !elem_of_cons, elem_of_nil in Hk.
    destruct Hk as [?|[?|[?|[]]]]; discriminate.
  - apply (Hnames "firstName"%string), list_elem_of_here.
  - refine (Hlines _ "line1"%string eq_refl _). apply list_elem_of_here.
  - refine (Hlines _ "geo"%string eq_refl _).
    apply list_elem_of_further, list_elem_of_here.
Defined.

(** ** [fullReindexMode]: the bulk writes of a run *)

Lemma typed_converts (d : doc) : typed_record d = true -> converts d.
Proof.
  destruct d as [| | | | |fs]; try done. intros Htyped h.
  pose proof (reindex_document_run fs h Htyped) as Hrun. cbv zeta in Hrun.
  eauto.
Qed.

Lemma div_add_size (size n : nat) :
  (0 < size)%nat ->
  ((size + n) / size = S (n / size) /\ (size + n) mod size = n mod size)%nat.
Proof.
  intros Hsize.
  pose proof (Nat.div_mod_eq n size) as Hn.
  pose proof (Nat.mod_upper_bound n size ltac:(lia)) as Hr.
  assert (Heq : (size + n = size * S (n / size) + n mod size)%nat)
    by (rewrite Nat.mul_succ_r; lia).
  split; symmetry.
  - by apply (Nat.div_unique _ _ _ (n mod size)).
  - by apply (Nat.mod_unique _ _ (S (n / size))).
Qed.

Lemma running_totals_replicate_app (size q start : nat) (sizes : list nat) :
  running_totals start (replicate q size ++ sizes)
  = running_totals start (replicate q size)
    ++ running_totals (start + size * q) sizes.
Proof.
  revert start. induction q as [|q IH]; intros start; cbn [replicate app running_totals].
  - by rewrite Nat.mul_0_r, Nat.add_0_r.
  - rewrite IH. do 3 f_equal. rewrite Nat.mul_succ_r. lia.
Qed.

(** While its bulk writes are accepted, the loop writes a batch every
    [size] documents. *)
Lemma reindex_loop_accepted (size : nat) (accepts : nat -> bool) (K : nat)
    (cursor : list doc) :
  (0 < size)%nat ->
  Forall converts cursor ->
  (forall i, (i < K)%nat -> accepts i = true) ->
  forall j,
    (length (Reindex.updates j) < size)%nat ->
    (length (Reindex.sink j)
     + (length (Reindex.updates j) + length cursor) / size <= K)%nat ->
    exists j',
      Reindex.loop size accepts cursor j = Reindex.Resolved j'
      /\ length (Reindex.updates j')
         = ((length (Reindex.updates j) + length cursor) mod size)%nat
      /\ Reindex.total j'
         = (Reindex.total j
            + size * ((length (Reindex.updates j) + length cursor) / size))%nat
      /\ map length (Reindex.sink j')
         = map length (Reindex.sink j)
           ++ replicate ((length (Reindex.updates j) + length cursor) / size) size
      /\ Reindex.console j'
         = Reindex.console j
           ++ running_totals (Reindex.total j)
                (replicate ((length (Reindex.updates j) + length cursor) / size) size).
Proof.
  intros Hsize Hconv Hacc. induction Hconv as [|d cursor Hd _ IH]; intros j Hq HK.
  - exists j. cbn [Reindex.loop length]. rewrite Nat.add_0_r.
    rewrite Nat.mod_small, Nat.div_small by done.
    cbn. by rewrite Nat.mul_0_r, Nat.add_0_r, !app_nil_r.
  - cbn [Reindex.loop]. destruct (Hd (Reindex.job_heap j)) as (u & h' & ->).
    cbn [length] in *.
    set (j1 := Reindex.push u (Reindex.with_heap h' j)).
    assert (Hq1 : length (Reindex.updates j1) = S (length (Reindex.updates j)))
      by (cbn; rewrite length_app; cbn; lia).
    destruct (Nat.leb_spec size (length (Reindex.updates j1))) as [Hfull|Hless].
    + assert (Hm : (length (Reindex.updates j) + S (length cursor)
                    = size + length cursor)%nat) by lia.
      rewrite Hm in *. destruct (div_add_size size (length cursor) Hsize) as [Hdiv Hmod].
      rewrite Hdiv, Hmod in *.
      unfold Reindex.batch, Reindex.bulkWrite.
      cbn [Reindex.sink Reindex.with_updates Reindex.updates Reindex.with_sink
           Reindex.total Reindex.job_heap Reindex.console j1 Reindex.push
           Reindex.with_heap].
      rewrite Hacc by lia.
      match goal with
      | |- context [Reindex.loop size accepts cursor ?j2] =>
          destruct (IH j2) as (j' & Hrun & Hupdates & Htotal & Hsink & Hconsole)
      end.
      { cbn. lia. }
      { cbn. rewrite length_app. cbn. lia. }
      exists j'. split; [exact Hrun|].
      cbn in Hupdates, Htotal, Hsink, Hconsole.
      rewrite map_app in Hsink. cbn in Hsink.
      rewrite length_app in Htotal. rewrite length_map, length_app in Hsink.
      rewrite !length_app in Hconsole.
      cbn [length] in Htotal, Hsink, Hconsole.
      assert (Hsz : (length (Reindex.updates j) + 1 = size)%nat) by lia.
      rewrite Hsz in *.
      split; [done|]. split; [rewrite Htotal, Nat.mul_succ_r; lia|].
      split.
      * rewrite Hsink, <- app_assoc. done.
      * rewrite Hconsole, <- app_assoc. cbn [replicate running_totals app].
        do 3 f_equal.
    + destruct (IH j1) as (j' & Hrun & Hupdates & Htotal & Hsink & Hconsole).
      { lia. }
      { rewrite Hq1. cbn [Reindex.sink j1 Reindex.push Reindex.with_updates
                          Reindex.with_heap].
        replace (S (length (Reindex.updates j)) + length cursor)%nat
          with (length (Reindex.updates j) + S (length cursor))%nat by lia.
        done. }
      exists j'. split; [exact Hrun|].
      rewrite Hq1 in Hupdates, Htotal, Hsink, Hconsole.
      replace (S (length (Reindex.updates j)) + length cursor)%nat
        with (length (Reindex.updates j) + S (length cursor))%nat
        in Hupdates, Htotal, Hsink, Hconsole by lia.
      done.
Qed.

(** The loop stops at the first bulk write that is rejected. *)
Lemma reindex_loop_rejected (size : nat) (accepts : nat -> bool) (k : nat)
    (cursor : list doc) :
  (0 < size)%nat ->
  Forall converts cursor ->
  (forall i, (i < k)%nat -> accepts i = true) ->
  accepts k = false ->
  forall j,
    (length (Reindex.updates j) < size)%nat ->
    (length (Reindex.sink j) <= k)%nat ->
    (k < length (Reindex.sink j)
         + (length (Reindex.updates j) + length cursor) / size)%nat ->
    exists j',
      Reindex.loop size accepts cursor j
      = Reindex.Rejected Reindex.BulkWriteRejected j'
      /\ Reindex.total j'
         = (Reindex.total j + size * (k - length (Reindex.sink j)))%nat
      /\ map length (Reindex.sink j')
         = map length (Reindex.sink j)
           ++ replicate (S k - length (Reindex.sink j)) size
      /\ Reindex.console j'
         = Reindex.console j
           ++ running_totals (Reindex.total j)
                (replicate (k - length (Reindex.sink j)) size).
Proof.
  intros Hsize Hconv Hacc Hrej.
  induction Hconv as [|d cursor Hd _ IH]; intros j Hq Hk HK.
  - cbn [length] in HK. rewrite Nat.add_0_r, Nat.div_small in HK by done. lia.
  - cbn [Reindex.loop]. destruct (Hd (Reindex.job_heap j)) as (u & h' & ->).
    cbn [length] in *.
    set (j1 := Reindex.push u (Reindex.with_heap h' j)).
    assert (Hq1 : length (Reindex.updates j1) = S (length (Reindex.updates j)))
      by (cbn; rewrite length_app; cbn; lia).
    destruct (Nat.leb_spec size (length (Reindex.updates j1))) as [Hfull|Hless].
    + assert (Hm : (length (Reindex.updates j) + S (length cursor)
                    = size + length cursor)%nat) by lia.
      rewrite Hm in *. destruct (div_add_size size (length cursor) Hsize) as [Hdiv _].
      rewrite Hdiv in *.
      assert (Hsz : (length (Reindex.updates j) + 1 = size)%nat) by lia.
      unfold Reindex.batch, Reindex.bulkWrite.
      cbn [Reindex.sink Reindex.with_updates Reindex.updates Reindex.with_sink
           Reindex.total Reindex.job_heap Reindex.console j1 Reindex.push
           Reindex.with_heap].
      destruct (decide (length (Reindex.sink j) = k)) as [Heq|Hne].
      * rewrite Heq, Hrej. eexists. split; [reflexivity|].
        cbn. rewrite Nat.sub_diag, map_app. cbn.
        rewrite length_map, length_app. cbn. rewrite Hsz.
        replace (S k - k)%nat with 1%nat by lia.
        rewrite Nat.mul_0_r, Nat.add_0_r, app_nil_r. done.
      * rewrite Hacc by lia.
        match goal with
        | |- context [Reindex.loop size accepts cursor ?j2] =>
            destruct (IH j2) as (j' & Hrun & Htotal & Hsink & Hconsole)
        end.
        { cbn. lia. }
        { cbn. rewrite length_app. cbn. lia. }
        { cbn. rewrite length_app. cbn. lia. }
        exists j'. split; [exact Hrun|].
        cbn in Htotal, Hsink, Hconsole.
        rewrite map_app in Hsink. cbn in Hsink.
        rewrite !length_app in Htotal. rewrite length_map, !length_app in Hsink.
      rewrite !length_app in Hconsole.
        cbn [length] in Htotal, Hsink, Hconsole.
        rewrite ?Hsz in *.
        replace (k - length (Reindex.sink j))%nat
          with (S (k - (length (Reindex.sink j) + 1)))%nat by lia.
        replace (S k - length (Reindex.sink j))%nat
          with (S (S k - (length (Reindex.sink j) + 1)))%nat by lia.
        split; [rewrite Htotal, Nat.mul_succ_r; lia|].
        split.
        -- rewrite Hsink, <- app_assoc. done.
        -- rewrite Hconsole, <- app_assoc. cbn [replicate running_totals app].
           do 3 f_equal.
    + destruct (IH j1) as (j' & Hrun & Htotal & Hsink & Hconsole).
      { lia. }
      { done. }
      { rewrite Hq1. cbn [Reindex.sink j1 Reindex.push Reindex.with_updates
                          Reindex.with_heap].
        replace (S (length (Reindex.updates j)) + length cursor)%nat
          with (length (Reindex.updates j) + S (length cursor))%nat by lia.
        done. }
      exists j'. split; [exact Hrun|]. done.
Qed.

Lemma batch_sizes_length (size n : nat) :
  length (batch_sizes size n)
  = (n / size + if n mod size =? 0 then 0 else 1)%nat.
Proof.
  unfold batch_sizes. rewrite length_app, length_replicate.
  by destruct (n mod size =? 0)%nat.
Qed.

Lemma typed_cursor_converts (cursor : list doc) :
  Forall (fun d => typed_record d = true) cursor -> Forall converts cursor.
Proof.
  intros Htyped. eapply Forall_impl; [exact Htyped|]. intros d. apply typed_converts.
Qed.

(** The bulk writes of a run whose writes are all accepted, counted. *)
Lemma fullReindexMode_accepted_run (size : nat) (accepts : nat -> bool)
    (cursor : list doc) :
  (0 < size)%nat ->
  Forall (fun d => typed_record d = true) cursor ->
  (forall i, (i < length (batch_sizes size (length cursor)))%nat -> accepts i = true) ->
  exists j,
    Reindex.fullReindexMode size accepts cursor = Reindex.Resolved j
    /\ Reindex.total j = length cursor
    /\ map length (Reindex.sink j) = batch_sizes size (length cursor)
    /\ Reindex.console j = running_totals 0 (batch_sizes size (length cursor)).
Proof.
  intros Hsize Htyped%typed_cursor_converts Hacc.
  set (n := length cursor) in *.
  rewrite batch_sizes_length in Hacc.
  pose proof (Nat.div_mod_eq n size) as Hn.
  unfold Reindex.fullReindexMode.
  destruct (reindex_loop_accepted size accepts (n / size) cursor Hsize Htyped)
    with (j := {| Reindex.job_heap := []; Reindex.updates := []; Reindex.total := 0;
                  Reindex.sink := []; Reindex.console := [] |})
    as (j1 & -> & Hupdates & Htotal & Hsink & Hconsole).
  { intros i Hi. apply Hacc. lia. }
  { cbn. lia. }
  { cbn. fold n. lia. }
  cbn in Hupdates, Htotal, Hsink, Hconsole. fold n in Hupdates, Htotal, Hsink, Hconsole.
  assert (Hlen : length (Reindex.sink j1) = (n / size)%nat).
  { rewrite <- (length_map length), Hsink. apply length_replicate. }
  rewrite Hupdates. unfold batch_sizes. fold n.
  destruct (Nat.eqb_spec (n mod size) 0) as [Hzero|Hrest].
  - rewrite Hzero. cbn [Nat.ltb Nat.leb]. exists j1. split; [done|].
    rewrite app_nil_r. split; [lia|]. done.
  - destruct (Nat.ltb_spec 0 (n mod size)) as [_|]; [|lia].
    unfold Reindex.rest, Reindex.bulkWrite. rewrite Hlen.
    rewrite Hacc by (destruct (Nat.eqb_spec (n mod size) 0); lia).
    eexists. split; [reflexivity|].
    cbn. rewrite map_app. cbn. rewrite length_map, Hupdates, Hsink, Hconsole, Htotal.
    rewrite running_totals_replicate_app. cbn.
    split; [lia|]. done.
Qed.

(** The bulk writes of a run up to the first one rejected, counted. *)
Lemma fullReindexMode_rejected_run (size : nat) (accepts : nat -> bool) (k : nat)
    (cursor : list doc) :
  (0 < size)%nat ->
  Forall (fun d => typed_record d = true) cursor ->
  (k < length (batch_sizes size (length cursor)))%nat ->
  (forall i, (i < k)%nat -> accepts i = true) ->
  accepts k = false ->
  exists j,
    Reindex.fullReindexMode size accepts cursor
    = Reindex.Rejected Reindex.BulkWriteRejected j
    /\ Reindex.total j = (size * k)%nat
    /\ map length (Reindex.sink j) = take (S k) (batch_sizes size (length cursor))
    /\ Reindex.console j = running_totals 0 (replicate k size).
Proof.
  intros Hsize Htyped%typed_cursor_converts Hk Hacc Hrej.
  set (n := length cursor) in *.
  rewrite batch_sizes_length in Hk.
  unfold Reindex.fullReindexMode, batch_sizes. fold n.
  destruct (decide (k < n / size)%nat) as [Hloop|Hlast].
  - destruct (reindex_loop_rejected size accepts k cursor Hsize Htyped Hacc Hrej)
      with (j := {| Reindex.job_heap := []; Reindex.updates := []; Reindex.total := 0;
                    Reindex.sink := []; Reindex.console := [] |})
      as (j1 & -> & Htotal & Hsink & Hconsole).
    { cbn. lia. }
    { cbn. lia. }
    { cbn. fold n. lia. }
    cbn in Htotal, Hsink, Hconsole. rewrite Nat.sub_0_r in Htotal, Hconsole.
    exists j1. split; [done|]. split; [done|]. split; [|done].
    rewrite Hsink, take_app_le by (rewrite length_replicate; lia).
    by rewrite take_replicate, Nat.min_l by lia.
  - destruct (Nat.eqb_spec (n mod size) 0) as [Hzero|Hrest]; [lia|].
    assert (Hkn : k = (n / size)%nat) by lia.
    destruct (reindex_loop_accepted size accepts k cursor Hsize Htyped Hacc)
      with (j := {| Reindex.job_heap := []; Reindex.updates := []; Reindex.total := 0;
                    Reindex.sink := []; Reindex.console := [] |})
      as (j1 & -> & Hupdates & Htotal & Hsink & Hconsole).
    { cbn. lia. }
    { cbn. fold n. lia. }
    cbn in Hupdates, Htotal, Hsink, Hconsole.
    fold n in Hupdates, Htotal, Hsink, Hconsole. rewrite <- Hkn in *.
    assert (Hlen : length (Reindex.sink j1) = k).
    { rewrite <- (length_map length), Hsink. apply length_replicate. }
    rewrite Hupdates.
    destruct (Nat.ltb_spec 0 (n mod size)) as [_|]; [|lia].
    unfold Reindex.rest, Reindex.bulkWrite. rewrite Hlen, Hrej.
    eexists. split; [reflexivity|].
    cbn. rewrite map_app. cbn. rewrite length_map, Hupdates, Hsink.
    split; [done|]. split; [|done].
    rewrite take_ge; [done|]. rewrite length_app, length_replicate. cbn. lia.
Qed.

(** ** [fullReindexMode]: a record that makes [anonymizeCustomer] throw *)

Lemma reindex_loop_app (size : nat) (accepts : nat -> bool)
    (before after : list doc) :
  forall j,
    Reindex.loop size accepts (before ++ after) j
    = match Reindex.loop size accepts before j with
      | Reindex.Resolved j1 => Reindex.loop size accepts after j1
      | r => r
      end.
Proof.
  induction before as [|d before IH]; intros j; cbn [app Reindex.loop]; [done|].
  destruct (Reindex.document d (Reindex.job_heap j)) as [[u h]| |]; [|done..].
  destruct (_ <=? _)%nat; [|apply IH].
  destruct (Reindex.batch accepts _); [apply IH | done..].
Qed.

Lemma anonymizeCustomer_firstName_throws (h : heap) (c : loc) :
  (c < length h)%nat ->
  truthy (lookup_prop (object_at h c) "firstName") = true ->
  textual (lookup_prop (object_at h c) "firstName") = false ->
  anonymizeCustomer (VObject c) h = Throw.
Proof.
  intros Hc Ht Hn. unfold anonymizeCustomer.
  unfold bind at 1. cbn [new_object].
  unfold bind at 1. rewrite get_prop_object, object_at_app_l by done.
  unfold bind at 1. rewrite Ht.
  by destruct (lookup_prop (object_at h c) "firstName").
Qed.

Lemma reindex_document_throws (d : doc) (h : heap) :
  firstName_not_string d = true -> Reindex.document d h = Throw.
Proof.
  destruct d as [| | | | |fs]; try done. cbn [firstName_not_string].
  rewrite !andb_true_iff, negb_true_iff. intros [[Hs Ht] Hn].
  unfold Reindex.document. unfold bind at 1. unfold deserialise.
  rewrite alloc_doc_fields. unfold bind at 1. rewrite get_prop_object.
  unfold bind at 1. rewrite anonymizeCustomer_firstName_throws; [done|..].
  - rewrite length_app. cbn. lia.
  - by rewrite object_at_app_r, alloc_fields_scalar, truthy_value_of_scalar.
  - rewrite object_at_app_r, alloc_fields_scalar by done.
    by destruct (lookup_field fs "firstName").
Qed.

(** X13.  A record whose firstName is not a string makes the promise of
    [fullReindexMode] reject when the loop reaches it.  The full batches
    before it have been written; the operations queued since the last full
    batch are never written, and the records after it are not read. *)
Theorem fullReindexMode_exception (size : nat) (accepts : nat -> bool)
    (before after : list doc) (d : doc) :
  (0 < size)%nat ->
  Forall (fun d => typed_record d = true) before ->
  firstName_not_string d = true ->
  (forall i, (i < length before / size)%nat -> accepts i = true) ->
  exists j,
    Reindex.fullReindexMode size accepts (before ++ d :: after)
    = Reindex.Rejected Reindex.Exception j
    /\ Reindex.total j = (size * (length before / size))%nat
    /\ map length (Reindex.sink j) = replicate (length before / size) size
    /\ length (Reindex.updates j) = (length before mod size)%nat.
Proof.
  intros Hsize Htyped%typed_cursor_converts Hbad Hacc.
  unfold Reindex.fullReindexMode. rewrite reindex_loop_app.
  destruct (reindex_loop_accepted size accepts (length before / size) before
              Hsize Htyped Hacc)
    with (j := {| Reindex.job_heap := []; Reindex.updates := []; Reindex.total := 0;
                  Reindex.sink := []; Reindex.console := [] |})
    as (j1 & -> & Hupdates & Htotal & Hsink & _).
  { cbn. lia. }
  { cbn. lia. }
  cbn in Hupdates, Htotal, Hsink.
  cbn [Reindex.loop]. rewrite reindex_document_throws by done.
  exists j1. done.
Qed.

Lemma fullReindexMode_exception_witness :
  let good := DObject [("_id", DNumber 7); ("firstName", DString "Jane")]%string in
  let bad := DObject [("_id", DNumber 8); ("firstName", DNumber 1)]%string in
  exists j,
    Reindex.fullReindexMode 2 (fun _ => true) [good; good; good; bad; good]
    = Reindex.Rejected Reindex.Exception j
    /\ Reindex.total j = 2%nat
    /\ map length (Reindex.sink j) = [2]%nat
    /\ length (Reindex.updates j) = 1%nat.
Proof.
  intros good bad.
  refine (fullReindexMode_exception 2 (fun _ => true) [good; good; good] [good] bad
            _ _ _ _).
  - lia.
  - repeat constructor.
  - reflexivity.
  - done.
Defined.

(** ** [fullReindexMode]: which records the bulk writes hold *)

(** The operation of a typed record has the _id of the record as filter,
    and upsert set. *)
Lemma operation_of_typed_record (d : doc) :
  typed_record d = true ->
  exists fields,
    operation_of_record d
    = Some {| filter_id := Some (record_id d);
              set_fields := Some (DObject fields);
              upsert := true |}.
Proof.
  destruct d as [| | | | |fs]; try done. intros Htyped.
  pose proof (reindex_document_run fs [] Htyped) as Hrun. cbv zeta in Hrun.
  destruct (reindex_document_operation fs [] Htyped) as (fields & Hop & _).
  cbv zeta in Hop. exists fields. unfold operation_of_record. rewrite Hrun.
  by rewrite (Hop _ (Nat.le_refl _) (fun x _ => eq_refl)).
Qed.

Lemma operations_filters (ops : list operation) (cursor : list doc) :
  Forall (fun d => typed_record d = true) cursor ->
  map Some ops = map operation_of_record cursor ->
  map filter_id ops = map (fun d => Some (record_id d)) cursor
  /\ Forall (fun op => upsert op = true) ops.
Proof.
  intros Htyped. revert ops.
  induction Htyped as [|d cursor Hd _ IH]; intros [|op ops]; cbn [map]; try done.
  intros [= Hop Hops]. destruct (operation_of_typed_record d Hd) as [fields Hf].
  rewrite Hf in Hop. injection Hop as ->.
  destruct (IH ops Hops) as [IH1 IH2].
  split; [cbn; by rewrite IH1|]. by constructor.
Qed.

Lemma tracks_batch (j : Reindex.job) (written queued : list doc) :
  tracks j written queued ->
  map Some (map (Reindex.updateOne (Reindex.job_heap j)) (Reindex.updates j))
  = map operation_of_record queued.
Proof.
  intros [_ Hq]. induction Hq as [|u d us ds Hu _ IH]; [done|]. cbn [map].
  f_equal; [|exact IH]. by apply Hu.
Qed.

(** The loop keeps track: whatever it returns, the operations issued are
    those of a prefix of the records, in order. *)
Lemma reindex_loop_tracks (size : nat) (accepts : nat -> bool) (cursor : list doc) :
  Forall (fun d => typed_record d = true) cursor ->
  forall j written queued,
    tracks j written queued ->
    match Reindex.loop size accepts cursor j with
    | Reindex.Resolved j' =>
        exists written' queued',
          tracks j' written' queued'
          /\ written' ++ queued' = written ++ queued ++ cursor
    | Reindex.Rejected _ j' =>
        exists written' unread,
          tracks j' written' []
          /\ written' ++ unread = written ++ queued ++ cursor
    | Reindex.NotModelled => True
    end.
Proof.
  induction 1 as [|d cursor Hd _ IH]; intros j written queued Ht.
  - cbn [Reindex.loop]. exists written, queued. by rewrite app_nil_r.
  - cbn [Reindex.loop]. destruct d as [| | | | |fs]; try done.
    destruct (reindex_operation_of_record fs (Reindex.job_heap j) Hd)
      as (u & h' & -> & Hlen & Hframe & Hop).
    set (j1 := Reindex.push u (Reindex.with_heap h' j)).
    destruct Ht as (Hw & Hq).
    assert (Ht1 : tracks j1 written (queued ++ [DObject fs])).
    { split; [exact Hw|]. cbn. apply Forall2_app.
      - eapply Forall2_impl; [exact Hq|]. intros u' d' Hu' H HlenH Hagree.
        apply Hu'; [lia|]. intros l Hl. rewrite Hagree by lia. by apply Hframe.
      - by constructor. }
    destruct (size <=? length (Reindex.updates j1))%nat.
    + pose proof (tracks_batch j1 written _ Ht1) as Hops.
      unfold Reindex.batch, Reindex.bulkWrite.
      cbn [Reindex.sink Reindex.with_updates Reindex.updates Reindex.with_sink
           Reindex.total Reindex.job_heap Reindex.console].
      match goal with
      | |- context [if ?b then _ else _] => destruct b
      end.
      * match goal with
        | |- context [Reindex.loop size accepts cursor ?j2] =>
            specialize (IH j2 (written ++ queued ++ [DObject fs]) [])
        end.
        rewrite <- !app_assoc in IH. cbn [app] in IH. apply IH.
        split; [|constructor].
        cbn [Reindex.sink Reindex.log Reindex.with_total Reindex.with_sink
             Reindex.with_updates Reindex.updates Reindex.job_heap].
        rewrite concat_app. cbn [concat]. rewrite app_nil_r.
        rewrite map_app, Hops.
        change (Reindex.sink j1) with (Reindex.sink j).
        by rewrite Hw, !map_app.
      * exists (written ++ queued ++ [DObject fs]), cursor.
        rewrite <- !app_assoc. split; [|done].
        split; [|constructor].
        cbn [Reindex.sink Reindex.log Reindex.with_total Reindex.with_sink
             Reindex.with_updates Reindex.updates Reindex.job_heap].
        rewrite concat_app. cbn [concat]. rewrite app_nil_r.
        rewrite map_app, Hops.
        change (Reindex.sink j1) with (Reindex.sink j).
        by rewrite Hw, !map_app.
    + specialize (IH j1 written (queued ++ [DObject fs]) Ht1).
      by rewrite <- !app_assoc in IH.
Qed.

(** The same for the whole of [fullReindexMode]. *)
Lemma fullReindexMode_tracks (size : nat) (accepts : nat -> bool) (cursor : list doc) :
  Forall (fun d => typed_record d = true) cursor ->
  match Reindex.fullReindexMode size accepts cursor with
  | Reindex.Resolved j =>
      map Some (concat (Reindex.sink j)) = map operation_of_record cursor
  | Reindex.Rejected _ j =>
      exists written unread,
        cursor = written ++ unread
        /\ map Some (concat (Reindex.sink j)) = map operation_of_record written
  | Reindex.NotModelled => True
  end.
Proof.
  intros Htyped. unfold Reindex.fullReindexMode.
  pose proof (reindex_loop_tracks size accepts cursor Htyped
                {| Reindex.job_heap := []; Reindex.updates := []; Reindex.total := 0;
                   Reindex.sink := []; Reindex.console := [] |} [] []) as Hloop.
  destruct (Reindex.loop _ _ _ _) as [j|c j|]; [| |done].
  - destruct Hloop as (written & queued & Ht & Hall); [split; [done|constructor]|].
    cbn [app] in Hall.
    pose proof (tracks_batch j written queued Ht) as Hops.
    destruct Ht as (Hw & Hq).
    destruct (0 <? length (Reindex.updates j))%nat eqn:Hrest.
    + unfold Reindex.rest, Reindex.bulkWrite.
      assert (Hsink :
                map Some
                    (concat (Reindex.sink j
                             ++ [map (Reindex.updateOne (Reindex.job_heap j))
                                     (Reindex.updates j)]))
                = map operation_of_record cursor).
      { rewrite concat_app, map_app, Hw. cbn [concat]. rewrite app_nil_r.
        by rewrite Hops, <- map_app, Hall. }
      destruct (accepts _); cbn.
      * done.
      * exists cursor, []. by rewrite app_nil_r.
    + apply Nat.ltb_ge in Hrest.
      destruct (Reindex.updates j); [|cbn in Hrest; lia].
      apply Forall2_nil_inv_l in Hq. subst queued. rewrite app_nil_r in Hall.
      by subst written.
  - destruct Hloop as (written & unread & (Hw & _) & Hall);
      [split; [done|constructor]|].
    exists written, unread. done.
Qed.

Lemma length_concat_replicate {X} (l : list (list X)) (q size : nat) :
  map length l = replicate q size -> length (concat l) = (size * q)%nat.
Proof.
  revert q. induction l as [|x l IH]; intros [|q]; cbn; try done.
  intros [= Hx Hl]. rewrite length_app, (IH q Hl), Hx. lia.
Qed.

(** A bulk write rejected inside the loop ends the run whatever the cursor
    holds after the records of that write. *)
Lemma fullReindexMode_rejected_in_loop (size : nat) (accepts : nat -> bool) (k : nat)
    (cursor : list doc) :
  (0 < size)%nat ->
  Forall (fun d => typed_record d = true) cursor ->
  (k < length cursor / size)%nat ->
  (forall i, (i < k)%nat -> accepts i = true) ->
  accepts k = false ->
  exists j,
    forall tail,
      Reindex.fullReindexMode size accepts (take (size * S k) cursor ++ tail)
      = Reindex.Rejected Reindex.BulkWriteRejected j.
Proof.
  intros Hsize Htyped Hk Hacc Hrej.
  set (before := take (size * S k) cursor).
  assert (Hlen : length before = (size * S k)%nat).
  { unfold before. rewrite length_take.
    pose proof (Nat.div_mod_eq (length cursor) size) as Hn.
    assert (size * S k <= size * (length cursor / size))%nat
      by (apply Nat.mul_le_mono_l; lia).
    lia. }
  destruct (reindex_loop_rejected size accepts k before Hsize) with
    (j := {| Reindex.job_heap := []; Reindex.updates := []; Reindex.total := 0;
             Reindex.sink := []; Reindex.console := [] |})
    as (j & Hrun & _); try done.
  - apply typed_cursor_converts. by apply Forall_take.
  - cbn. lia.
  - cbn. rewrite Hlen, Nat.mul_comm, Nat.div_mul by lia. lia.
  - exists j. intros tail. unfold Reindex.fullReindexMode.
    by rewrite reindex_loop_app, Hrun.
Qed.

(** X11.  A full reindex of [n] typed records whose bulk writes are all
    accepted resolves after writing every record once: the operations
    issued are, in the order of the cursor, the operation of each record,
    filtered on the _id of the record with upsert set.  They go out in bulk
    writes of [size] operations each, then one of the remainder when [n] is
    not a multiple of [size]; [total] ends at [n], and the log shows the
    running total after each write. *)
Theorem fullReindexMode_batches (size : nat) (accepts : nat -> bool)
    (cursor : list doc) :
  (0 < size)%nat ->
  Forall (fun d => typed_record d = true) cursor ->
  (forall i, (i < length (batch_sizes size (length cursor)))%nat -> accepts i = true) ->
  exists j,
    Reindex.fullReindexMode size accepts cursor = Reindex.Resolved j
    /\ map Some (concat (Reindex.sink j)) = map operation_of_record cursor
    /\ map filter_id (concat (Reindex.sink j))
       = map (fun d => Some (record_id d)) cursor
    /\ Forall (fun op => upsert op = true) (concat (Reindex.sink j))
    /\ Reindex.total j = length cursor
    /\ map length (Reindex.sink j) = batch_sizes size (length cursor)
    /\ Reindex.console j = running_totals 0 (batch_sizes size (length cursor)).
Proof.
  intros Hsize Htyped Hacc.
  destruct (fullReindexMode_accepted_run size accepts cursor Hsize Htyped Hacc)
    as (j & Hrun & Htotal & Hsink & Hconsole).
  pose proof (fullReindexMode_tracks size accepts cursor Htyped) as Ht.
  rewrite Hrun in Ht.
  destruct (operations_filters _ _ Htyped Ht) as [Hfilters Hupserts].
  by exists j.
Qed.

Lemma fullReindexMode_batches_witness :
  let record n := DObject [("_id", DNumber n); ("firstName", DString "Jane")]%string in
  exists j,
    Reindex.fullReindexMode 2 (fun _ => true) [record 1; record 2; record 3]
    = Reindex.Resolved j
    /\ map filter_id (concat (Reindex.sink j))
       = [Some (DNumber 1); Some (DNumber 2); Some (DNumber 3)]
    /\ Reindex.total j = 3%nat
    /\ map length (Reindex.sink j) = [2; 1]%nat
    /\ Reindex.console j = [2; 3]%nat.
Proof.
  intros record.
  destruct (fullReindexMode_batches 2 (fun _ => true)
              [record 1; record 2; record 3])
    as (j & Hrun & _ & Hfilters & _ & Htotal & Hsink & Hconsole).
  - lia.
  - repeat constructor.
  - done.
  - exists j. split; [exact Hrun|]. split; [exact Hfilters|].
    split; [exact Htotal|]. split; [exact Hsink | exact Hconsole].
Defined.

(** X12.  When the bulk write number [k] (counting from 0) is the first to
    be rejected, the promise of [fullReindexMode] rejects at once.  The
    rejected write is the last one issued and nothing of it is retried: the
    operations issued are those of the first [size * (k + 1)] records (of
    all the records when there are fewer), one each, in order, and [total]
    and the log stand at the [k] full batches written before.  When the
    rejected write is one of the loop, the records after it are not read:
    the run ends in the same way whatever follows them in the cursor. *)
Theorem fullReindexMode_rejected (size : nat) (accepts : nat -> bool) (k : nat)
    (cursor : list doc) :
  (0 < size)%nat ->
  Forall (fun d => typed_record d = true) cursor ->
  (k < length (batch_sizes size (length cursor)))%nat ->
  (forall i, (i < k)%nat -> accepts i = true) ->
  accepts k = false ->
  exists j,
    Reindex.fullReindexMode size accepts cursor
    = Reindex.Rejected Reindex.BulkWriteRejected j
    /\ map Some (concat (Reindex.sink j))
       = map operation_of_record (take (size * S k) cursor)
    /\ map filter_id (concat (Reindex.sink j))
       = map (fun d => Some (record_id d)) (take (size * S k) cursor)
    /\ ((k < length cursor / size)%nat ->
        forall tail,
          Reindex.fullReindexMode size accepts (take (size * S k) cursor ++ tail)
          = Reindex.Rejected Reindex.BulkWriteRejected j)
    /\ Reindex.total j = (size * k)%nat
    /\ map length (Reindex.sink j) = take (S k) (batch_sizes size (length cursor))
    /\ Reindex.console j = running_totals 0 (replicate k size).
Proof.
  intros Hsize Htyped Hk Hacc Hrej.
  destruct (fullReindexMode_rejected_run size accepts k cursor Hsize Htyped Hk
              Hacc Hrej) as (j & Hrun & Htotal & Hsink & Hconsole).
  exists j. split; [exact Hrun|].
  assert (Hops : map Some (concat (Reindex.sink j))
                 = map operation_of_record (take (size * S k) cursor));
    [|split; [exact Hops|]; split;
      [by apply operations_filters; [apply Forall_take|]|]; split; [|done]].
  - pose proof (fullReindexMode_tracks size accepts cursor Htyped) as Ht.
    rewrite Hrun in Ht. destruct Ht as (written & unread & Hcursor & Hfilters).
    rewrite Hfilters. f_equal.
    assert (Hlen : length written = length (concat (Reindex.sink j))).
    { rewrite <- (length_map Some (concat _)), Hfilters. by rewrite length_map. }
    rewrite batch_sizes_length in Hk. unfold batch_sizes in Hsink.
    pose proof (Nat.div_mod_eq (length cursor) size) as Hn.
    destruct (decide (k < length cursor / size)%nat) as [Hloop|Hlast].
    + rewrite take_app_le, take_replicate, Nat.min_l in Hsink
        by (rewrite ?length_replicate; lia).
      apply length_concat_replicate in Hsink.
      rewrite Hcursor. symmetry. apply take_app_length'. lia.
    + destruct (Nat.eqb_spec (length cursor mod size) 0) as [Hzero|Hrest]; [lia|].
      assert (Hkn : k = (length cursor / size)%nat) by lia.
      rewrite take_ge in Hsink by (rewrite length_app, length_replicate; cbn; lia).
      assert (Hall : length (concat (Reindex.sink j)) = length cursor).
      { clear - Hsink Hn Hkn. rewrite <- Hkn in *.
        revert Hsink Hn. generalize (length cursor mod size)%nat.
        generalize (length cursor). generalize (Reindex.sink j). clear.
        intros l. revert k. induction l as [|x l IH]; intros [|k] n r; cbn;
          try done.
        - intros [= Hx Hl]. destruct l; [|done]. cbn. rewrite app_nil_r. lia.
        - intros [= Hx Hl] Hn. rewrite length_app, Hx.
          rewrite (IH k (n - size)%nat r Hl); lia. }
      pose proof (Nat.mod_upper_bound (length cursor) size ltac:(lia)) as Hr.
      rewrite take_ge by (rewrite Hkn, Nat.mul_succ_r; lia).
      rewrite Hcursor, length_app in Hall.
      assert (unread = []) by (destruct unread; [done | cbn in Hall; lia]).
      subst unread. by rewrite app_nil_r in Hcursor.
  - intros Hloop.
    destruct (fullReindexMode_rejected_in_loop size accepts k cursor Hsize Htyped
                Hloop Hacc Hrej) as (j' & Htail).
    pose proof (Htail (drop (size * S k) cursor)) as Hsame.
    rewrite take_drop, Hrun in Hsame. injection Hsame as <-. exact Htail.
Qed.

Lemma fullReindexMode_rejected_witness :
  let record n := DObject [("_id", DNumber n); ("firstName", DString "Jane")]%string in
  exists j,
    Reindex.fullReindexMode 2 (fun i => negb (i =? 1)%nat)
                            [record 1; record 2; record 3; record 4; record 5]
    = Reindex.Rejected Reindex.BulkWriteRejected j
    /\ map filter_id (concat (Reindex.sink j))
       = [Some (DNumber 1); Some (DNumber 2); Some (DNumber 3); Some (DNumber 4)]
    /\ (forall tail,
          Reindex.fullReindexMode 2 (fun i => negb (i =? 1)%nat)
                                  ([record 1; record 2; record 3; record 4] ++ tail)
          = Reindex.Rejected Reindex.BulkWriteRejected j)
    /\ Reindex.total j = 2%nat
    /\ map length (Reindex.sink j) = [2; 2]%nat
    /\ Reindex.console j = [2]%nat.
Proof.
  intros record.
  destruct (fullReindexMode_rejected 2 (fun i => negb (i =? 1)%nat) 1
              [record 1; record 2; record 3; record 4; record 5])
    as (j & Hrun & _ & Hfilters & Htail & Htotal & Hsink & Hconsole).
  - lia.
  - repeat constructor.
  - cbn. lia.
  - intros [|i] Hi; [done | lia].
  - done.
  - exists j. split; [exact Hrun|]. split; [exact Hfilters|].
    split; [apply Htail; cbn; lia|].
    split; [exact Htotal|]. split; [exact Hsink | exact Hconsole].
Defined.

(** ** [syncMode]: an insert *)

(** The names of an anonymised customer. *)
Lemma lookup_anonymous_of_name (o : object) (k : string) :
  k ∈ ["firstName"; "lastName"; "email"]%string ->
  lookup_prop (anonymous_of o) k
  = if truthy (lookup_prop o k)
    then (if String.eqb k "email" then email_value (lookup_prop o k)
          else token_value (lookup_prop o k))
    else VUndefined.
Proof.
  intros Hk. unfold anonymous_of. rewrite !lookup_put_if_truthy.
  rewrite !elem_of_cons, elem_of_nil in Hk.
  destruct Hk as [->|[->|[->|[]]]]; cbn;
    rewrite ?andb_false_r, ?andb_true_r;
    by destruct (truthy (lookup_prop o _)).
Qed.

(** X14.  An insert of a typed record, while the queue stays below the
    maximum, adds one pending update and does nothing else.  The update
    carries the token of the event and the _id of the record: whenever it is
    serialised later, its _id reads as that of the record, whatever kind of
    value it is.  The update is the anonymised record in nested form.  It
    holds exactly those of firstName, lastName, email and address for which
    the record has a truthy value, so the other fields of the record are not
    copied.  firstName and lastName hold the tokens of those of the record,
    email its anonymised form.  The address is an object with the fields of
    the address of the record in their order: the token of line1, line2 and
    postcode when not empty, and every other field as the record has it. *)
Theorem insert_queues_anonymised_record
    (cfg : config) (st : state) (change : ChangeStreamDocument)
    (token : ResumeToken) (fs : list (string * doc)) :
  cs_closed st = false ->
  operationType change = "insert"%string ->
  fullDocument change = DObject fs ->
  typed_record (DObject fs) = true ->
  (S (length (updates st)) < MAX_BATCH_SIZE cfg)%nat ->
  exists st' u l,
    step cfg st (Change change token) = Ok st'
    /\ updates st' = updates st ++ [u]
    /\ resumeToken u = token
    /\ reads_as (st_heap st') (_id u) (lookup_field fs "_id")
    /\ update u = VObject l
    /\ (forall k, k ∈ keys (object_at (st_heap st') l)
                  <-> k ∈ anonymizable /\ truthy_doc (lookup_field fs k) = true)
    /\ (forall k, k ∈ ["firstName"; "lastName"; "email"]%string ->
                  lookup_prop (object_at (st_heap st') l) k
                  = if truthy_doc (lookup_field fs k)
                    then (if String.eqb k "email"
                          then email_value (value_of_scalar (lookup_field fs k))
                          else token_value (value_of_scalar (lookup_field fs k)))
                    else VUndefined)
    /\ (forall g,
          lookup_field fs "address" = DObject g ->
          exists a,
            lookup_prop (object_at (st_heap st') l) "address" = VObject a
            /\ keys (object_at (st_heap st') a) = map fst g
            /\ forall f,
                if address_line f
                then lookup_prop (object_at (st_heap st') a) f
                     = (if truthy_doc (lookup_field g f)
                        then token_value (value_of_scalar (lookup_field g f))
                        else value_of_scalar (lookup_field g f))
                else reads_as (st_heap st') (lookup_prop (object_at (st_heap st') a) f)
                              (lookup_field g f))
    /\ sink st' = sink st /\ timers st' = timers st
    /\ flushes st' = flushes st /\ console st' = console st.
Proof.
  intros Hopen Hop Hdoc Htyped Hq.
  pose proof (alloc_typed_record fs (st_heap st) Htyped) as Htc.
  set (customer := (alloc_fields fs (st_heap st)).1) in *.
  set (h0 := (alloc_fields fs (st_heap st)).2) in *.
  set (h1 := h0 ++ [customer]) in *.
  assert (Hat1 : object_at h1 (length h0) = customer) by apply object_at_app_r.
  cbn [step]. rewrite Hopen.
  unfold on_change, on_change_dispatch, on_change_insert. cbn [operationType].
  rewrite Hop, Hdoc. cbn [String.eqb Ascii.eqb Bool.eqb].
  unfold run. cbn [st_heap with_stream].
  unfold bind at 1. unfold deserialise. rewrite alloc_doc_fields.
  fold customer h0 h1.
  unfold bind at 1. rewrite get_prop_object, Hat1.
  unfold bind at 1. rewrite anonymizeCustomer_typed by done.
  cbn [ret]. unfold on_change_update. rewrite Hop.
  cbn [String.eqb Ascii.eqb Bool.eqb].
  unfold on_change_check. cbn [updates push with_updates with_heap with_stream].
  rewrite length_app. cbn [length].
  destruct (Nat.leb_spec (MAX_BATCH_SIZE cfg) (length (updates st) + 1)); [lia|].
  eexists _, _, (length h1). split; [reflexivity|].
  cbn [updates push with_updates with_heap with_stream resumeToken _id
       update cs_resumeToken st_heap sink timers flushes console].
  split; [done|]. split; [done|].
  split; [by apply anonymized_record_field|].
  split; [done|]. rewrite anonymized_heap_result, Hat1.
  assert (Hnames : forall k, k ∈ ["firstName"; "lastName"; "email"]%string ->
                     scalar_doc (lookup_field fs k) = true).
  { cbn [typed_record] in Htyped. rewrite !andb_true_iff in Htyped.
    destruct Htyped as [[[H1 H2] H3] _].
    intros k Hk. rewrite !elem_of_cons, elem_of_nil in Hk.
    destruct Hk as [->|[->|[->|[]]]]; by apply textual_scalar. }
  split; [|split; [|split; [|done]]].
  - intros k. rewrite anonymous_of_keys.
    split; intros [Hk Ht]; (split; [done|]).
    + by rewrite <- (typed_record_truthy fs (st_heap st)).
    + unfold customer. by rewrite typed_record_truthy.
  - intros k Hk. rewrite lookup_anonymous_of_name by done.
    unfold customer. rewrite alloc_fields_scalar by by apply Hnames.
    by rewrite truthy_value_of_scalar by by apply Hnames.
  - intros g Hg.
    destruct (anonymized_record_address fs g (st_heap st) Htyped Hg)
      as (a & Ha & Hlen & Hkeys & Hfields).
    exists a. split; [by apply anonymous_of_address|]. done.
Qed.

Lemma insert_queues_anonymised_record_witness :
  let fs := [("_id", DObject [("$oid", DString "5f1")]);
             ("firstName", DString "Jane"); ("createdAt", DNumber 1)]%string in
  let change := {| operationType := "insert"; fullDocument := DObject fs;
                   documentKey := DObject [("_id", DObject [("$oid", DString "5f1")])];
                   updateDescription := None |}%string in
  exists st' u l,
    step source_config (syncMode source_config None) (Change change (DString "t1"))
    = Ok st'
    /\ updates st' = [u]
    /\ resumeToken u = DString "t1"
    /\ filter_id (operation_of (st_heap st') u)
       = Some (DObject [("$oid", DString "5f1")]%string)
    /\ update u = VObject l
    /\ lookup_prop (object_at (st_heap st') l) "firstName" = VString (hash "Jane")
    /\ ("createdAt"%string ∉ keys (object_at (st_heap st') l)).
Proof.
  intros fs change.
  destruct (insert_queues_anonymised_record source_config
              (syncMode source_config None) change (DString "t1") fs
              eq_refl eq_refl eq_refl eq_refl)
    as (st' & u & l & Hstep & Hq & Htoken & Hid & Hupdate & Hkeys & Hnames & _).
  { cbn. lia. }
  exists st', u, l. split; [exact Hstep|]. split; [exact Hq|].
  split; [exact Htoken|]. split; [exact (reads_as_here _ _ _ Hid)|].
  split; [exact Hupdate|].
  split.
  - apply (Hnames "firstName"%string), list_elem_of_here.
  - intros [Hk _]%Hkeys. unfold anonymizable in Hk.
    rewrite !elem_of_cons, elem_of_nil in Hk.
    destruct Hk as [?|[?|[?|[?|[]]]]]; discriminate.
Defined.

(** ** [syncMode]: the size of a bulk write *)

Lemma flush_then_rearm_sink (cfg : config) (o : origin) (now : Z) (st : state) :
  sink (flush_then_rearm cfg o now st)
  = sink st ++ match updates st with
               | [] => []
               | _ => [map (operation_of (st_heap st)) (updates st)]
               end.
Proof.
  unfold flush_then_rearm.
  destruct (updates st) as [|u0 q] eqn:Hq.
  - rewrite bulkWriteUpdates_empty by done. rewrite app_nil_r. by destruct o.
  - destruct (nonempty_snoc (u0 :: q)) as (q' & u & Hsnoc); [cbn; lia|].
    rewrite <- Hq in Hsnoc.
    destruct (bulkWriteUpdates_started o st q' u Hsnoc) as (st1 & -> & _ & -> & _).
    by rewrite <- Hsnoc, Hq.
Qed.

Lemma flush_then_rearm_sizes (cfg : config) (o : origin) (now : Z) (st : state)
    (n : nat) :
  (length (updates st) <= n)%nat ->
  Forall (fun ops : list operation => (0 < length ops <= n)%nat) (sink st) ->
  Forall (fun ops : list operation => (0 < length ops <= n)%nat)
         (sink (flush_then_rearm cfg o now st)).
Proof.
  intros Hq Hsink. rewrite flush_then_rearm_sink. apply Forall_app. split; [done|].
  destruct (updates st) as [|u q] eqn:Hu; [constructor|].
  constructor; [|constructor]. rewrite length_map. cbn in *. lia.
Qed.

Lemma step_bulk_writes_bounded (cfg : config) (st st' : state) (i : input) :
  (0 < MAX_BATCH_SIZE cfg)%nat ->
  (length (updates st) < MAX_BATCH_SIZE cfg)%nat ->
  Forall (fun ops : list operation => (0 < length ops <= MAX_BATCH_SIZE cfg)%nat)
         (sink st) ->
  step cfg st i = Ok st' ->
  Forall (fun ops : list operation => (0 < length ops <= MAX_BATCH_SIZE cfg)%nat)
         (sink st').
Proof.
  intros Hmax Hq Hsink.
  destruct i as [change token|id start finish|id ok|id ok now| |]; cbn [step].
  - destruct (cs_closed st); [by intros [= <-]|].
    unfold on_change.
    destruct (on_change_dispatch change _) as [[st1 returned]| |] eqn:Hd; [|done..].
    apply on_change_dispatch_queue in Hd as ((_ & _ & _ & _ & _ & _ & Hs) & _ & Hq1).
    cbn in Hs, Hq1.
    destruct returned; intros [= <-]; [by rewrite Hs|].
    unfold on_change_check.
    destruct (Nat.leb_spec (MAX_BATCH_SIZE cfg) (length (updates st1)));
      [|by rewrite Hs].
    apply flush_then_rearm_sizes; cbn; [|by rewrite Hs].
    destruct Hq1 as [->|[u ->]]; [lia|]. rewrite length_app. cbn. lia.
  - case_bool_decide; intros [= <-]; [|done].
    unfold on_timeout. apply flush_then_rearm_sizes; cbn; [lia | done].
  - intros [= <-]. by destruct (on_bulkWrite_settled_same id ok st) as (-> & _).
  - intros [= <-]. by destruct (on_writeFile_settled_same cfg id ok now st) as (-> & _).
  - by intros [= <-].
  - by intros [= <-].
Qed.

(** X15.  [bulkWrite] is never called with an empty list of operations nor
    with more than [MAX_BATCH_SIZE] of them, whatever the events. *)
Theorem bulk_writes_bounded
    (cfg : config) (file : option ResumeToken) (inputs : list input) (st : state) :
  (0 < MAX_BATCH_SIZE cfg)%nat ->
  steps cfg (syncMode cfg file) inputs = Ok st ->
  Forall (fun ops : list operation => (0 < length ops <= MAX_BATCH_SIZE cfg)%nat)
         (sink st).
Proof.
  intros Hmax Hrun.
  enough (Hinv : (length (updates st) < MAX_BATCH_SIZE cfg)%nat
                 /\ Forall (fun ops : list operation =>
                              (0 < length ops <= MAX_BATCH_SIZE cfg)%nat) (sink st))
    by apply Hinv.
  revert Hrun.
  apply (steps_invariant cfg
           (fun s => (length (updates s) < MAX_BATCH_SIZE cfg)%nat
                     /\ Forall (fun ops : list operation =>
                                  (0 < length ops <= MAX_BATCH_SIZE cfg)%nat)
                               (sink s))).
  - intros s i s' [Hq Hsink] Hstep. split.
    + by apply (step_queue_bound cfg s s' i).
    + by apply (step_bulk_writes_bounded cfg s s' i).
  - unfold syncMode. destruct file as [t|]; [destruct (truthy_doc t)|];
      (split; [done | constructor]).
Qed.

Lemma bulk_writes_bounded_witness :
  let insert name token :=
    Change {| operationType := "insert";
              fullDocument := DObject [("_id", DString name);
                                       ("firstName", DString name)];
              documentKey := DObject [("_id", DString name)];
              updateDescription := None |} (DString token) in
  exists st,
    steps test_config (syncMode test_config None)
          [insert "a" "t1"; insert "b" "t2"; Timeout 0 0 5; insert "c" "t3"]%string
    = Ok st
    /\ map length (sink st) = [2]%nat
    /\ Forall (fun ops : list operation => (0 < length ops <= 3)%nat) (sink st).
Proof.
  intros insert.
  destruct (steps test_config (syncMode test_config None)
              [insert "a" "t1"; insert "b" "t2"; Timeout 0 0 5; insert "c" "t3"]%string)
    as [st| |] eqn:Hrun; [|vm_compute in Hrun; discriminate..].
  exists st. split; [reflexivity|]. split.
  - vm_compute in Hrun. by injection Hrun as <-.
  - refine (bulk_writes_bounded test_config None _ st _ Hrun). cbn. lia.
Defined.

(** ** [syncMode]: the periodic flush stays scheduled *)

Lemma flush_then_rearm_scheduled (cfg : config) (o : origin) (now : Z) (st : state) :
  (0 < length (timers (flush_then_rearm cfg o now st))
       + length (flushes (flush_then_rearm cfg o now st)))%nat.
Proof.
  unfold flush_then_rearm.
  destruct (updates st) as [|u0 q] eqn:Hq.
  - rewrite bulkWriteUpdates_empty by done.
    destruct o; cbn; rewrite length_app; cbn; lia.
  - destruct (nonempty_snoc (u0 :: q)) as (q' & u & Hsnoc); [cbn; lia|].
    rewrite <- Hq in Hsnoc.
    destruct (bulkWriteUpdates_started o st q' u Hsnoc)
      as (st1 & -> & _ & _ & -> & _).
    rewrite length_app. cbn. lia.
Qed.

Lemma step_scheduled (cfg : config) (st st' : state) (i : input) :
  i <> Cancel ->
  (0 < length (timers st) + length (flushes st))%nat ->
  step cfg st i = Ok st' ->
  (0 < length (timers st') + length (flushes st'))%nat.
Proof.
  intros Hi Hst.
  destruct i as [change token|id start finish|id ok|id ok now| |]; cbn [step].
  - destruct (cs_closed st); [by intros [= <-]|].
    unfold on_change.
    destruct (on_change_dispatch change _) as [[st1 returned]| |] eqn:Hd; [|done..].
    apply on_change_dispatch_queue in Hd as ((_ & Ht & _ & Hf & _) & _).
    cbn in Ht, Hf.
    destruct returned; intros [= <-]; [by rewrite Ht, Hf|].
    unfold on_change_check. destruct (_ <=? _)%nat; [|by rewrite Ht, Hf].
    apply flush_then_rearm_scheduled.
  - case_bool_decide; intros [= <-]; [|done].
    apply flush_then_rearm_scheduled.
  - intros [= <-]. unfold on_bulkWrite_settled.
    destruct (find_flush id (flushes st)) as [f|]; [|done].
    destruct (fl_stage f); [|done]. cbn. by rewrite length_map.
  - intros [= <-]. unfold on_writeFile_settled.
    destruct (find_flush id (flushes st)) as [f|]; [|done].
    destruct (fl_stage f); [done|].
    destruct ok, (fl_origin f); cbn; rewrite length_app; cbn; lia.
  - by intros [= <-].
  - done.
Qed.

(** X16.  Until [cancel] is called, the periodic flush never stops: after
    any events, a timer of [repeat] is pending or a call of
    [bulkWriteUpdates], whose [finally] callback arms the next timer, is
    suspended. *)
Theorem flush_stays_scheduled
    (cfg : config) (file : option ResumeToken) (inputs : list input) (st : state) :
  Forall (fun i => i <> Cancel) inputs ->
  steps cfg (syncMode cfg file) inputs = Ok st ->
  (0 < length (timers st) + length (flushes st))%nat.
Proof.
  intros Hinputs.
  assert (Hinit : (0 < length (timers (syncMode cfg file))
                       + length (flushes (syncMode cfg file)))%nat).
  { unfold syncMode. destruct file as [t|]; [destruct (truthy_doc t)|]; cbn; lia. }
  revert Hinit. generalize (syncMode cfg file).
  induction Hinputs as [|i inputs Hi _ IH]; intros st0 H0; cbn [steps].
  - by intros [= <-].
  - destruct (step cfg st0 i) as [st1| |] eqn:Hstep; [|done..].
    apply IH. by apply (step_scheduled cfg st0 st1 i).
Qed.

Lemma flush_stays_scheduled_witness :
  let insert :=
    Change {| operationType := "insert";
              fullDocument := DObject [("_id", DString "a")];
              documentKey := DObject [("_id", DString "a")];
              updateDescription := None |}%string (DString "t1") in
  exists st,
    steps source_config (syncMode source_config None)
          [insert; Timeout 0 0 5; BulkWriteSettled 0 false] = Ok st
    /\ timers st = []
    /\ (0 < length (timers st) + length (flushes st))%nat.
Proof.
  intros insert.
  destruct (steps source_config (syncMode source_config None)
              [insert; Timeout 0 0 5; BulkWriteSettled 0 false])
    as [st| |] eqn:Hrun; [|vm_compute in Hrun; discriminate..].
  exists st. split; [reflexivity|]. split.
  - vm_compute in Hrun. by injection Hrun as <-.
  - refine (flush_stays_scheduled source_config None _ st _ Hrun).
    repeat constructor; discriminate.
Defined.

(** ** [syncMode]: [cancel] while a flush is in flight *)

Lemma find_flush_clearTimeout (id : nat) (st : state) :
  find_flush id (flushes (with_stream (cs_resumeToken st) true (clearTimeout st)))
  = find_flush id (flushes st).
Proof. reflexivity. Qed.

(** X17.  [cancel] neither waits for nor stops a call of [bulkWriteUpdates]
    that is suspended: when the save of its token ends after [cancel], the
    token is written to the file and the [finally] callback arms a new timer,
    which is pending under [timerId] although the stream is closed. *)
Theorem cancel_leaves_flush_running
    (cfg : config) (st : state) (id : nat) (f : flush) (now : Z) :
  find_flush id (flushes st) = Some f ->
  fl_stage f = AwaitingWriteFile ->
  exists st1 st2,
    step cfg st Cancel = Ok st1
    /\ step cfg st1 (WriteFileSettled id true now) = Ok st2
    /\ cs_closed st2 = true
    /\ token_file st2 = Some (lastResumeToken f)
    /\ timerId st2 ∈ (timers st2).*1
    /\ sink st2 = sink st.
Proof.
  intros Hfind Hstage. eexists _, _. split; [reflexivity|].
  cbn [step]. unfold on_writeFile_settled.
  rewrite find_flush_clearTimeout, Hfind, Hstage.
  split; [reflexivity|].
  destruct (fl_origin f); cbn; (split; [done|]); (split; [done|]);
    (split; [|done]); rewrite fmap_app; apply elem_of_app; right;
    apply list_elem_of_here.
Qed.

Lemma cancel_leaves_flush_running_witness :
  let insert :=
    Change {| operationType := "insert";
              fullDocument := DObject [("_id", DString "a")];
              documentKey := DObject [("_id", DString "a")];
              updateDescription := None |}%string (DString "t1") in
  exists st st1 st2,
    steps source_config (syncMode source_config None)
          [insert; Timeout 0 0 5; BulkWriteSettled 0 true] = Ok st
    /\ step source_config st Cancel = Ok st1
    /\ timers st1 = []
    /\ step source_config st1 (WriteFileSettled 0 true 9) = Ok st2
    /\ token_file st2 = Some (DString "t1")
    /\ timerId st2 ∈ (timers st2).*1.
Proof.
  intros insert.
  destruct (steps source_config (syncMode source_config None)
              [insert; Timeout 0 0 5; BulkWriteSettled 0 true])
    as [st| |] eqn:Hrun; [|vm_compute in Hrun; discriminate..].
  assert (Hfind : find_flush 0 (flushes st)
                  = Some {| fl_origin := FromTimer 0; fl_stage := AwaitingWriteFile;
                            lastResumeToken := DString "t1"; fl_length := 1 |}).
  { vm_compute in Hrun. by injection Hrun as <-. }
  destruct (cancel_leaves_flush_running source_config st 0 _ 9 Hfind eq_refl)
    as (st1 & st2 & Hcancel & Hsettle & _ & Hfile & Htimer & _).
  exists st, st1, st2. split; [reflexivity|]. split; [exact Hcancel|].
  split.
  - cbn [step] in Hcancel. injection Hcancel as <-.
    vm_compute in Hrun. by injection Hrun as <-.
  - split; [exact Hsettle|]. split; [exact Hfile | exact Htimer].
Defined.

(** ** [createUpdate] on a delta in dot notation *)

Lemma strip_prefix_eq (p : string) :
  forall s f, strip_prefix p s = Some f -> s = p +:+ f.
Proof.
  induction p as [|b p IH]; intros s f; cbn [strip_prefix].
  - by intros [= ->].
  - destruct s as [|a s]; [done|].
    destruct (Ascii.eqb_spec a b) as [->|]; [|done].
    intros ->%IH. reflexivity.
Qed.

Lemma address_path_eq (k : string) :
  address_path k = true ->
  exists f, k = "address" +:+ "." +:+ f /\ contains "." f = false
            /\ dotted_key k = true /\ path_field k = f.
Proof.
  unfold address_path.
  destruct (strip_prefix "address." k) as [f|] eqn:Hf; [|done].
  intros Hdot%negb_true_iff. apply strip_prefix_eq in Hf. subst k.
  exists f. split; [reflexivity|]. split; [done|]. split; [reflexivity|].
  unfold path_field.
  change ("address." +:+ f) with ("address" +:+ String "." f).
  rewrite split_at_first by reflexivity. by rewrite split_without.
Qed.

Lemma other_key_cases (k : string) :
  other_key k = true -> dotted_key k = false /\ k <> "address"%string.
Proof.
  unfold other_key, bare_key. intros [Hd Hb]%andb_true_iff.
  apply negb_true_iff in Hd, Hb. split; [done|]. by apply String.eqb_neq.
Qed.

Lemma delta_key_cases (k : string) :
  other_key k || address_path k = true ->
  k <> "address"%string
  /\ (dotted_key k = false
      \/ exists f, k = "address" +:+ "." +:+ f /\ contains "." f = false
                   /\ dotted_key k = true /\ path_field k = f).
Proof.
  intros [Hk|Hk]%orb_true_iff.
  - apply other_key_cases in Hk as [Hd Hne]. split; [done | by left].
  - apply address_path_eq in Hk as (f & Hk & Hrest). split; [|right; eauto].
    rewrite Hk. intros Heq. symmetry in Heq. by apply dotted_path_not_bare in Heq.
Qed.

Lemma object_at_app_first (h tail : heap) (o : object) :
  object_at (h ++ o :: tail) (length h) = o.
Proof. unfold object_at. by rewrite app_nth2, Nat.sub_diag by lia. Qed.

Lemma object_at_app_second (h : heap) (o o' : object) :
  object_at (h ++ [o; o']) (S (length h)) = o'.
Proof.
  unfold object_at. rewrite app_nth2 by lia.
  by replace (S (length h) - length h)%nat with 1%nat by lia.
Qed.

Lemma insert_app_first (h tail : heap) (o x : object) :
  <[length h := x]> (h ++ o :: tail) = h ++ x :: tail.
Proof. rewrite insert_app_r_alt by lia. by rewrite Nat.sub_diag. Qed.

Lemma insert_app_second (h : heap) (o o' x : object) :
  <[S (length h) := x]> (h ++ [o; o']) = h ++ [o; x].
Proof.
  rewrite insert_app_r_alt by lia.
  by replace (S (length h) - length h)%nat with 1%nat by lia.
Qed.

(** The first loop once the address object exists. *)
Lemma createUpdate_keys_with_group (h : heap) (uf : loc) (ks : list string) :
  (uf < length h)%nat ->
  Forall (fun k => (other_key k || address_path k) && proto_free k = true) ks ->
  forall (flag : bool) (customer group : object),
    lookup_prop customer "address" = VObject (S (length h)) ->
    createUpdate_keys (VObject uf) (VObject (length h)) flag ks
                      (h ++ [customer; group])
    = Ok (flag,
          h ++ [fold_left (stage1_customer_step (S (length h)) (object_at h uf))
                          ks customer;
                fold_left (stage1_group_step (object_at h uf)) ks group]).
Proof.
  intros Huf Hks. induction Hks as [|k ks Hk _ IH]; intros flag customer group Hg;
    cbn [createUpdate_keys fold_left]; [done|].
  unfold bind at 1. apply andb_true_iff in Hk as [Hk Hp].
  assert (Hdelta : object_at (h ++ [customer; group]) uf = object_at h uf)
    by by apply object_at_app_old.
  destruct (delta_key_cases k Hk) as [Hne [Hd|(f & Hkf & Hf & Hd & Hpath)]].
  - rewrite createUpdate_key_other
      by (done || unfold other_key, bare_key; rewrite Hd;
          by apply String.eqb_neq in Hne as ->).
    rewrite object_at_app_first, Hdelta, insert_app_first.
    replace (stage1_customer_step (S (length h)) (object_at h uf) customer k)
      with (store_prop customer k (lookup_prop (object_at h uf) k))
      by (unfold stage1_customer_step; by rewrite Hd).
    replace (stage1_group_step (object_at h uf) group k) with group
      by (unfold stage1_group_step; by rewrite Hd).
    apply IH. by rewrite lookup_store_ne.
  - rewrite (createUpdate_key_dotted_old _ _ _ (S (length h)));
      [|done|done|by rewrite object_at_app_first|by apply startsWith_split].
    rewrite object_at_app_second, Hdelta, insert_app_second.
    replace (stage1_customer_step (S (length h)) (object_at h uf) customer k)
      with customer
      by (unfold stage1_customer_step; by rewrite Hd, Hg).
    replace (stage1_group_step (object_at h uf) group k)
      with (store_prop group (path_field k) (lookup_prop (object_at h uf) k))
      by (unfold stage1_group_step; by rewrite Hd).
    by apply IH.
Qed.

(** The first loop before any dotted key: the address object is allocated
    by the first dotted key. *)
Lemma createUpdate_keys_without_group (h : heap) (uf : loc) (ks : list string) :
  (uf < length h)%nat ->
  Forall (fun k => (other_key k || address_path k) && proto_free k = true) ks ->
  forall (flag : bool) (customer : object),
    truthy (lookup_prop customer "address") = false ->
    createUpdate_keys (VObject uf) (VObject (length h)) flag ks (h ++ [customer])
    = Ok (flag,
          h ++ fold_left (stage1_customer_step (S (length h)) (object_at h uf))
                         ks customer
            :: (if existsb dotted_key ks
                then [fold_left (stage1_group_step (object_at h uf)) ks []]
                else [])).
Proof.
  intros Huf Hks. induction Hks as [|k ks Hk Hks IH]; intros flag customer Hg;
    cbn [createUpdate_keys fold_left existsb]; [done|].
  unfold bind at 1. apply andb_true_iff in Hk as [Hk Hp].
  assert (Hdelta : object_at (h ++ [customer]) uf = object_at h uf)
    by by apply object_at_app_old.
  destruct (delta_key_cases k Hk) as [Hne [Hd|(f & Hkf & Hf & Hd & Hpath)]].
  - rewrite createUpdate_key_other
      by (done || unfold other_key, bare_key; rewrite Hd;
          by apply String.eqb_neq in Hne as ->).
    rewrite object_at_app_first, Hdelta, insert_app_first.
    replace (stage1_customer_step (S (length h)) (object_at h uf) customer k)
      with (store_prop customer k (lookup_prop (object_at h uf) k))
      by (unfold stage1_customer_step; by rewrite Hd).
    replace (stage1_group_step (object_at h uf) [] k) with (@nil (string * value))
      by (unfold stage1_group_step; by rewrite Hd).
    rewrite Hd. cbn [orb].
    apply IH. by rewrite lookup_store_ne.
  - rewrite createUpdate_key_dotted_new;
      [|done|done|rewrite length_app; cbn; lia|rewrite length_app; cbn; lia|lia
       |by rewrite object_at_app_first|by apply startsWith_split].
    rewrite object_at_app_first, Hdelta, insert_app_first.
    replace (length (h ++ [customer])) with (S (length h))
      by (rewrite length_app; cbn; lia).
    rewrite <- app_assoc. cbn [app].
    replace (stage1_customer_step (S (length h)) (object_at h uf) customer k)
      with (store_prop customer "address" (VObject (S (length h))))
      by (unfold stage1_customer_step; by rewrite Hd, Hg).
    replace (stage1_group_step (object_at h uf) [] k)
      with [(path_field k, lookup_prop (object_at h uf) k)]
      by (unfold stage1_group_step; by rewrite Hd).
    rewrite Hd. cbn [orb]. fold (path_field k).
    apply createUpdate_keys_with_group; [done..|]. apply lookup_store_eq.
Qed.

Lemma lookup_stage1_customer (g : loc) (delta : object) (ks : list string)
    (k : string) :
  dotted_key k = false -> k <> "address"%string ->
  forall customer,
    lookup_prop (fold_left (stage1_customer_step g delta) ks customer) k
    = if bool_decide (k ∈ ks) then lookup_prop delta k else lookup_prop customer k.
Proof.
  intros Hd Hne. induction ks as [|k0 ks IH]; intros customer; cbn [fold_left].
  - by rewrite bool_decide_eq_false_2 by apply not_elem_of_nil.
  - rewrite IH. unfold stage1_customer_step.
    destruct (decide (k ∈ ks)) as [Hin|Hnin].
    { rewrite !bool_decide_eq_true_2; [done| |done]. by apply list_elem_of_further. }
    rewrite (bool_decide_eq_false_2 _ Hnin).
    destruct (dotted_key k0) eqn:Hd0.
    + rewrite bool_decide_eq_false_2
        by (rewrite elem_of_cons; intros [?|?]; [congruence | done]).
      destruct (truthy (lookup_prop customer "address")); [done|].
      by apply lookup_store_ne.
    + destruct (decide (k0 = k)) as [->|Hk0].
      * rewrite bool_decide_eq_true_2 by apply list_elem_of_here.
        apply lookup_store_eq.
      * rewrite bool_decide_eq_false_2
          by (rewrite elem_of_cons; intros [?|?]; [congruence | done]).
        by apply lookup_store_ne.
Qed.

Lemma lookup_stage1_address (g : loc) (delta : object) (ks : list string) :
  Forall (fun k => k <> "address"%string) ks ->
  forall customer,
    lookup_prop (fold_left (stage1_customer_step g delta) ks customer) "address"
    = if truthy (lookup_prop customer "address") then lookup_prop customer "address"
      else if existsb dotted_key ks then VObject g
           else lookup_prop customer "address".
Proof.
  induction 1 as [|k0 ks Hk0 _ IH]; intros customer; cbn [fold_left existsb].
  - by destruct (truthy _).
  - rewrite IH. unfold stage1_customer_step.
    destruct (dotted_key k0) eqn:Hd0; cbn [orb].
    + destruct (truthy (lookup_prop customer "address")) eqn:Ht; [by rewrite Ht|].
      by rewrite lookup_store_eq.
    + by rewrite lookup_store_ne.
Qed.

Lemma lookup_stage1_group (delta : object) (ks : list string) (f : string) :
  Forall (fun k => other_key k || address_path k = true) ks ->
  forall group,
    lookup_prop (fold_left (stage1_group_step delta) ks group) f
    = if bool_decide ("address" +:+ "." +:+ f ∈ ks)
      then lookup_prop delta ("address" +:+ "." +:+ f)
      else lookup_prop group f.
Proof.
  induction 1 as [|k0 ks Hk0 _ IH]; intros group; cbn [fold_left].
  - by rewrite bool_decide_eq_false_2 by apply not_elem_of_nil.
  - rewrite IH. unfold stage1_group_step.
    destruct (decide ("address" +:+ "." +:+ f ∈ ks)) as [Hin|Hnin].
    { rewrite !bool_decide_eq_true_2; [done| |done]. by apply list_elem_of_further. }
    rewrite (bool_decide_eq_false_2 _ Hnin).
    destruct (delta_key_cases k0 Hk0) as [_ [Hd|(f0 & Hk & _ & Hd & Hpath)]];
      rewrite Hd.
    + rewrite bool_decide_eq_false_2; [done|].
      rewrite elem_of_cons. intros [Heq|?]; [|done].
      by rewrite <- Heq, dotted_path_dotted in Hd.
    + rewrite Hpath. destruct (decide (f0 = f)) as [->|Hf0].
      * rewrite bool_decide_eq_true_2 by (rewrite Hk; apply list_elem_of_here).
        by rewrite lookup_store_eq, Hk.
      * rewrite bool_decide_eq_false_2.
        -- by apply lookup_store_ne.
        -- rewrite elem_of_cons. intros [Heq|?]; [|done].
           rewrite Hk in Heq. by apply dotted_path_injective in Heq.
Qed.

Lemma keys_stage1_group (delta : object) (ks : list string) (f : string) :
  Forall (fun k => other_key k || address_path k = true) ks ->
  forall group,
    f ∈ keys (fold_left (stage1_group_step delta) ks group)
    <-> f ∈ keys group \/ "address" +:+ "." +:+ f ∈ ks.
Proof.
  induction 1 as [|k0 ks Hk0 _ IH]; intros group; cbn [fold_left].
  - rewrite elem_of_nil. tauto.
  - rewrite IH, elem_of_cons. unfold stage1_group_step.
    destruct (delta_key_cases k0 Hk0) as [_ [Hd|(f0 & Hk & _ & Hd & Hpath)]];
      rewrite Hd.
    + split; [tauto|]. intros [?|[Heq|?]]; [tauto| |tauto].
      by rewrite <- Heq, dotted_path_dotted in Hd.
    + rewrite Hpath. unfold keys at 1. rewrite keys_store. fold (keys group).
      split.
      * intros [[->|?]|?]; [|tauto..]. right. left. by rewrite Hk.
      * intros [?|[Heq|?]]; [tauto| |tauto].
        rewrite Hk in Heq. apply dotted_path_injective in Heq as ->. tauto.
Qed.

Lemma existsb_dotted_key (ks : list string) :
  existsb dotted_key ks = true <-> exists k, k ∈ ks /\ dotted_key k = true.
Proof.
  rewrite existsb_exists. split; intros (k & Hk & Hd); exists k;
    (split; [|done]); by apply list_elem_of_In.
Qed.

Lemma anonymize_then_convert (h : heap) (c : loc) :
  typed_customer h c = true ->
  (let* anonym := anonymizeCustomer (VObject c) in
   convertCustomerUpdateToDotNotation anonym) h
  = Ok (VObject (S (length h)),
        anonymized_heap h c
        ++ [dot_notation (anonymized_heap h c) (anonymous_of (object_at h c))]).
Proof.
  intros Htc.
  assert (Hlen2 : length (anonymized_heap h c) = S (length h)).
  { destruct (anonymized_heap_length h c) as (hx & -> & Hlen).
    rewrite length_app, Hlen. cbn. lia. }
  assert (Hat2 : object_at (anonymized_heap h c) (length h)
                 = anonymous_of (object_at h c))
    by apply anonymized_heap_result.
  assert (Hconv : dot_convertible (anonymized_heap h c)
                    (object_at (anonymized_heap h c) (length h)) = true).
  { rewrite Hat2. unfold dot_convertible.
    destruct (lookup_prop (object_at h c) "address") as [| | | | |a] eqn:Ha;
      try (unfold typed_customer in Htc; rewrite Ha in Htc; cbn in Htc;
           by rewrite ?andb_false_r in Htc).
    - by rewrite anonymous_of_no_address.
    - rewrite (anonymous_of_address _ a) by done.
      apply bool_decide_eq_true.
      assert (a < length h)%nat by by apply (typed_customer_address h c).
      lia. }
  unfold bind at 1. rewrite anonymizeCustomer_typed by done.
  rewrite convert_dot_notation by (done || lia).
  by rewrite Hat2, Hlen2.
Qed.

(** [createUpdate] on a delta in dot notation, in full. *)
Lemma createUpdate_dotted_run (h : heap) (updatedFields : loc) :
  dotted_delta h updatedFields = true ->
  let delta := object_at h updatedFields in
  exists h1 update h',
    createUpdate_stage1 (VObject updatedFields) h
    = Ok ((false, VObject (length h)), h1)
    /\ createUpdate (VObject updatedFields) h = Ok (VObject update, h')
    /\ (forall k,
          k ∈ keys (object_at h' update)
          <-> (k ∈ ["firstName"; "lastName"; "email"]%string
               /\ truthy (lookup_prop delta k) = true)
              \/ (k ∈ keys delta /\ dotted_key k = true))
    /\ (forall k,
          k ∈ ["firstName"; "lastName"; "email"]%string ->
          lookup_prop (object_at h' update) k
          = if truthy (lookup_prop delta k)
            then (if String.eqb k "email" then email_value (lookup_prop delta k)
                  else token_value (lookup_prop delta k))
            else VUndefined)
    /\ (forall f,
          "address" +:+ "." +:+ f ∈ keys delta ->
          lookup_prop (object_at h' update) ("address" +:+ "." +:+ f)
          = if address_line f
               && truthy (lookup_prop delta ("address" +:+ "." +:+ f))
            then token_value (lookup_prop delta ("address" +:+ "." +:+ f))
            else lookup_prop delta ("address" +:+ "." +:+ f))
    /\ (forall l, (l < length h)%nat -> object_at h' l = object_at h l)
    /\ (length h <= length h')%nat.
Proof.
  intros Hdelta delta. unfold dotted_delta in Hdelta.
  rewrite !andb_true_iff, bool_decide_eq_true in Hdelta.
  destruct Hdelta as [[[Huf Hkeys] Hnames] Hlines]. fold delta in Hkeys, Hnames, Hlines.
  assert (HKP : Forall (fun k => (other_key k || address_path k) && proto_free k = true)
                       (keys delta)).
  { apply Forall_forall. intros k Hk. rewrite forallb_forall in Hkeys.
    apply Hkeys. by apply list_elem_of_In. }
  assert (HK : Forall (fun k => other_key k || address_path k = true) (keys delta)).
  { eapply Forall_impl; [exact HKP|]. intros k Hk.
    by apply andb_true_iff in Hk as [Hk _]. }
  assert (HneK : Forall (fun k => k <> "address"%string) (keys delta)).
  { eapply Forall_impl; [exact HK|]. intros k Hk.
    by apply delta_key_cases in Hk as [Hne _]. }
  cbn [forallb] in Hlines. rewrite !andb_true_iff in Hlines.
  destruct Hlines as (Hl1 & Hl2 & Hl3 & _).
  apply typed_names_textual in Hnames as (Hn1 & Hn2 & Hn3).
  set (g := S (length h)).
  set (customer := fold_left (stage1_customer_step g delta) (keys delta) []).
  set (group := fold_left (stage1_group_step delta) (keys delta) []).
  set (has := existsb dotted_key (keys delta)).
  set (h1 := h ++ customer :: (if has then [group] else [])).
  assert (Hstage1 : createUpdate_stage1 (VObject updatedFields) h
                    = Ok ((false, VObject (length h)), h1)).
  { unfold createUpdate_stage1. unfold bind at 1. cbn [new_object].
    unfold bind at 1. cbn [own_keys]. rewrite object_at_app_l by done.
    fold delta. fold (keys delta). unfold bind at 1.
    by rewrite createUpdate_keys_without_group. }
  assert (Hat1 : object_at h1 (length h) = customer) by apply object_at_app_first.
  assert (Hcopy : forall k, dotted_key k = false -> k <> "address"%string ->
                    lookup_prop customer k = lookup_prop delta k).
  { intros k Hd Hne. unfold customer. rewrite lookup_stage1_customer by done.
    case_bool_decide; [done|]. symmetry. by apply lookup_notin. }
  assert (Haddr : lookup_prop customer "address"
                  = if has then VObject g else VUndefined).
  { unfold customer. by rewrite lookup_stage1_address. }
  assert (Hfield : forall f, lookup_prop group f
                             = lookup_prop delta ("address" +:+ "." +:+ f)).
  { intros f. unfold group. rewrite lookup_stage1_group by done.
    case_bool_decide; [done|]. symmetry. by apply lookup_notin. }
  assert (Hgroup : has = true ->
                   (g < length h1)%nat /\ object_at h1 g = group).
  { intros Hhas. unfold h1. rewrite Hhas. split.
    - rewrite length_app. cbn. lia.
    - apply object_at_app_second. }
  assert (Htc : typed_customer h1 (length h) = true).
  { unfold typed_customer. rewrite Hat1, !Hcopy, Haddr by done.
    rewrite Hn1, Hn2, Hn3.
    rewrite bool_decide_eq_true_2 by (unfold h1; rewrite length_app; cbn; lia).
    cbn [andb]. destruct has eqn:Hhas; [|done].
    destruct (Hgroup eq_refl) as [Hg Hat]. cbn [typed_address].
    rewrite Hat, !Hfield, bool_decide_eq_true_2 by done.
    change ("address" +:+ "." +:+ "line1") with "address.line1"%string.
    change ("address" +:+ "." +:+ "line2") with "address.line2"%string.
    change ("address" +:+ "." +:+ "postcode") with "address.postcode"%string.
    by rewrite Hl1, Hl2, Hl3. }
  set (h2 := anonymized_heap h1 (length h)).
  set (anon := anonymous_of customer).
  set (update := dot_notation h2 anon).
  assert (Hrun : createUpdate (VObject updatedFields) h
                 = Ok (VObject (S (length h1)), h2 ++ [update])).
  { unfold createUpdate. unfold bind at 1. rewrite Hstage1.
    pose proof (anonymize_then_convert h1 (length h) Htc) as Hac.
    rewrite Hat1 in Hac. exact Hac. }
  assert (Hlen2 : length h2 = S (length h1)).
  { destruct (anonymized_heap_length h1 (length h)) as (hx & Hhx & Hlen).
    fold h2 in Hhx. rewrite Hhx, length_app, Hlen. cbn. lia. }
  assert (Hgroup2 : has = true -> object_at h2 g = anonymized_address group).
  { intros Hhas. destruct (Hgroup Hhas) as [Hg Hat]. unfold h2.
    rewrite (anonymized_heap_address h1 (length h) g); [by rewrite Hat|done|].
    by rewrite Hat1, Haddr, Hhas. }
  assert (Hanon_address : has = true -> lookup_prop anon "address" = VObject g).
  { intros Hhas. apply anonymous_of_address. by rewrite Haddr, Hhas. }
  assert (Hin_anon : has = true -> "address"%string ∈ keys anon).
  { intros Hhas. apply anonymous_of_keys. rewrite Haddr, Hhas. split; [|done].
    unfold anonymizable. rewrite !elem_of_cons. tauto. }
  exists h1, (S (length h1)), (h2 ++ [update]).
  split; [exact Hstage1|]. split; [exact Hrun|].
  rewrite <- Hlen2, object_at_app_r.
  split; [|split; [|split; [|split]]].
  - intros k. unfold update, dot_notation. rewrite keys_dot_fold.
    change (keys []) with (@nil string). rewrite elem_of_nil. split.
    + intros [[]|[[Hk Hne]|(Haddress & g' & f & Hg' & Hf & ->)]].
      * left. apply anonymous_of_keys in Hk as [Hk Ht].
        unfold anonymizable in Hk. rewrite !elem_of_cons, elem_of_nil in Hk.
        assert (Hname : k ∈ ["firstName"; "lastName"; "email"]%string)
          by (rewrite !elem_of_cons; tauto).
        split; [done|]. rewrite <- Hcopy; [done| |done].
        rewrite !elem_of_cons, elem_of_nil in Hname.
        by destruct Hname as [->|[->|[->|[]]]].
      * right. split; [|apply dotted_path_dotted].
        apply anonymous_of_keys in Haddress as [_ Ht]. rewrite Haddr in Ht.
        destruct has eqn:Hhas; [|done].
        rewrite Hanon_address in Hg' by done. injection Hg' as <-.
        rewrite Hgroup2, keys_anonymized_address in Hf by done.
        apply keys_stage1_group in Hf as [Hf|Hf]; [|done..].
        by apply elem_of_nil in Hf.
    + intros [[Hk Ht]|[Hk Hd]].
      * right. left.
        assert (Hplain : dotted_key k = false /\ k <> "address"%string).
        { rewrite !elem_of_cons, elem_of_nil in Hk.
          destruct Hk as [->|[->|[->|[]]]]; by split. }
        destruct Hplain as [Hd Hne]. split; [|done].
        apply anonymous_of_keys. rewrite Hcopy by done. split; [|done].
        unfold anonymizable. rewrite !elem_of_cons, elem_of_nil in *. tauto.
      * right. right.
        assert (Hhas : has = true) by (apply existsb_dotted_key; eauto).
        rewrite Forall_forall in HK.
        destruct (delta_key_cases k (HK k Hk)) as [_ [Hd'|(f & Hkf & _)]];
          [congruence|].
        split; [by apply Hin_anon|]. exists g, f.
        split; [by apply Hanon_address|]. split; [|done].
        rewrite Hgroup2, keys_anonymized_address by done.
        apply keys_stage1_group; [by apply Forall_forall|]. right. by rewrite <- Hkf.
  - intros k Hk. unfold update, anon. rewrite lookup_dot_notation_name by done.
    assert (Hplain : dotted_key k = false /\ k <> "address"%string).
    { rewrite !elem_of_cons, elem_of_nil in Hk.
      destruct Hk as [->|[->|[->|[]]]]; by split. }
    destruct Hplain as [Hd Hne]. by rewrite Hcopy.
  - intros f Hf.
    assert (Hhas : has = true).
    { apply existsb_dotted_key. eexists. split; [exact Hf|]. apply dotted_path_dotted. }
    unfold update, dot_notation.
    rewrite (lookup_dot_nested h2 anon g).
    + rewrite bool_decide_eq_true_2 by by apply Hin_anon.
      by rewrite Hgroup2, lookup_anonymized_address, Hfield.
    + apply anonymous_of_keys_plain.
    + by apply Hanon_address.
    + rewrite Hgroup2, keys_anonymized_address by done.
      apply keys_stage1_group; [done|]. by right.
  - intros l Hl.
    assert (Hl1' : (l < length h1)%nat) by (unfold h1; rewrite length_app; lia).
    rewrite object_at_app_l by lia.
    unfold h2, anonymized_heap. rewrite Hat1, Haddr.
    destruct has eqn:Hhas.
    + destruct (Hgroup eq_refl) as [Hg _].
      rewrite object_at_app_l by (rewrite length_insert; lia).
      rewrite object_at_insert by done. case_decide; [unfold g in *; lia|].
      unfold h1. by apply object_at_app_old.
    + rewrite object_at_app_l by done. unfold h1. by apply object_at_app_old.
  - rewrite length_app, Hlen2. unfold h1. rewrite length_app. lia.
Qed.

(** X18.  A delta in dot notation (fields of the customer and keys
    "address.f", no bare key address, and neither a key __proto__ nor a key
    "address.__proto__", which would not be ordinary assignments) comes back
    in dot notation.  [rewriteFullAddress] stays false, and the update holds
    firstName, lastName and email when the delta gives them a truthy value,
    anonymised, and every key "address.f" of the delta, with the token of its
    value for line1, line2 and postcode and the value itself for the other
    fields.  The other fields of the delta are dropped; no object that was
    there before is written to or removed, the delta included. *)
Theorem createUpdate_dotted_delta (h : heap) (updatedFields : loc) :
  dotted_delta h updatedFields = true ->
  let delta := object_at h updatedFields in
  exists h1 update h',
    createUpdate_stage1 (VObject updatedFields) h
    = Ok ((false, VObject (length h)), h1)
    /\ createUpdate (VObject updatedFields) h = Ok (VObject update, h')
    /\ (forall k,
          k ∈ keys (object_at h' update)
          <-> (k ∈ ["firstName"; "lastName"; "email"]%string
               /\ truthy (lookup_prop delta k) = true)
              \/ (k ∈ keys delta /\ dotted_key k = true))
    /\ (forall k,
          k ∈ ["firstName"; "lastName"; "email"]%string ->
          lookup_prop (object_at h' update) k
          = if truthy (lookup_prop delta k)
            then (if String.eqb k "email" then email_value (lookup_prop delta k)
                  else token_value (lookup_prop delta k))
            else VUndefined)
    /\ (forall f,
          "address" +:+ "." +:+ f ∈ keys delta ->
          lookup_prop (object_at h' update) ("address" +:+ "." +:+ f)
          = if address_line f
               && truthy (lookup_prop delta ("address" +:+ "." +:+ f))
            then token_value (lookup_prop delta ("address" +:+ "." +:+ f))
            else lookup_prop delta ("address" +:+ "." +:+ f))
    /\ (forall l, (l < length h)%nat -> object_at h' l = object_at h l)
    /\ (length h <= length h')%nat.
Proof. apply createUpdate_dotted_run. Qed.

Lemma createUpdate_dotted_delta_witness :
  let h := [[("firstName", VString "Jane"); ("address.line1", VString "1 Main St");
             ("address.city", VString "Paris"); ("createdAt", VNumber 7)]]%string in
  exists update h',
    createUpdate (VObject 0) h = Ok (VObject update, h')
    /\ ("createdAt"%string ∉ keys (object_at h' update))
    /\ lookup_prop (object_at h' update) "firstName" = VString (hash "Jane")
    /\ lookup_prop (object_at h' update) "address.line1" = VString (hash "1 Main St")
    /\ lookup_prop (object_at h' update) "address.city" = VString "Paris"
    /\ object_at h' 0%nat = object_at h 0%nat.
Proof.
  intros h.
  destruct (createUpdate_dotted_delta h 0%nat eq_refl)
    as (h1 & update & h' & _ & Hrun & Hkeys & Hnames & Hlines & Hold & _).
  exists update, h'. split; [exact Hrun|]. split; [|split; [|split; [|split]]].
  - intros [[Hk _]|[_ Hd]]%Hkeys; [|discriminate].
    rewrite !elem_of_cons, elem_of_nil in Hk.
    destruct Hk as [?|[?|[?|[]]]]; discriminate.
  - apply (Hnames "firstName"%string), list_elem_of_here.
  - apply (Hlines "line1"%string).
    apply list_elem_of_further, list_elem_of_here.
  - apply (Hlines "city"%string).
    do 2 apply list_elem_of_further. apply list_elem_of_here.
  - apply Hold. cbn. lia.
Defined.

(** ** [syncMode]: an update in dot notation *)

Lemma alloc_dotted_delta (fs : list (string * doc)) (h : heap) :
  dotted_delta_doc fs = true ->
  dotted_delta ((alloc_fields fs h).2 ++ [(alloc_fields fs h).1])
               (length (alloc_fields fs h).2) = true.
Proof.
  unfold dotted_delta_doc, dotted_delta. cbn [forallb typed_names].
  rewrite !andb_true_iff. intros (Hkeys & H1 & H2 & H3 & H4 & H5 & H6 & _).
  rewrite object_at_app_r, alloc_fields_keys.
  rewrite bool_decide_eq_true_2 by (rewrite length_app; cbn; lia).
  rewrite Hkeys. cbn [andb].
  apply textual_scalar in H1 as [S1 T1]. apply textual_scalar in H2 as [S2 T2].
  apply textual_scalar in H3 as [S3 T3]. apply textual_scalar in H4 as [S4 T4].
  apply textual_scalar in H5 as [S5 T5]. apply textual_scalar in H6 as [S6 T6].
  rewrite !alloc_fields_scalar by done.
  by rewrite T1, T2, T3, T4, T5, T6.
Qed.

(** X19.  An update event whose [updatedFields] is in dot notation (fields
    of the customer and keys "address.f"; no bare key address, no key
    __proto__ and no key "address.__proto__"; names and address lines absent
    or strings), while the queue stays below the maximum, adds one pending
    update and does nothing else.  The update carries the token of the event
    and the _id of [documentKey]: whenever it is serialised later, its _id
    reads as that of [documentKey], whatever kind of value it is.  The update
    holds the names of the delta that are truthy, anonymised, and every key
    "address.f" of the delta: the token of line1, line2 and postcode when
    not empty, and every other field as the delta has it. *)
Theorem update_queues_dotted_update
    (cfg : config) (st : state) (change : ChangeStreamDocument)
    (token : ResumeToken) (description : UpdateDescription)
    (key fs : list (string * doc)) :
  cs_closed st = false ->
  operationType change = "update"%string ->
  documentKey change = DObject key ->
  updateDescription change = Some description ->
  updatedFields description = DObject fs ->
  dotted_delta_doc fs = true ->
  (S (length (updates st)) < MAX_BATCH_SIZE cfg)%nat ->
  exists st' u l,
    step cfg st (Change change token) = Ok st'
    /\ updates st' = updates st ++ [u]
    /\ resumeToken u = token
    /\ reads_as (st_heap st') (_id u) (lookup_field key "_id")
    /\ update u = VObject l
    /\ (forall k,
          k ∈ keys (object_at (st_heap st') l)
          <-> (k ∈ ["firstName"; "lastName"; "email"]%string
               /\ truthy_doc (lookup_field fs k) = true)
              \/ (k ∈ map fst fs /\ dotted_key k = true))
    /\ (forall k,
          k ∈ ["firstName"; "lastName"; "email"]%string ->
          lookup_prop (object_at (st_heap st') l) k
          = if truthy_doc (lookup_field fs k)
            then (if String.eqb k "email"
                  then email_value (value_of_scalar (lookup_field fs k))
                  else token_value (value_of_scalar (lookup_field fs k)))
            else VUndefined)
    /\ (forall f,
          "address" +:+ "." +:+ f ∈ map fst fs ->
          if address_line f
          then lookup_prop (object_at (st_heap st') l) ("address" +:+ "." +:+ f)
               = (if truthy_doc (lookup_field fs ("address" +:+ "." +:+ f))
                  then token_value
                         (value_of_scalar (lookup_field fs ("address" +:+ "." +:+ f)))
                  else value_of_scalar (lookup_field fs ("address" +:+ "." +:+ f)))
          else reads_as (st_heap st')
                        (lookup_prop (object_at (st_heap st') l)
                                     ("address" +:+ "." +:+ f))
                        (lookup_field fs ("address" +:+ "." +:+ f)))
    /\ sink st' = sink st /\ timers st' = timers st
    /\ flushes st' = flushes st /\ console st' = console st.
Proof.
  intros Hopen Hop Hkey Hdesc Hfs Hdelta Hq.
  set (okey := (alloc_fields key (st_heap st)).1).
  set (hk := (alloc_fields key (st_heap st)).2 ++ [okey]).
  set (delta := (alloc_fields fs hk).1).
  set (hf0 := (alloc_fields fs hk).2).
  pose proof (alloc_dotted_delta fs hk Hdelta) as Hdd. fold delta hf0 in Hdd.
  destruct (createUpdate_dotted_run (hf0 ++ [delta]) (length hf0) Hdd)
    as (h1 & upd & h' & _ & Hrun & Hkeys & Hnames & Hlines & Hold & Hlen').
  rewrite object_at_app_r in Hkeys, Hnames, Hlines.
  rewrite length_app in Hold, Hlen'. cbn [length] in Hold, Hlen'.
  pose proof (alloc_fields_length fs hk) as Hlenf. fold hf0 in Hlenf.
  assert (Hframe : forall x, (x < length hf0)%nat -> object_at h' x = object_at hf0 x).
  { intros x Hx. rewrite Hold by lia. by apply object_at_app_l. }
  assert (Hlines' : forall k,
             k ∈ ["address.line1"; "address.line2"; "address.postcode"]%string ->
             scalar_doc (lookup_field fs k) = true).
  { unfold dotted_delta_doc in Hdelta. cbn [forallb] in Hdelta.
    rewrite !andb_true_iff in Hdelta.
    destruct Hdelta as (_ & _ & _ & _ & H4 & H5 & H6 & _).
    intros k Hk. rewrite !elem_of_cons, elem_of_nil in Hk.
    destruct Hk as [->|[->|[->|[]]]]; by apply textual_scalar. }
  assert (Hscalar : forall k, k ∈ ["firstName"; "lastName"; "email"]%string ->
                      scalar_doc (lookup_field fs k) = true).
  { unfold dotted_delta_doc in Hdelta. cbn [forallb] in Hdelta.
    rewrite !andb_true_iff in Hdelta.
    destruct Hdelta as (_ & H1 & H2 & H3 & _).
    intros k Hk. rewrite !elem_of_cons, elem_of_nil in Hk.
    destruct Hk as [->|[->|[->|[]]]]; by apply textual_scalar. }
  cbn [step]. rewrite Hopen.
  unfold on_change, on_change_dispatch, on_change_insert. cbn [operationType].
  rewrite Hop. cbn [String.eqb Ascii.eqb Bool.eqb].
  unfold on_change_update. rewrite Hop, Hdesc.
  cbn [String.eqb Ascii.eqb Bool.eqb].
  unfold run at 1. cbn [st_heap with_stream].
  unfold bind at 1. unfold deserialise at 1. rewrite Hkey, alloc_doc_fields.
  unfold bind at 1. rewrite get_prop_object, object_at_app_r.
  fold okey hk.
  unfold bind at 1. unfold deserialise. rewrite Hfs, alloc_doc_fields.
  fold delta hf0. cbn [ret truthy negb].
  unfold run. cbn [st_heap with_heap]. rewrite Hrun.
  unfold on_change_check. cbn [updates push with_updates with_heap with_stream].
  rewrite length_app. cbn [length].
  destruct (Nat.leb_spec (MAX_BATCH_SIZE cfg) (length (updates st) + 1)); [lia|].
  eexists _, _, upd. split; [reflexivity|].
  cbn [updates push with_updates with_heap with_stream resumeToken _id
       update cs_resumeToken st_heap sink timers flushes console].
  split; [done|]. split; [done|].
  split.
  { apply (reads_as_mono (alloc_fields key (st_heap st)).2).
    - unfold hk in Hlenf. rewrite length_app in Hlenf. cbn [length] in Hlenf. lia.
    - intros x Hx. rewrite Hframe.
      + unfold hf0. rewrite alloc_fields_old.
        * by apply object_at_app_l.
        * unfold hk. rewrite length_app. lia.
      + unfold hk in Hlenf. rewrite length_app in Hlenf. cbn [length] in Hlenf. lia.
    - apply alloc_fields_field_reads. }
  split; [done|]. split; [|split; [|split; [|done]]].
  - intros k. rewrite Hkeys. unfold delta at 2. rewrite alloc_fields_keys.
    split; (intros [[Hk Ht]|?]; [left|by right]); (split; [done|]).
    + rewrite <- truthy_value_of_scalar by by apply Hscalar.
      unfold delta in Ht. by rewrite alloc_fields_scalar in Ht by by apply Hscalar.
    + unfold delta. rewrite alloc_fields_scalar by by apply Hscalar.
      by rewrite truthy_value_of_scalar by by apply Hscalar.
  - intros k Hk. rewrite Hnames by done. unfold delta.
    rewrite alloc_fields_scalar by by apply Hscalar.
    by rewrite truthy_value_of_scalar by by apply Hscalar.
  - intros f Hf. rewrite Hlines by (unfold delta; by rewrite alloc_fields_keys).
    destruct (address_line f) eqn:Hline; cbn [andb].
    + assert (Hs : scalar_doc (lookup_field fs ("address" +:+ "." +:+ f)) = true).
      { apply Hlines'. unfold address_line in Hline.
        rewrite !orb_true_iff, !String.eqb_eq in Hline.
        rewrite !elem_of_cons. destruct Hline as [[->| ->]| ->]; tauto. }
      unfold delta. rewrite alloc_fields_scalar by done.
      by rewrite truthy_value_of_scalar.
    + apply (reads_as_mono hf0); [lia | exact Hframe |].
      apply alloc_fields_field_reads.
Qed.

Lemma update_queues_dotted_update_witness :
  let description :=
    {| updatedFields := DObject [("firstName", DString "Jane");
                                 ("address.line1", DString "1 Main St");
                                 ("address.geo", DObject [("lat", DNumber 1)])];
       removedFields := []; truncatedArrays := [] |}%string in
  let change := {| operationType := "update"; fullDocument := DUndefined;
                   documentKey := DObject [("_id", DObject [("$oid", DString "5f1")])];
                   updateDescription := Some description |}%string in
  exists st' u l,
    step source_config (syncMode source_config None) (Change change (DString "t1"))
    = Ok st'
    /\ updates st' = [u]
    /\ resumeToken u = DString "t1"
    /\ filter_id (operation_of (st_heap st') u)
       = Some (DObject [("$oid", DString "5f1")]%string)
    /\ update u = VObject l
    /\ lookup_prop (object_at (st_heap st') l) "firstName" = VString (hash "Jane")
    /\ lookup_prop (object_at (st_heap st') l) "address.line1"
       = VString (hash "1 Main St")
    /\ doc_of (st_heap st') (lookup_prop (object_at (st_heap st') l) "address.geo")
       = Some (DObject [("lat", DNumber 1)]%string).
Proof.
  intros description change.
  destruct (update_queues_dotted_update source_config
              (syncMode source_config None) change (DString "t1") description
              _ _ eq_refl eq_refl eq_refl eq_refl eq_refl eq_refl)
    as (st' & u & l & Hstep & Hq & Htoken & Hid & Hupdate & _ & Hnames & Hlines & _).
  { cbn. lia. }
  exists st', u, l. split; [exact Hstep|]. split; [exact Hq|].
  split; [exact Htoken|]. split; [exact (reads_as_here _ _ _ Hid)|].
  split; [exact Hupdate|].
  split; [|split].
  - apply (Hnames "firstName"%string), list_elem_of_here.
  - apply (Hlines "line1"%string).
    apply list_elem_of_further, list_elem_of_here.
  - refine (Hlines "geo"%string _ (S (length (st_heap st'))) (st_heap st') _ _);
      [|lia|done].
    do 2 apply list_elem_of_further. apply list_elem_of_here.
Defined.

(** ** [syncMode]: the two triggers of a flush *)





